(** * Verification of the mouse-video-compressor backend

    Shallow embedding of the parts of the backend that decide the motion
    analysis, the compression profiles, the adaptive-compression worker and
    the progress tracker.  Floats of the Python code are modelled as exact
    rationals [Q]; [datetime] timestamps as rationals counting seconds. *)

From Stdlib Require Import QArith Qminmax ZArith List String Bool Lia.
From Stdlib Require Import Qround Qabs Lqa Sorting.Sorted.
Import ListNotations.

Open Scope string_scope.
Open Scope Q_scope.

(* ------------------------------------------------------------------ *)
(** ** Errors raised by the Python code *)

Inductive py_error :=
  | ValueError (msg : string)
  | IndexError
  | ZeroDivisionError
  | RuntimeError (msg : string).

Inductive result (A : Type) :=
  | Ok (a : A)
  | Err (e : py_error).
Arguments Ok {A} a.
Arguments Err {A} e.

(* ------------------------------------------------------------------ *)
(** ** Python dicts with string keys, as insertion-ordered association
    lists: assignment replaces the value in place or appends the key. *)

Module PyDict.

Definition dict (V : Type) := list (string * V).

Fixpoint get {V} (k : string) (d : dict V) : option V :=
  match d with
  | [] => None
  | (k', v) :: r => if String.eqb k k' then Some v else get k r
  end.

Fixpoint set {V} (k : string) (v : V) (d : dict V) : dict V :=
  match d with
  | [] => [(k, v)]
  | (k', v') :: r =>
      if String.eqb k k' then (k', v) :: r else (k', v') :: set k v r
  end.

Fixpoint del {V} (k : string) (d : dict V) : dict V :=
  match d with
  | [] => []
  | (k', v') :: r => if String.eqb k k' then r else (k', v') :: del k r
  end.

End PyDict.

(* ------------------------------------------------------------------ *)
(** ** compression/motion_detector.py *)

Module MotionDetector.

(** Activity labels, the strings 'high', 'medium', 'low', 'inactive'. *)
Inductive activity_level := High | Medium | Low | Inactive.

Definition activity_level_eqb (a b : activity_level) : bool :=
  match a, b with
  | High, High | Medium, Medium | Low, Low | Inactive, Inactive => true
  | _, _ => false
  end.

(** [self.activity_thresholds] of [MotionDetector.__init__]. *)
Definition threshold_high : Q := 8 # 100.
Definition threshold_medium : Q := 4 # 100.
Definition threshold_low : Q := 1 # 100.

(** [_classify_activity]. *)
Definition _classify_activity (motion_intensity : Q) : activity_level :=
  if Qle_bool threshold_high motion_intensity then High
  else if Qle_bool threshold_medium motion_intensity then Medium
  else if Qle_bool threshold_low motion_intensity then Low
  else Inactive.

(** The OpenCV measurements of one frame that [_calculate_motion_intensity]
    combines: the non-zero pixel count of the cleaned foreground mask, the
    frame area [frame.shape[0] * frame.shape[1]], the mean Lucas-Kanade
    vector magnitude of the tracked corners ([0] when no corner is tracked),
    and the non-zero pixel count of the thresholded frame difference.  The
    image processing itself is not modelled. *)
Record frame_measure := {
  fg_nonzero : nat;
  total_area : positive;
  flow_mean_magnitude : Q;
  diff_nonzero : nat
}.

Definition ratio (n : nat) (area : positive) : Q :=
  inject_Z (Z.of_nat n) / inject_Z (Zpos area).

(** [_calculate_motion_intensity]; [has_prev] is [prev_gray is not None]. *)
Definition _calculate_motion_intensity (m : frame_measure) (has_prev : bool) : Q :=
  let bg_motion_ratio := ratio (fg_nonzero m) (total_area m) in
  let optical_flow_intensity :=
    if has_prev then flow_mean_magnitude m / 100 else 0 in
  let frame_diff_intensity :=
    if has_prev then ratio (diff_nonzero m) (total_area m) else 0 in
  let combined_intensity :=
    bg_motion_ratio * (1 # 2) + optical_flow_intensity * (3 # 10)
    + frame_diff_intensity * (2 # 10) in
  Qmin combined_intensity 1.

Record ActivitySegment := {
  start_time : Q;
  end_time : Q;
  activity_level_of : activity_level;
  motion_intensity : Q;
  frame_start : nat;
  frame_end : nat
}.

Fixpoint Qsum (l : list Q) : Q :=
  match l with
  | [] => 0
  | x :: r => x + Qsum r
  end.

(** [np.mean]. *)
Definition np_mean (l : list Q) : Q :=
  Qsum l / inject_Z (Z.of_nat (List.length l)).

Definition mk_segment (fps : Q) (s e : nat) (lvl : activity_level)
    (vals : list Q) : ActivitySegment :=
  {| start_time := inject_Z (Z.of_nat s) / fps;
     end_time := inject_Z (Z.of_nat e) / fps;
     activity_level_of := lvl;
     motion_intensity := np_mean vals;
     frame_start := s;
     frame_end := e |}.

(** The loop of [_generate_activity_segments] over
    [enumerate(motion_timeline[1:], 1)], followed by the final segment;
    [n] is [len(motion_timeline)], [i] the index of the next value. *)
Fixpoint gen_loop (fps : Q) (n : nat) (i cur_start : nat)
    (cur_level : activity_level) (vals : list Q) (xs : list Q)
    : list ActivitySegment :=
  match xs with
  | [] =>
      if Nat.ltb cur_start n then [mk_segment fps cur_start n cur_level vals]
      else []
  | motion_value :: rest =>
      let lvl := _classify_activity motion_value in
      if negb (activity_level_eqb lvl cur_level)
         || Qle_bool (fps * 10) (inject_Z (Z.of_nat i - Z.of_nat cur_start))
      then mk_segment fps cur_start i cur_level vals
           :: gen_loop fps n (S i) i lvl [motion_value] rest
      else gen_loop fps n (S i) cur_start cur_level (vals ++ [motion_value])%list rest
  end.

(** [_generate_activity_segments]: [motion_timeline[0]] raises
    [IndexError] on an empty timeline. *)
Definition _generate_activity_segments (motion_timeline : list Q) (fps : Q)
    : result (list ActivitySegment) :=
  match motion_timeline with
  | [] => Err IndexError
  | x0 :: rest =>
      Ok (gen_loop fps (List.length motion_timeline) 1 0 (_classify_activity x0)
            [x0] rest)
  end.

(** [_identify_sleep_wake_cycles], with [min_inactive_duration = 30].
    The state is (inactive start, active start, sleep, active), the
    lists in reverse order. *)
Definition min_inactive_duration : Q := 30.

Definition period := (Q * Q)%type.

Definition sleep_wake_step
    (st : option Q * option Q * list period * list period)
    (segment : ActivitySegment) : option Q * option Q * list period * list period :=
  let '(cur_inactive, cur_active, sleep, active) := st in
  match activity_level_of segment with
  | Inactive =>
      let '(cur_active', active') :=
        match cur_active with
        | Some a => (None, (a, start_time segment) :: active)
        | None => (None, active)
        end in
      let cur_inactive' :=
        match cur_inactive with
        | None => Some (start_time segment)
        | Some s => Some s
        end in
      (cur_inactive', cur_active', sleep, active')
  | _ =>
      let '(cur_inactive', sleep') :=
        match cur_inactive with
        | Some s =>
            if Qle_bool min_inactive_duration (start_time segment - s)
            then (None, (s, start_time segment) :: sleep)
            else (None, sleep)
        | None => (None, sleep)
        end in
      let cur_active' :=
        match cur_active with
        | None => Some (start_time segment)
        | Some a => Some a
        end in
      (cur_inactive', cur_active', sleep', active)
  end.

Definition _identify_sleep_wake_cycles (segments : list ActivitySegment)
    : result (list period * list period) :=
  let '(cur_inactive, cur_active, sleep, active) :=
    fold_left sleep_wake_step segments (None, None, [], []) in
  let last_end :=
    match rev segments with
    | s :: _ => Ok (end_time s)
    | [] => Err IndexError
    end in
  match cur_inactive, cur_active with
  | None, None => Ok (rev sleep, rev active)
  | _, _ =>
      match last_end with
      | Err e => Err e
      | Ok final_time =>
          let sleep' :=
            match cur_inactive with
            | Some s =>
                if Qle_bool min_inactive_duration (final_time - s)
                then (s, final_time) :: sleep else sleep
            | None => sleep
            end in
          let active' :=
            match cur_active with
            | Some a => (a, final_time) :: active
            | None => active
            end in
          Ok (rev sleep', rev active')
      end
  end.

Record MotionAnalysisResult := {
  total_duration : Q;
  total_frames : nat;
  fps_of : Q;
  activity_segments : list ActivitySegment;
  motion_timeline : list Q;
  sleep_periods : list period;
  active_periods : list period;
  overall_activity_ratio : Q
}.

(** The [while True: ret, frame = cap.read(); if not ret: break] loop:
    [reads] lists what successive [cap.read()] calls return, [None] for
    [ret = False] (end of stream or a failed decode alike).  Each decoded
    frame contributes its intensity; [prev_gray] exists from the second
    frame on. *)
Fixpoint read_loop (has_prev : bool) (reads : list (option frame_measure))
    : list Q :=
  match reads with
  | [] => []
  | None :: _ => []
  | Some m :: rest =>
      _calculate_motion_intensity m has_prev :: read_loop true rest
  end.

(** [analyze_video], for a capture that opened, whose [CAP_PROP_FPS] is
    [fps] and whose [CAP_PROP_FRAME_COUNT] is [frame_count]. *)
Definition analyze_video (fps : Q) (frame_count : nat)
    (reads : list (option frame_measure)) : result MotionAnalysisResult :=
  if Qeq_bool fps 0 then Err ZeroDivisionError else
  let duration := inject_Z (Z.of_nat frame_count) / fps in
  let timeline := read_loop false reads in
  match _generate_activity_segments timeline fps with
  | Err e => Err e
  | Ok segments =>
      match _identify_sleep_wake_cycles segments with
      | Err e => Err e
      | Ok (sleep, active) =>
          let total_active_time :=
            Qsum (map (fun p => snd p - fst p) active) in
          let activity_ratio :=
            if Qlt_le_dec 0 duration then total_active_time / duration else 0 in
          Ok {| total_duration := duration;
                total_frames := frame_count;
                fps_of := fps;
                activity_segments := segments;
                motion_timeline := timeline;
                sleep_periods := sleep;
                active_periods := active;
                overall_activity_ratio := activity_ratio |}
      end
  end.

(** The read loop of [analyze_video] when a [progress_callback] is given,
    as [_compress_video_worker] always does: after every 30th decoded
    frame it computes [(frame_count / total_frames) * 100], which raises
    [ZeroDivisionError] when [CAP_PROP_FRAME_COUNT] is 0.  The callback
    itself only records the progress of the job. *)
Fixpoint read_loop_cb (total_frames frame_count : nat) (has_prev : bool)
    (reads : list (option frame_measure)) : result (list Q) :=
  match reads with
  | [] => Ok []
  | None :: _ => Ok []
  | Some m :: rest =>
      let motion_intensity := _calculate_motion_intensity m has_prev in
      let frame_count' := S frame_count in
      if Nat.eqb (Nat.modulo frame_count' 30) 0 && Nat.eqb total_frames 0
      then Err ZeroDivisionError
      else
        match read_loop_cb total_frames frame_count' true rest with
        | Err e => Err e
        | Ok timeline => Ok (motion_intensity :: timeline)
        end
  end.

(** [analyze_video(video_path, progress_callback=...)]. *)
Definition analyze_video_cb (fps : Q) (frame_count : nat)
    (reads : list (option frame_measure)) : result MotionAnalysisResult :=
  if Qeq_bool fps 0 then Err ZeroDivisionError else
  let duration := inject_Z (Z.of_nat frame_count) / fps in
  match read_loop_cb frame_count 0 false reads with
  | Err e => Err e
  | Ok timeline =>
      match _generate_activity_segments timeline fps with
      | Err e => Err e
      | Ok segments =>
          match _identify_sleep_wake_cycles segments with
          | Err e => Err e
          | Ok (sleep, active) =>
              let total_active_time :=
                Qsum (map (fun p => snd p - fst p) active) in
              let activity_ratio :=
                if Qlt_le_dec 0 duration then total_active_time / duration else 0 in
              Ok {| total_duration := duration;
                    total_frames := frame_count;
                    fps_of := fps;
                    activity_segments := segments;
                    motion_timeline := timeline;
                    sleep_periods := sleep;
                    active_periods := active;
                    overall_activity_ratio := activity_ratio |}
          end
      end
  end.

End MotionDetector.

(* ------------------------------------------------------------------ *)
(** ** compression/compression_profiles.py *)

Module CompressionProfiles.
Import MotionDetector.

Inductive CompressionProfile := CONSERVATIVE | BALANCED | AGGRESSIVE | CUSTOM.

Definition profile_value (p : CompressionProfile) : string :=
  match p with
  | CONSERVATIVE => "conservative"
  | BALANCED => "balanced"
  | AGGRESSIVE => "aggressive"
  | CUSTOM => "custom"
  end.

Record CompressionSettings := {
  crf : Z;
  fps : Z;
  preset : string;
  profile : string;
  bitrate_factor : Q
}.

Record ActivityCompressionProfile := {
  high_activity : CompressionSettings;
  medium_activity : CompressionSettings;
  low_activity : CompressionSettings;
  inactive : CompressionSettings;
  name : string;
  description : string;
  expected_compression_ratio : Q
}.

Definition mk_settings (c f : Z) (pr pf : string) (b : Q) : CompressionSettings :=
  {| crf := c; fps := f; preset := pr; profile := pf; bitrate_factor := b |}.

(** [_create_default_profiles]: the dict, in insertion order. *)
Definition conservative_profile : ActivityCompressionProfile :=
  {| name := "Conservative (Research Priority)";
     description := "Prioritizes quality retention, minimal compression during active periods";
     expected_compression_ratio := 45 # 100;
     high_activity := mk_settings 18 30 "slow" "high" 1;
     medium_activity := mk_settings 20 25 "slow" "high" (8 # 10);
     low_activity := mk_settings 23 20 "medium" "main" (6 # 10);
     inactive := mk_settings 25 15 "medium" "main" (4 # 10) |}.

Definition balanced_profile : ActivityCompressionProfile :=
  {| name := "Balanced (Default)";
     description := "Good balance between quality and file size reduction";
     expected_compression_ratio := 35 # 100;
     high_activity := mk_settings 21 25 "medium" "high" (9 # 10);
     medium_activity := mk_settings 24 20 "medium" "main" (7 # 10);
     low_activity := mk_settings 27 15 "fast" "main" (5 # 10);
     inactive := mk_settings 28 10 "fast" "baseline" (3 # 10) |}.

Definition aggressive_profile : ActivityCompressionProfile :=
  {| name := "Aggressive (Storage Priority)";
     description := "Maximum compression, prioritizes storage savings";
     expected_compression_ratio := 20 # 100;
     high_activity := mk_settings 23 20 "fast" "main" (8 # 10);
     medium_activity := mk_settings 26 15 "fast" "main" (6 # 10);
     low_activity := mk_settings 30 10 "fast" "baseline" (4 # 10);
     inactive := mk_settings 32 5 "ultrafast" "baseline" (2 # 10) |}.

Definition _create_default_profiles
    : list (CompressionProfile * ActivityCompressionProfile) :=
  [(CONSERVATIVE, conservative_profile);
   (BALANCED, balanced_profile);
   (AGGRESSIVE, aggressive_profile)].

Record CompressionProfileManager := {
  profiles : list (CompressionProfile * ActivityCompressionProfile);
  custom_profiles : PyDict.dict ActivityCompressionProfile
}.

(** [CompressionProfileManager.__init__]. *)
Definition init_manager : CompressionProfileManager :=
  {| profiles := _create_default_profiles; custom_profiles := [] |}.

(** [get_settings_for_activity]; the level is one of the four labels
    (the [ValueError] for any other string cannot arise from the
    analyzer's labels). *)
Definition get_settings_for_activity (p : ActivityCompressionProfile)
    (activity_level : activity_level) : CompressionSettings :=
  match activity_level with
  | High => high_activity p
  | Medium => medium_activity p
  | Low => low_activity p
  | Inactive => inactive p
  end.

(** [create_custom_profile]: [self.custom_profiles[name] = profile]. *)
Definition create_custom_profile (m : CompressionProfileManager) (nm : string)
    (p : ActivityCompressionProfile) : CompressionProfileManager :=
  {| profiles := profiles m;
     custom_profiles := PyDict.set nm p (custom_profiles m) |}.

(** Python's [round(x, 1)] on the exact value: to the nearest tenth,
    ties to even. *)
Definition round1 (x : Q) : Q :=
  let y := x * 10 in
  let f := Qfloor y in
  let d := y - inject_Z f in
  let r :=
    if Qeq_bool d (1 # 2) then (if Z.even f then f else f + 1)%Z
    else if Qle_bool d (1 # 2) then f else (f + 1)%Z in
  inject_Z r / 10.

(** [_estimate_processing_time]. *)
Definition speed_factor (pt : CompressionProfile) : Q :=
  match pt with
  | CONSERVATIVE => 3 # 10
  | BALANCED => 5 # 10
  | AGGRESSIVE => 8 # 10
  | CUSTOM => 5 # 10
  end.

Definition _estimate_processing_time (duration : Q) (pt : CompressionProfile) : Q :=
  (duration / 60) / speed_factor pt.

Definition Qgt_bool (a b : Q) : bool := negb (Qle_bool a b).

(** [_get_recommendation_reason]. *)
Definition _get_recommendation_reason (pt : CompressionProfile)
    (activity_ratio file_size_mb : Q) : string :=
  let reasons :=
    (match pt with
    | CONSERVATIVE =>
        (if Qgt_bool activity_ratio (7 # 10)
         then ["High activity content - quality preservation important"] else [])
        ++ (if Qgt_bool 500 file_size_mb
            then ["Small file size allows for conservative compression"] else [])
    | BALANCED =>
        ["Good general-purpose choice"]
        ++ (if Qle_bool (3 # 10) activity_ratio && Qle_bool activity_ratio (7 # 10)
            then ["Moderate activity levels suit balanced approach"] else [])
    | AGGRESSIVE =>
        (if Qgt_bool (3 # 10) activity_ratio
         then ["Low activity content allows aggressive compression"] else [])
        ++ (if Qgt_bool file_size_mb 1000
            then ["Large file size benefits from aggressive compression"] else [])
    | CUSTOM => []
    end)%list in
  match reasons with
  | [] => "Standard recommendation"
  | _ => String.concat "; " reasons
  end.

Record Recommendation := {
  rec_profile : ActivityCompressionProfile;
  estimated_output_size_mb : Q;
  estimated_processing_time_minutes : Q;
  compression_ratio : Q;
  recommended_for : string
}.

(** [get_profile_recommendations]: one entry per built-in profile, keyed
    by the profile's value. *)
Definition get_profile_recommendations (m : CompressionProfileManager)
    (video_duration file_size_mb activity_ratio : Q)
    : PyDict.dict Recommendation :=
  fold_left
    (fun recs '(pt, p) =>
       PyDict.set (profile_value pt)
         {| rec_profile := p;
            estimated_output_size_mb :=
              round1 (file_size_mb * expected_compression_ratio p);
            estimated_processing_time_minutes :=
              round1 (_estimate_processing_time video_duration pt);
            compression_ratio := expected_compression_ratio p;
            recommended_for :=
              _get_recommendation_reason pt activity_ratio file_size_mb |}
         recs)
    (profiles m) [].

Record ROICompressionSettings := {
  roi_quality_boost : Z;
  background_quality_reduction : Z;
  roi_padding : Z;
  enable_roi_compression : bool
}.

(** [ROICompressionSettings.__init__]. *)
Definition default_roi_settings : ROICompressionSettings :=
  {| roi_quality_boost := 3; background_quality_reduction := 5;
     roi_padding := 50; enable_roi_compression := true |}.

(** [adjust_settings_for_roi]. *)
Definition adjust_settings_for_roi (roi : ROICompressionSettings)
    (base_settings : CompressionSettings) (has_roi : bool) : CompressionSettings :=
  if negb (enable_roi_compression roi) || negb has_roi then base_settings
  else {| crf := Z.max 0 (crf base_settings - roi_quality_boost roi);
          fps := fps base_settings;
          preset := preset base_settings;
          profile := profile base_settings;
          bitrate_factor := bitrate_factor base_settings * (12 # 10) |}.

Definition valid_presets : list string :=
  ["ultrafast"; "superfast"; "veryfast"; "faster"; "fast"; "medium"; "slow";
   "slower"; "veryslow"].

Definition valid_profiles : list string := ["baseline"; "main"; "high"].

Definition str_in (s : string) (l : list string) : bool :=
  existsb (String.eqb s) l.

(** [CompressionValidator.validate_settings]. *)
Definition validate_settings (s : CompressionSettings) : result bool :=
  if negb ((0 <=? crf s) && (crf s <=? 51))%Z
  then Err (ValueError "CRF must be between 0-51")
  else if negb ((1 <=? fps s) && (fps s <=? 60))%Z
  then Err (ValueError "FPS must be between 1-60")
  else if negb (str_in (preset s) valid_presets)
  then Err (ValueError "Invalid preset")
  else if negb (str_in (profile s) valid_profiles)
  then Err (ValueError "Invalid profile")
  else Ok true.

Fixpoint nondecreasing (l : list Z) : bool :=
  match l with
  | x :: ((y :: _) as r) => (x <=? y)%Z && nondecreasing r
  | _ => true
  end.

Definition profile_crfs (p : ActivityCompressionProfile) : list Z :=
  [crf (high_activity p); crf (medium_activity p); crf (low_activity p);
   crf (inactive p)].

(** [CompressionValidator.validate_profile]. *)
Definition validate_profile (p : ActivityCompressionProfile) : result bool :=
  match validate_settings (high_activity p) with Err e => Err e | Ok _ =>
  match validate_settings (medium_activity p) with Err e => Err e | Ok _ =>
  match validate_settings (low_activity p) with Err e => Err e | Ok _ =>
  match validate_settings (inactive p) with Err e => Err e | Ok _ =>
  if nondecreasing (profile_crfs p) then Ok true
  else Err (ValueError "CRF values should increase with decreasing activity")
  end end end end.

End CompressionProfiles.

(* ------------------------------------------------------------------ *)
(** ** compression/adaptive_compressor.py *)

Module AdaptiveCompressor.
Import MotionDetector CompressionProfiles.

(** Settings chosen for one segment in [_compress_adaptive_segments]. *)
Definition segment_settings (roi_settings : ROICompressionSettings)
    (job_profile : ActivityCompressionProfile) (roi_enabled : bool)
    (segment : ActivitySegment) : CompressionSettings :=
  let settings := get_settings_for_activity job_profile (activity_level_of segment) in
  if roi_enabled then
    let has_roi := Qgt_bool (motion_intensity segment) (2 # 100) in
    adjust_settings_for_roi roi_settings settings has_roi
  else settings.

Inductive job_status := Pending | Running | Completed | Failed | Cancelled.

Definition job_status_eqb (a b : job_status) : bool :=
  match a, b with
  | Pending, Pending | Running, Running | Completed, Completed
  | Failed, Failed | Cancelled, Cancelled => true
  | _, _ => false
  end.

(** Where the worker thread [_compress_video_worker] is: before
    [job.status = "running"], at the motion analysis, before segment [i]
    of [_compress_adaptive_segments], at the concatenation, in the
    fallback [_compress_single_segment], at the finalisation, or
    returned. *)
Inductive worker_pc :=
  | WStart | WAnalyze | WSegment (i : nat) | WConcat | WSingle | WFinalize | WDone.

(** The shared [CompressionJob] record (the fields the worker and
    [cancel_job] touch), the existence of the file at [job.output_path],
    and the worker's position. *)
Record CompressionJob := {
  status : job_status;
  progress : Q;
  current_segment : nat;
  total_segments : nat;
  output_exists : bool;
  pc : worker_pc
}.

Definition initial_job : CompressionJob :=
  {| status := Pending; progress := 0; current_segment := 0;
     total_segments := 0; output_exists := false; pc := WStart |}.

Definition set_status (j : CompressionJob) (s : job_status) : CompressionJob :=
  {| status := s; progress := progress j; current_segment := current_segment j;
     total_segments := total_segments j; output_exists := output_exists j;
     pc := pc j |}.

Definition set_progress (j : CompressionJob) (p : Q) : CompressionJob :=
  {| status := status j; progress := p; current_segment := current_segment j;
     total_segments := total_segments j; output_exists := output_exists j;
     pc := pc j |}.

Definition set_output (j : CompressionJob) (b : bool) : CompressionJob :=
  {| status := status j; progress := progress j;
     current_segment := current_segment j; total_segments := total_segments j;
     output_exists := b; pc := pc j |}.

Definition set_pc (j : CompressionJob) (w : worker_pc) : CompressionJob :=
  {| status := status j; progress := progress j;
     current_segment := current_segment j; total_segments := total_segments j;
     output_exists := output_exists j; pc := w |}.

Definition set_segments (j : CompressionJob) (cur tot : nat) : CompressionJob :=
  {| status := status j; progress := progress j; current_segment := cur;
     total_segments := tot; output_exists := output_exists j; pc := pc j |}.

(** The [except Exception] branch of the worker: status [failed], partial
    output removed. *)
Definition fail_job (j : CompressionJob) : CompressionJob :=
  set_pc (set_output (set_status j Failed) false) WDone.

Definition Q_of_nat (n : nat) : Q := inject_Z (Z.of_nat n).

(** One atomic step of the worker thread; [analysis] is what
    [self.motion_detector.analyze_video] returns for the job's input, and
    every encoder call is taken to succeed.  No step reads [job.status]. *)
Definition worker_step (analysis : result MotionAnalysisResult)
    (j : CompressionJob) : CompressionJob :=
  match pc j with
  | WStart => set_pc (set_progress (set_status j Running) 0) WAnalyze
  | WAnalyze =>
      match analysis with
      | Err _ => fail_job j
      | Ok r =>
          let n := List.length (activity_segments r) in
          let j' := set_progress (set_segments j (current_segment j) n) 20 in
          if Nat.eqb n 0 then set_pc j' WSingle else set_pc j' (WSegment 0)
      end
  | WSegment i =>
      let n := total_segments j in
      if Nat.ltb i n then
        set_pc (set_progress (set_segments j (S i) n)
                  (20 + Q_of_nat i / Q_of_nat n * 70)) (WSegment (S i))
      else set_pc (set_progress j 90) WConcat
  | WConcat => set_pc (set_output j true) WFinalize
  | WSingle => set_pc (set_output j true) WFinalize
  | WFinalize =>
      (* job.status = "completed"; then os.path.getsize(job.output_path)
         raises when the file is missing *)
      let j' := set_status j Completed in
      if output_exists j' then set_pc (set_progress j' 100) WDone
      else fail_job j'
  | WDone => j
  end.

(** [cancel_job] on the job. *)
Definition cancel_job (j : CompressionJob) : bool * CompressionJob :=
  if job_status_eqb (status j) Running then
    (true, set_output (set_status j Cancelled) false)
  else (false, j).

(** An interleaving of the worker thread with calls of [cancel_job]. *)
Inductive sched_event := WorkerStep | CancelCall.

Definition run_event (analysis : result MotionAnalysisResult)
    (j : CompressionJob) (e : sched_event) : CompressionJob :=
  match e with
  | WorkerStep => worker_step analysis j
  | CancelCall => snd (cancel_job j)
  end.

Definition run (analysis : result MotionAnalysisResult) (sched : list sched_event)
    (j : CompressionJob) : CompressionJob :=
  fold_left (run_event analysis) sched j.

End AdaptiveCompressor.

(* ------------------------------------------------------------------ *)
(** ** utils/progress_tracker.py *)

Module ProgressTracker.

Inductive ProgressEventType :=
  STARTED | PROGRESS | STAGE_CHANGED | ERROR | COMPLETED | CANCELLED.

Definition is_terminal (t : ProgressEventType) : bool :=
  match t with COMPLETED | CANCELLED | ERROR => true | _ => false end.

Record ProgressEvent := {
  job_id : string;
  event_type : ProgressEventType;
  timestamp : Q;
  percentage : Q;
  stage : string;
  message : string
}.

Record ProgressSnapshot := {
  snap_percentage : Q;
  snap_stage : string;
  snap_message : string;
  snap_timestamp : Q;
  estimated_completion : option Q
}.

Record ProgressHistory := {
  snapshots : list ProgressSnapshot;
  events : list ProgressEvent;
  start_time : option Q;
  end_time : option Q
}.

Definition max_snapshots : nat := 100.

(** [deque.append] on a deque with [maxlen]: the oldest entry is dropped
    when the deque overflows. *)
Definition deque_append {A} (maxlen : nat) (d : list A) (x : A) : list A :=
  let d' := (d ++ [x])%list in
  if Nat.ltb maxlen (List.length d') then tl d' else d'.

Definition empty_history : ProgressHistory :=
  {| snapshots := []; events := []; start_time := None; end_time := None |}.

Definition add_snapshot (h : ProgressHistory) (s : ProgressSnapshot) : ProgressHistory :=
  {| snapshots := deque_append max_snapshots (snapshots h) s;
     events := events h;
     start_time := match start_time h with
                   | None => Some (snap_timestamp s)
                   | Some t => Some t
                   end;
     end_time := end_time h |}.

Definition add_event (h : ProgressHistory) (e : ProgressEvent) : ProgressHistory :=
  {| snapshots := snapshots h;
     events := deque_append max_snapshots (events h) e;
     start_time := start_time h;
     end_time := if is_terminal (event_type e) then Some (timestamp e)
                 else end_time h |}.

(** [get_average_speed]. *)
Definition get_average_speed (h : ProgressHistory) : option Q :=
  match snapshots h with
  | [] | [_] => None
  | first :: _ =>
      let last := List.last (snapshots h) first in
      let time_diff := snap_timestamp last - snap_timestamp first in
      let progress_diff := snap_percentage last - snap_percentage first in
      if Qle_bool time_diff 0 then None else Some (progress_diff / time_diff)
  end.

(** [estimate_completion]; [now] is [datetime.now()].  A speed of [0.0]
    is falsy in [if speed and ...]. *)
Definition estimate_completion (h : ProgressHistory) (now current_percentage : Q)
    : option Q :=
  match get_average_speed h with
  | Some speed =>
      if negb (Qeq_bool speed 0) && negb (Qle_bool speed 0)
         && negb (Qle_bool 100 current_percentage)
      then Some (now + (100 - current_percentage) / speed)
      else None
  | None => None
  end.

Record active_info := {
  info_start_time : Q;
  current_stage : string;
  current_percentage : Q
}.

(** The tracker: per-job histories, subscriber callbacks (named by
    numbers), active jobs, the event queue, and the log of callback
    invocations [(callback, event)] in the order they happen. *)
Record ProgressTracker := {
  job_progress : PyDict.dict ProgressHistory;
  subscribers : PyDict.dict (list nat);
  global_subscribers : list nat;
  active_jobs : PyDict.dict active_info;
  event_queue : list ProgressEvent;
  delivered : list (nat * ProgressEvent)
}.

Definition with_queue (t : ProgressTracker) (q : list ProgressEvent) : ProgressTracker :=
  {| job_progress := job_progress t; subscribers := subscribers t;
     global_subscribers := global_subscribers t; active_jobs := active_jobs t;
     event_queue := q; delivered := delivered t |}.

(** [self._event_queue.put(event)]. *)
Definition put (t : ProgressTracker) (e : ProgressEvent) : ProgressTracker :=
  with_queue t (event_queue t ++ [e])%list.

(** The callbacks [_notify_subscribers] calls, in order. *)
Definition notify_targets (t : ProgressTracker) (e : ProgressEvent) : list nat :=
  (match PyDict.get (job_id e) (subscribers t) with
   | Some l => l
   | None => []
   end ++ global_subscribers t)%list.

(** [_process_event]; [now] is [datetime.now()] inside
    [estimate_completion]. *)
Definition _process_event (now : Q) (t : ProgressTracker) (e : ProgressEvent)
    : ProgressTracker :=
  let h0 := match PyDict.get (job_id e) (job_progress t) with
            | Some h => h
            | None => empty_history
            end in
  let h1 := add_event h0 e in
  let h2 :=
    match event_type e with
    | PROGRESS =>
        add_snapshot h1
          {| snap_percentage := percentage e; snap_stage := stage e;
             snap_message := message e; snap_timestamp := timestamp e;
             estimated_completion := estimate_completion h1 now (percentage e) |}
    | _ => h1
    end in
  let active :=
    match event_type e with
    | STARTED =>
        PyDict.set (job_id e)
          {| info_start_time := timestamp e; current_stage := stage e;
             current_percentage := percentage e |} (active_jobs t)
    | COMPLETED | CANCELLED | ERROR => PyDict.del (job_id e) (active_jobs t)
    | _ => active_jobs t
    end in
  {| job_progress := PyDict.set (job_id e) h2 (job_progress t);
     subscribers := subscribers t;
     global_subscribers := global_subscribers t;
     active_jobs := active;
     event_queue := event_queue t;
     delivered := (delivered t ++ map (fun cb => (cb, e)) (notify_targets t e))%list |}.

(** One iteration of [_event_worker]: take the head of the queue and
    process it. *)
Definition worker_iteration (now : Q) (t : ProgressTracker) : ProgressTracker :=
  match event_queue t with
  | [] => t
  | e :: rest => _process_event now (with_queue t rest) e
  end.

Fixpoint worker_run (now : Q) (n : nat) (t : ProgressTracker) : ProgressTracker :=
  match n with
  | O => t
  | S n' => worker_run now n' (worker_iteration now t)
  end.

(** Python's [min(a, b)] and [max(a, b)]. *)
Definition py_min (a b : Q) : Q := if Qle_bool a b then a else b.
Definition py_max (a b : Q) : Q := if Qle_bool b a then a else b.

(** [get_current_percentage]. *)
Definition get_current_percentage (t : ProgressTracker) (jid : string) : Q :=
  match PyDict.get jid (active_jobs t) with
  | Some info => current_percentage info
  | None =>
      match PyDict.get jid (job_progress t) with
      | Some h =>
          match rev (snapshots h) with
          | s :: _ => snap_percentage s
          | [] => 0
          end
      | None => 0
      end
  end.

Definition update_active (t : ProgressTracker) (a : PyDict.dict active_info)
    : ProgressTracker :=
  {| job_progress := job_progress t; subscribers := subscribers t;
     global_subscribers := global_subscribers t; active_jobs := a;
     event_queue := event_queue t; delivered := delivered t |}.

(** [x or default] for an [Optional[str]] argument: [None] and the empty
    string are falsy. *)
Definition py_or (x : option string) (default : string) : string :=
  match x with
  | Some v => if String.eqb v "" then default else v
  | None => default
  end.

(** [update_progress]; [stage = None] and [message = None] of the Python
    signature are the [None] arguments (the default message's formatted
    percentage is not modelled). *)
Definition update_progress (t : ProgressTracker) (now : Q) (jid : string)
    (pct : Q) (stage_arg message_arg : option string) : ProgressTracker :=
  let current_stage_of :=
    match PyDict.get jid (active_jobs t) with
    | Some info => current_stage info
    | None => "unknown"
    end in
  let e := {| job_id := jid; event_type := PROGRESS; timestamp := now;
              percentage := py_max 0 (py_min 100 pct);
              stage := py_or stage_arg current_stage_of;
              message := py_or message_arg "Progress" |} in
  let t' := put t e in
  match PyDict.get jid (active_jobs t') with
  | Some info =>
      update_active t'
        (PyDict.set jid {| info_start_time := info_start_time info;
                           current_stage := stage e;
                           current_percentage := percentage e |} (active_jobs t'))
  | None => t'
  end.

(** [register_job], [change_stage], [complete_job], [fail_job],
    [cancel_job]: each puts one event on the queue. *)
Definition register_job (t : ProgressTracker) (now : Q) (jid initial_stage : string)
    : ProgressTracker :=
  put t {| job_id := jid; event_type := STARTED; timestamp := now;
           percentage := 0; stage := initial_stage; message := "Job started" |}.

Definition change_stage (t : ProgressTracker) (now : Q) (jid new_stage : string)
    : ProgressTracker :=
  put t {| job_id := jid; event_type := STAGE_CHANGED; timestamp := now;
           percentage := get_current_percentage t jid; stage := new_stage;
           message := "Stage changed" |}.

Definition complete_job (t : ProgressTracker) (now : Q) (jid msg : string)
    : ProgressTracker :=
  put t {| job_id := jid; event_type := COMPLETED; timestamp := now;
           percentage := 100; stage := "completed"; message := msg |}.

Definition fail_job (t : ProgressTracker) (now : Q) (jid msg : string)
    : ProgressTracker :=
  put t {| job_id := jid; event_type := ERROR; timestamp := now;
           percentage := get_current_percentage t jid; stage := "error";
           message := msg |}.

Definition cancel_job (t : ProgressTracker) (now : Q) (jid msg : string)
    : ProgressTracker :=
  put t {| job_id := jid; event_type := CANCELLED; timestamp := now;
           percentage := get_current_percentage t jid; stage := "cancelled";
           message := msg |}.

Definition empty_tracker : ProgressTracker :=
  {| job_progress := []; subscribers := []; global_subscribers := [];
     active_jobs := []; event_queue := []; delivered := [] |}.

End ProgressTracker.

(* ------------------------------------------------------------------ *)
(** ** Auxiliary notions used to state the properties *)

Module MotionSpec.
Import MotionDetector.

(** Frame-index chain: the segments start at [a], each is non-empty,
    each starts where the previous one ends, the last ends at [b], and
    the times are the frame bounds divided by [fps]. *)
Fixpoint chain (fps : Q) (a : nat) (segs : list ActivitySegment) (b : nat) : Prop :=
  match segs with
  | [] => a = b
  | s :: r =>
      frame_start s = a /\ (a < frame_end s)%nat
      /\ start_time s = inject_Z (Z.of_nat a) / fps
      /\ end_time s = inject_Z (Z.of_nat (frame_end s)) / fps
      /\ chain fps (frame_end s) r b
  end.

Definition covers (k : nat) (s : ActivitySegment) : bool :=
  Nat.leb (frame_start s) k && Nat.ltb k (frame_end s).

(** How many segments contain frame index [k]. *)
Definition covering_count (k : nat) (segs : list ActivitySegment) : nat :=
  List.length (filter (covers k) segs).

Definition seg_durations_sum (segs : list ActivitySegment) : Q :=
  Qsum (map (fun s => end_time s - start_time s) segs).

(** Activity bands: the intensities [_classify_activity] maps to each
    label. *)
Definition in_band (l : activity_level) (x : Q) : Prop :=
  match l with
  | High => threshold_high <= x
  | Medium => threshold_medium <= x /\ x < threshold_high
  | Low => threshold_low <= x /\ x < threshold_medium
  | Inactive => x < threshold_low
  end.

Definition Qlen (l : list Q) : Q := inject_Z (Z.of_nat (List.length l)).

Definition unit_interval (x : Q) : Prop := 0 <= x /\ x <= 1.

Definition segment_ok (s : ActivitySegment) : Prop :=
  unit_interval (motion_intensity s)
  /\ activity_level_of s = _classify_activity (motion_intensity s).

Definition flow_nonneg (o : option frame_measure) : Prop :=
  match o with Some m => 0 <= flow_mean_magnitude m | None => True end.

(** Number of frames [analyze_video]'s read loop decodes: the reads
    before the first failed [cap.read()]. *)
Fixpoint decoded_count (reads : list (option frame_measure)) : nat :=
  match reads with
  | Some _ :: r => S (decoded_count r)
  | _ => O
  end.

(** Consecutive segments share their frame bound. *)
Fixpoint contiguous (segs : list ActivitySegment) : Prop :=
  match segs with
  | s :: ((s' :: _) as r) => frame_start s' = frame_end s /\ contiguous r
  | _ => True
  end.

(** The segment invariant as the specification words it, relative to the
    reported frame count and duration. *)
Definition stated_partition (r : MotionAnalysisResult) : Prop :=
  contiguous (activity_segments r)
  /\ (forall k, (k < total_frames r)%nat ->
                covering_count k (activity_segments r) = 1%nat)
  /\ Forall (fun s => (frame_start s < frame_end s)%nat) (activity_segments r)
  /\ Qabs (seg_durations_sum (activity_segments r) - total_duration r)
       <= 1 / fps_of r.

End MotionSpec.

Module ProfileSpec.
Import CompressionProfiles.

(** A sequence of [create_custom_profile] calls. *)
Definition add_all (adds : list (string * ActivityCompressionProfile))
    (m : CompressionProfileManager) : CompressionProfileManager :=
  fold_left (fun m '(nm, p) => create_custom_profile m nm p) adds m.

(** A custom profile whose CRF drops from 30 (high activity) to 18
    (inactive). *)
Definition inverted_profile : ActivityCompressionProfile :=
  {| name := "inverted"; description := "quality rises as activity drops";
     expected_compression_ratio := 1 # 2;
     high_activity := mk_settings 30 30 "fast" "main" 1;
     medium_activity := mk_settings 26 25 "fast" "main" 1;
     low_activity := mk_settings 22 20 "fast" "main" 1;
     inactive := mk_settings 18 15 "fast" "main" 1 |}.

End ProfileSpec.

Module CompressorSpec.
Import MotionDetector AdaptiveCompressor.

(** Once the worker has returned, the job is [completed] with its output
    file present, or [failed] with no output file. *)
Definition finished_ok (j : CompressionJob) : Prop :=
  pc j = WDone ->
  (status j = Completed /\ output_exists j = true)
  \/ (status j = Failed /\ output_exists j = false).

(** A one-segment analysis of a two-frame input. *)
Definition two_frame_analysis : result MotionAnalysisResult :=
  analyze_video 30 2
    [Some {| fg_nonzero := 20; total_area := 100; flow_mean_magnitude := 0;
             diff_nonzero := 0 |};
     Some {| fg_nonzero := 20; total_area := 100; flow_mean_magnitude := 0;
             diff_nonzero := 0 |}].

End CompressorSpec.

Module TrackerSpec.
Import ProgressTracker.

(** The callback invocations [_notify_subscribers] makes for the events
    [q], in queue order, with the subscriber lists of [t]. *)
Definition fifo_deliveries (t : ProgressTracker) (q : list ProgressEvent)
    : list (nat * ProgressEvent) :=
  flat_map (fun e => map (fun cb => (cb, e)) (notify_targets t e)) q.

(** Three progress updates of job ["job"] at seconds 0, 1 and 2 with
    percentages 0, 50 and 0, then the event worker drains the queue. *)
Definition speed_scenario : ProgressTracker :=
  let t1 := update_progress empty_tracker 0 "job" 0 None None in
  let t2 := update_progress t1 1 "job" 50 None None in
  let t3 := update_progress t2 2 "job" 0 None None in
  worker_run 2 3 t3.

(** [complete_job] followed by a late [update_progress] of the same job,
    then the event worker drains the queue; one job subscriber [7]. *)
Definition late_progress_scenario : ProgressTracker :=
  let t0 := {| job_progress := []; subscribers := [("job", [7%nat])];
               global_subscribers := []; active_jobs := [];
               event_queue := []; delivered := [] |} in
  let t1 := complete_job t0 1 "job" "Job completed successfully" in
  let t2 := update_progress t1 2 "job" 50 None None in
  worker_run 3 2 t2.

(** A snapshot of progress [p] taken at second [ts], with no ETA. *)
Definition snap_at (p ts : Q) : ProgressSnapshot :=
  {| snap_percentage := p; snap_stage := "encoding"; snap_message := "Progress";
     snap_timestamp := ts; estimated_completion := None |}.

(** A history with snapshots at 10% (second 0) and 60% (second 5). *)
Definition two_snapshot_history : ProgressHistory :=
  {| snapshots := [snap_at 10 0; snap_at 60 5]; events := [];
     start_time := Some 0; end_time := None |}.

End TrackerSpec.


(* ------------------------------------------------------------------ *)
(** ** compression_profiles.py: profile lookup and listing *)

Module ProfileManagerOps.
Import CompressionProfiles.

Definition profile_eqb (a b : CompressionProfile) : bool :=
  match a, b with
  | CONSERVATIVE, CONSERVATIVE | BALANCED, BALANCED | AGGRESSIVE, AGGRESSIVE
  | CUSTOM, CUSTOM => true
  | _, _ => false
  end.

(** [profile_type in self.profiles] / [self.profiles[profile_type]]. *)
Fixpoint profiles_get (pt : CompressionProfile)
    (l : list (CompressionProfile * ActivityCompressionProfile))
    : option ActivityCompressionProfile :=
  match l with
  | [] => None
  | (k, v) :: r => if profile_eqb pt k then Some v else profiles_get pt r
  end.

(** [str(profile_type)] of an [Enum] member. *)
Definition profile_str (p : CompressionProfile) : string :=
  match p with
  | CONSERVATIVE => "CompressionProfile.CONSERVATIVE"
  | BALANCED => "CompressionProfile.BALANCED"
  | AGGRESSIVE => "CompressionProfile.AGGRESSIVE"
  | CUSTOM => "CompressionProfile.CUSTOM"
  end.

(** [get_profile]; [custom_name] is [None] or the name passed ([None] and
    the empty string are falsy). *)
Definition get_profile (m : CompressionProfileManager)
    (profile_type : CompressionProfile) (custom_name : option string)
    : result ActivityCompressionProfile :=
  let builtin :=
    match profiles_get profile_type (profiles m) with
    | Some p => Ok p
    | None =>
        Err (ValueError ("Profile type '" ++ profile_str profile_type ++ "' not supported"))
    end in
  match custom_name with
  | Some nm =>
      if profile_eqb profile_type CUSTOM && negb (String.eqb nm "") then
        match PyDict.get nm (custom_profiles m) with
        | Some p => Ok p
        | None => Err (ValueError ("Custom profile '" ++ nm ++ "' not found"))
        end
      else builtin
  | None => builtin
  end.

(** [list_all_profiles]: the built-ins under their values, then the
    custom profiles under ["custom_" + name]. *)
Definition list_all_profiles (m : CompressionProfileManager)
    : PyDict.dict ActivityCompressionProfile :=
  let all_profiles :=
    fold_left (fun acc '(pt, p) => PyDict.set (profile_value pt) p acc)
      (profiles m) [] in
  fold_left (fun acc '(nm, p) => PyDict.set ("custom_" ++ nm) p acc)
    (custom_profiles m) all_profiles.

End ProfileManagerOps.

(* ------------------------------------------------------------------ *)
(** ** compression/video_analyzer.py *)

Module VideoAnalyzer.
Import MotionDetector CompressionProfiles.

(** The label strings of [ActivitySegment.activity_level]. *)
Definition level_name (l : activity_level) : string :=
  match l with
  | High => "high"
  | Medium => "medium"
  | Low => "low"
  | Inactive => "inactive"
  end.

(** [d[k] += x] on a dict that holds [k] (the labels are always keys of
    the distribution, so the [KeyError] branch is not reached). *)
Definition dict_add (k : string) (x : Q) (d : PyDict.dict Q) : PyDict.dict Q :=
  match PyDict.get k d with
  | Some v => PyDict.set k (v + x) d
  | None => d
  end.

Definition initial_distribution : PyDict.dict Q :=
  [("high", 0); ("medium", 0); ("low", 0); ("inactive", 0)].

(** One iteration of the loop of [_calculate_activity_distribution] on
    [(distribution, total_time)]. *)
Definition distribution_step (acc : PyDict.dict Q * Q) (segment : ActivitySegment)
    : PyDict.dict Q * Q :=
  let '(distribution, total_time) := acc in
  let duration := end_time segment - start_time segment in
  (dict_add (level_name (activity_level_of segment)) duration distribution,
   total_time + duration).

(** [_calculate_activity_distribution]. *)
Definition _calculate_activity_distribution (segments : list ActivitySegment)
    : PyDict.dict Q :=
  let '(distribution, total_time) :=
    fold_left distribution_step segments (initial_distribution, 0) in
  if Qlt_le_dec 0 total_time
  then map (fun '(level, v) => (level, v / total_time * 100)) distribution
  else distribution.

(** [segment.activity_level in ['high', 'medium', 'low']]. *)
Definition is_active_level (l : activity_level) : bool :=
  match l with Inactive => false | _ => true end.

(** One iteration of the loop of [_analyze_activity_bouts].  The state is
    [(current_bout_start, current_bout_type)] ([true] for 'active'), both
    [None] at first, and the active and inactive bout lists, reversed. *)
Definition bout_step (st : option (Q * bool) * list Q * list Q)
    (segment : ActivitySegment) : option (Q * bool) * list Q * list Q :=
  let '(cur, active_bouts, inactive_bouts) := st in
  let is_active := is_active_level (activity_level_of segment) in
  match cur with
  | None => (Some (start_time segment, is_active), active_bouts, inactive_bouts)
  | Some (s, ty) =>
      if Bool.eqb is_active ty then st
      else
        let bout_duration := start_time segment - s in
        if ty then (Some (start_time segment, is_active),
                    bout_duration :: active_bouts, inactive_bouts)
        else (Some (start_time segment, is_active),
              active_bouts, bout_duration :: inactive_bouts)
  end.

(** The bout lists [active_bouts] and [inactive_bouts] that
    [_analyze_activity_bouts] builds (its [total_bouts] is the sum of their
    lengths; the per-list statistics of [analyze_bout_list] are not
    modelled). *)
Definition activity_bouts (segments : list ActivitySegment) : list Q * list Q :=
  let '(cur, active_bouts, inactive_bouts) :=
    fold_left bout_step segments (None, [], []) in
  match cur, rev segments with
  | Some (s, ty), last :: _ =>
      let final_duration := end_time last - s in
      if ty then (rev (final_duration :: active_bouts), rev inactive_bouts)
      else (rev active_bouts, rev (final_duration :: inactive_bouts))
  | _, _ => (rev active_bouts, rev inactive_bouts)
  end.

Definition total_bouts (segments : list ActivitySegment) : nat :=
  let '(a, i) := activity_bouts segments in (List.length a + List.length i)%nat.

(** [_calculate_recommendation_confidence]; [min(1.0, confidence)]. *)
Definition _calculate_recommendation_confidence
    (activity_ratio file_size_mb duration_hours : Q) : Q :=
  let c1 :=
    if Qgt_bool activity_ratio (8 # 10) || Qgt_bool (2 # 10) activity_ratio
    then (1 # 2) + (3 # 10)
    else if Qgt_bool activity_ratio (6 # 10) || Qgt_bool (4 # 10) activity_ratio
    then (1 # 2) + (1 # 10)
    else (1 # 2) in
  let c2 :=
    if Qgt_bool duration_hours 12 then c1 + (2 # 10)
    else if Qgt_bool duration_hours 6 then c1 + (1 # 10)
    else c1 in
  ProgressTracker.py_min 1 c2.

(** The ['profile'] entry of [_generate_compression_recommendations]:
    recommended profile, reason and confidence, from the activity ratio,
    [video_info['size_mb']] and [video_info['duration']] (seconds). *)
Definition profile_recommendation (activity_ratio file_size_mb duration : Q)
    : string * string * Q :=
  let duration_hours := duration / 3600 in
  let '(recommended_profile, reason) :=
    if Qgt_bool activity_ratio (7 # 10)
    then ("conservative", "High activity content requires quality preservation")
    else if Qgt_bool (3 # 10) activity_ratio
    then ("aggressive", "Low activity content allows for aggressive compression")
    else ("balanced", "Moderate activity levels suit balanced compression") in
  let '(recommended_profile', reason') :=
    if Qgt_bool file_size_mb 1000 then
      if String.eqb recommended_profile "conservative"
      then ("balanced", reason ++ "; large file size benefits from more compression")
      else (recommended_profile, reason)
    else if Qgt_bool 100 file_size_mb then
      if String.eqb recommended_profile "aggressive"
      then ("balanced",
            reason ++ "; small file size allows for less aggressive compression")
      else (recommended_profile, reason)
    else (recommended_profile, reason) in
  (recommended_profile', reason',
   _calculate_recommendation_confidence activity_ratio file_size_mb duration_hours).

End VideoAnalyzer.

(* ------------------------------------------------------------------ *)
(** ** adaptive_compressor.py: size estimate and segment progress *)

Module CompressorOps.
Import MotionDetector CompressionProfiles AdaptiveCompressor.

(** Python's [int(x)]: truncation towards zero. *)
Definition py_int (x : Q) : Z :=
  if Qle_bool 0 x then Qfloor x else (- Qfloor (- x))%Z.

Record OutputSizeEstimate := {
  estimated_size_mb : Q;
  estimated_size_bytes : Z;
  est_compression_ratio : Q;
  space_saved_mb : Q;
  space_saved_percent : Q
}.

(** [estimate_output_size]; [size_mb] is [video_info['size_mb']]. *)
Definition estimate_output_size (size_mb : Q) (profile : ActivityCompressionProfile)
    (motion_analysis : option MotionAnalysisResult) : OutputSizeEstimate :=
  let base_compression_ratio := expected_compression_ratio profile in
  let adjusted_ratio :=
    match motion_analysis with
    | Some r =>
        let activity_adjustment := 1 + overall_activity_ratio r * (3 # 10) in
        base_compression_ratio * activity_adjustment
    | None => base_compression_ratio
    end in
  let estimated_size_mb := size_mb * adjusted_ratio in
  let estimated_size_bytes := estimated_size_mb * 1024 * 1024 in
  {| estimated_size_mb := round1 estimated_size_mb;
     estimated_size_bytes := py_int estimated_size_bytes;
     est_compression_ratio := adjusted_ratio;
     space_saved_mb := round1 (size_mb - estimated_size_mb);
     space_saved_percent := round1 ((1 - adjusted_ratio) * 100) |}.

(** The values [_run_ffmpeg_with_progress] hands to its callback for a
    segment of length [duration], [times] being the [current_time] values
    parsed from successive "time=" lines of FFmpeg's output (lines without
    a parsable time add nothing). *)
Definition ffmpeg_progress_values (duration : Q) (times : list Q) : list Q :=
  if Qeq_bool duration 0 then []
  else
    flat_map
      (fun current_time =>
         if negb (Qeq_bool current_time 0) && Qgt_bool duration 0
         then [ProgressTracker.py_min 100 (current_time / duration * 100)]
         else [])
      times.

(** The [_update_progress] values of segment [i] of [n] in
    [_compress_adaptive_segments]: the segment's start value, then one
    value per FFmpeg progress report. *)
Definition segment_progress_updates (n i : nat) (segment : ActivitySegment)
    (times : list Q) : list Q :=
  let segment_progress_start := 20 + Q_of_nat i / Q_of_nat n * 70 in
  let segment_progress_end := 20 + Q_of_nat (S i) / Q_of_nat n * 70 in
  segment_progress_start
  :: map (fun p => segment_progress_start
                   + p * (segment_progress_end - segment_progress_start) / 100)
         (ffmpeg_progress_values (end_time segment - start_time segment) times).

Fixpoint adaptive_updates_from (n i : nat) (runs : list (ActivitySegment * list Q))
    : list Q :=
  match runs with
  | [] => []
  | (segment, times) :: r =>
      (segment_progress_updates n i segment times ++ adaptive_updates_from n (S i) r)%list
  end.

(** Every value [_compress_adaptive_segments] passes to [_update_progress],
    in order, for the segments paired with their FFmpeg time reports. *)
Definition adaptive_progress_updates (runs : list (ActivitySegment * list Q)) : list Q :=
  (adaptive_updates_from (List.length runs) 0 runs ++ [90])%list.

End CompressorOps.

(* ------------------------------------------------------------------ *)
(** ** progress_tracker.py: subscriptions, cleanup, durations, reporter *)

Module TrackerOps.
Import MotionDetector CompressionProfiles ProgressTracker.

Definition with_subscribers (t : ProgressTracker) (subs : PyDict.dict (list nat))
    (glob : list nat) : ProgressTracker :=
  {| job_progress := job_progress t; subscribers := subs;
     global_subscribers := glob; active_jobs := active_jobs t;
     event_queue := event_queue t; delivered := delivered t |}.

(** [list.remove(x)] on a list that holds [x]: the first occurrence goes. *)
Fixpoint list_remove (x : nat) (l : list nat) : list nat :=
  match l with
  | [] => []
  | y :: r => if Nat.eqb x y then r else y :: list_remove x r
  end.

(** [subscribe_to_job]: [self.subscribers] is a [defaultdict(list)]. *)
Definition subscribe_to_job (t : ProgressTracker) (jid : string) (cb : nat)
    : ProgressTracker :=
  let l := match PyDict.get jid (subscribers t) with Some l => l | None => [] end in
  with_subscribers t (PyDict.set jid (l ++ [cb])%list (subscribers t))
    (global_subscribers t).

Definition subscribe_to_all (t : ProgressTracker) (cb : nat) : ProgressTracker :=
  with_subscribers t (subscribers t) (global_subscribers t ++ [cb])%list.

(** [unsubscribe_from_job]. *)
Definition unsubscribe_from_job (t : ProgressTracker) (jid : string) (cb : nat)
    : ProgressTracker :=
  match PyDict.get jid (subscribers t) with
  | Some l =>
      if existsb (Nat.eqb cb) l
      then with_subscribers t (PyDict.set jid (list_remove cb l) (subscribers t))
             (global_subscribers t)
      else t
  | None => t
  end.

Definition unsubscribe_from_all (t : ProgressTracker) (cb : nat) : ProgressTracker :=
  if existsb (Nat.eqb cb) (global_subscribers t)
  then with_subscribers t (subscribers t) (list_remove cb (global_subscribers t))
  else t.

(** [ProgressHistory.get_duration]; [now] is [datetime.now()]. *)
Definition get_duration (h : ProgressHistory) (now : Q) : option Q :=
  match start_time h with
  | Some s =>
      let e := match end_time h with Some e => e | None => now end in
      Some (e - s)
  | None => None
  end.

Definition in_dict {V} (k : string) (d : PyDict.dict V) : bool :=
  match PyDict.get k d with Some _ => true | None => false end.

(** The jobs [cleanup_old_jobs] selects: finished before the cut-off and
    no longer active. *)
Definition cleanup_selected (t : ProgressTracker) (cutoff_time : Q)
    (entry : string * ProgressHistory) : bool :=
  let '(jid, history) := entry in
  match end_time history with
  | Some e => Qgt_bool cutoff_time e && negb (in_dict jid (active_jobs t))
  | None => false
  end.

Definition remove_job (t : ProgressTracker) (jid : string) : ProgressTracker :=
  {| job_progress := PyDict.del jid (job_progress t);
     subscribers := if in_dict jid (subscribers t)
                    then PyDict.del jid (subscribers t) else subscribers t;
     global_subscribers := global_subscribers t; active_jobs := active_jobs t;
     event_queue := event_queue t; delivered := delivered t |}.

(** [cleanup_old_jobs]; [now] is [datetime.now()]. *)
Definition cleanup_old_jobs (t : ProgressTracker) (now : Q) (max_age_hours : Z)
    : ProgressTracker :=
  let cutoff_time := now - inject_Z max_age_hours * 3600 in
  let jobs_to_remove :=
    map fst (filter (cleanup_selected t cutoff_time) (job_progress t)) in
  fold_left remove_job jobs_to_remove t.

(** [ProgressReporter]. *)
Record ProgressReporter := {
  rep_tracker : ProgressTracker;
  rep_job_id : string;
  rep_current_stage : string;
  stage_weights : PyDict.dict Q;
  stage_progress : PyDict.dict Q
}.

Definition new_reporter (t : ProgressTracker) (jid : string) : ProgressReporter :=
  {| rep_tracker := t; rep_job_id := jid; rep_current_stage := "initializing";
     stage_weights := []; stage_progress := [] |}.

(** [set_stage_weights]: the comprehension divides by the total once per
    stage, so an empty dict gives no division. *)
Definition set_stage_weights (r : ProgressReporter) (weights : PyDict.dict Q)
    : result ProgressReporter :=
  let total_weight := Qsum (map snd weights) in
  let normalised :=
    match weights with
    | [] => Ok []
    | _ =>
        if Qeq_bool total_weight 0 then Err ZeroDivisionError
        else Ok (map (fun '(stage, weight) => (stage, weight / total_weight * 100))
                   weights)
    end in
  match normalised with
  | Ok w =>
      Ok {| rep_tracker := rep_tracker r; rep_job_id := rep_job_id r;
            rep_current_stage := rep_current_stage r; stage_weights := w;
            stage_progress := stage_progress r |}
  | Err e => Err e
  end.

(** [start_stage]; the tracker's stage-change event is the one
    [change_stage] builds. *)
Definition start_stage (r : ProgressReporter) (now : Q) (stage_name : string)
    : ProgressReporter :=
  {| rep_tracker := change_stage (rep_tracker r) now (rep_job_id r) stage_name;
     rep_job_id := rep_job_id r; rep_current_stage := stage_name;
     stage_weights := stage_weights r;
     stage_progress := PyDict.set stage_name 0 (stage_progress r) |}.

(** [_calculate_overall_progress]. *)
Definition _calculate_overall_progress (r : ProgressReporter) : Q :=
  match stage_weights r with
  | [] =>
      match PyDict.get (rep_current_stage r) (stage_progress r) with
      | Some p => p
      | None => 0
      end
  | ws =>
      fold_left
        (fun total_progress '(stage, weight) =>
           match PyDict.get stage (stage_progress r) with
           | Some p => total_progress + p / 100 * weight
           | None => total_progress
           end)
        ws 0
  end.

(** [update_stage_progress]. *)
Definition update_stage_progress (r : ProgressReporter) (now : Q)
    (sp : Q) (message : option string) : ProgressReporter :=
  let r' := {| rep_tracker := rep_tracker r; rep_job_id := rep_job_id r;
               rep_current_stage := rep_current_stage r;
               stage_weights := stage_weights r;
               stage_progress := PyDict.set (rep_current_stage r)
                                   (py_max 0 (py_min 100 sp)) (stage_progress r) |} in
  let overall_progress := _calculate_overall_progress r' in
  {| rep_tracker := update_progress (rep_tracker r') now (rep_job_id r')
                      overall_progress (Some (rep_current_stage r')) message;
     rep_job_id := rep_job_id r'; rep_current_stage := rep_current_stage r';
     stage_weights := stage_weights r'; stage_progress := stage_progress r' |}.

End TrackerOps.

(* ------------------------------------------------------------------ *)
(** ** Vocabulary of the extra properties *)

Module ExtraSpec.
Import MotionDetector CompressionProfiles.

Definition keys {V} (d : PyDict.dict V) : list string := map fst d.

(** The custom-profile dict after a sequence of assignments. *)
Definition set_all (adds : list (string * ActivityCompressionProfile))
    (d : PyDict.dict ActivityCompressionProfile) : PyDict.dict ActivityCompressionProfile :=
  fold_left (fun d '(nm, p) => PyDict.set nm p d) adds d.

(** One iteration of the second loop of [list_all_profiles]. *)
Definition set_custom (acc : PyDict.dict ActivityCompressionProfile)
    (e : string * ActivityCompressionProfile) : PyDict.dict ActivityCompressionProfile :=
  let '(nm, p) := e in PyDict.set ("custom_" ++ nm) p acc.

(** Length of a period, and of a period still open at time [t]. *)
Definition period_len (p : period) : Q := snd p - fst p.

Definition open_len (start : option Q) (t : Q) : Q :=
  match start with Some x => t - x | None => 0 end.

Definition seg_frames (s : ActivitySegment) : Q :=
  inject_Z (Z.of_nat (frame_end s) - Z.of_nat (frame_start s)).

(** Consecutive segments differ in label, or the first one has reached
    the ten-second cap. *)
Fixpoint split_reasons (fps : Q) (segs : list ActivitySegment) : Prop :=
  match segs with
  | s1 :: ((s2 :: _) as r) =>
      (activity_level_of s1 <> activity_level_of s2 \/ fps * 10 <= seg_frames s1)
      /\ split_reasons fps r
  | _ => True
  end.

(** The four labels of [_calculate_activity_distribution], in order. *)
Definition labels : list string := ["high"; "medium"; "low"; "inactive"].

(** The bouts of [_analyze_activity_bouts] alternate in type: while the
    current bout is active, the inactive bouts are as many as the active
    ones or one more, and the other way round. *)
Definition bouts_alternate (st : option (Q * bool) * list Q * list Q) : Prop :=
  let '(cur, ab, ib) := st in
  match cur with
  | None => ab = [] /\ ib = []
  | Some (_, true) =>
      (List.length ab <= List.length ib <= List.length ab + 1)%nat
  | Some (_, false) =>
      (List.length ib <= List.length ab <= List.length ib + 1)%nat
  end.

(** The reporters a job function can reach through the [ProgressReporter]
    API, calling [set_stage_weights] with weights that are not negative. *)
Inductive reporter_reachable : TrackerOps.ProgressReporter -> Prop :=
| rr_new (t : ProgressTracker.ProgressTracker) (jid : string) :
    reporter_reachable (TrackerOps.new_reporter t jid)
| rr_weights (r : TrackerOps.ProgressReporter) (weights : PyDict.dict Q)
    (r' : TrackerOps.ProgressReporter) :
    reporter_reachable r -> Forall (fun kv => 0 <= snd kv) weights ->
    TrackerOps.set_stage_weights r weights = Ok r' -> reporter_reachable r'
| rr_start (r : TrackerOps.ProgressReporter) (now : Q) (stage_name : string) :
    reporter_reachable r -> reporter_reachable (TrackerOps.start_stage r now stage_name)
| rr_update (r : TrackerOps.ProgressReporter) (now sp : Q) (message : option string) :
    reporter_reachable r ->
    reporter_reachable (TrackerOps.update_stage_progress r now sp message).

End ExtraSpec.

(* ================================================================== *)
(** * Properties *)

Module PyDictFacts.

Lemma dict_get_set {V} (k : string) (v : V) (d : PyDict.dict V) :
  PyDict.get k (PyDict.set k v d) = Some v.
Proof.
  induction d as [|[k' v'] r IH]; simpl.
  - rewrite String.eqb_refl. reflexivity.
  - destruct (String.eqb k k') eqn:E; simpl; rewrite E; [reflexivity|exact IH].
Qed.

Lemma dict_get_set_other {V} (k k2 : string) (v : V) (d : PyDict.dict V) :
  k2 <> k -> PyDict.get k2 (PyDict.set k v d) = PyDict.get k2 d.
Proof.
  intros Hne. induction d as [|[k' v'] r IH]; simpl.
  - destruct (String.eqb k2 k) eqn:E; [apply String.eqb_eq in E; congruence|reflexivity].
  - destruct (String.eqb k k') eqn:E; simpl.
    + apply String.eqb_eq in E. subst k'.
      destruct (String.eqb k2 k) eqn:E2; [apply String.eqb_eq in E2; congruence|reflexivity].
    + destruct (String.eqb k2 k'); [reflexivity|exact IH].
Qed.

End PyDictFacts.

(* ------------------------------------------------------------------ *)
(** ** Motion analysis *)

Module MotionDetectorFacts.
Import MotionDetector MotionSpec.

Lemma gen_loop_chain (fps : Q) (n : nat) (xs : list Q) :
  forall i cur_start lvl vals,
    (cur_start < i)%nat -> (i + List.length xs)%nat = n ->
    chain fps cur_start (gen_loop fps n i cur_start lvl vals xs) n.
Proof.
  induction xs as [|x xs IH]; intros i cs lvl vals Hlt Hn; simpl in *.
  - replace (Nat.ltb cs n) with true by (symmetry; apply Nat.ltb_lt; lia).
    simpl. repeat split; lia.
  - destruct (_ || _).
    + simpl. repeat split; try lia. apply IH; lia.
    + apply IH; lia.
Qed.

Lemma chain_start_le (fps : Q) : forall segs a b,
  chain fps a segs b -> Forall (fun s => (a <= frame_start s)%nat) segs /\ (a <= b)%nat.
Proof.
  induction segs as [|s r IH]; intros a b H; simpl in H.
  - split; [constructor | lia].
  - destruct H as (H1 & H2 & _ & _ & H5).
    destruct (IH _ _ H5) as [HF Hle]. split; [|lia].
    constructor; [lia|].
    eapply Forall_impl; [|exact HF]. simpl. intros; lia.
Qed.

Lemma filter_covers_nil (k : nat) : forall r,
  Forall (fun s => (k < frame_start s)%nat) r -> filter (covers k) r = [].
Proof.
  induction 1 as [|s r Hs _ IH]; [reflexivity|]. simpl.
  unfold covers at 1.
  replace (Nat.leb (frame_start s) k) with false
    by (symmetry; apply Nat.leb_gt; lia).
  exact IH.
Qed.

Lemma chain_covering_count (fps : Q) : forall segs a b k,
  chain fps a segs b -> (a <= k < b)%nat -> covering_count k segs = 1%nat.
Proof.
  unfold covering_count.
  induction segs as [|s r IH]; intros a b k H Hk; simpl in H.
  - lia.
  - destruct H as (H1 & H2 & _ & _ & H5). simpl.
    unfold covers at 1.
    destruct (Nat.ltb k (frame_end s)) eqn:E.
    + apply Nat.ltb_lt in E.
      replace (Nat.leb (frame_start s) k) with true
        by (symmetry; apply Nat.leb_le; lia).
      simpl. f_equal.
      destruct (chain_start_le fps _ _ _ H5) as [HF _].
      rewrite filter_covers_nil; [reflexivity|].
      eapply Forall_impl; [|exact HF]. simpl. intros; lia.
    + apply Nat.ltb_ge in E. rewrite andb_false_r. simpl.
      apply (IH (frame_end s) b k H5). lia.
Qed.

Lemma chain_durations (fps : Q) : forall segs a b,
  chain fps a segs b ->
  seg_durations_sum segs == inject_Z (Z.of_nat b) / fps - inject_Z (Z.of_nat a) / fps.
Proof.
  unfold seg_durations_sum.
  induction segs as [|s r IH]; intros a b H; simpl in H.
  - subst. simpl. ring.
  - destruct H as (H1 & H2 & H3 & H4 & H5). simpl.
    rewrite (IH _ _ H5), H3, H4. ring.
Qed.

Lemma classify_in_band (x : Q) : in_band (_classify_activity x) x.
Proof.
  unfold _classify_activity.
  destruct (Qle_bool threshold_high x) eqn:E1;
    [apply Qle_bool_iff in E1; exact E1|].
  assert (N1 : x < threshold_high)
    by (apply Qnot_le_lt; intro C; apply Qle_bool_iff in C; congruence).
  destruct (Qle_bool threshold_medium x) eqn:E2;
    [apply Qle_bool_iff in E2; split; assumption|].
  assert (N2 : x < threshold_medium)
    by (apply Qnot_le_lt; intro C; apply Qle_bool_iff in C; congruence).
  destruct (Qle_bool threshold_low x) eqn:E3;
    [apply Qle_bool_iff in E3; split; assumption|].
  apply Qnot_le_lt; intro C; apply Qle_bool_iff in C; congruence.
Qed.

Lemma Qle_bool_lt_false (x y : Q) : x < y -> Qle_bool y x = false.
Proof.
  intros H. destruct (Qle_bool y x) eqn:E; [|reflexivity].
  apply Qle_bool_iff in E. exfalso. exact (Qlt_not_le _ _ H E).
Qed.

Lemma in_band_classify (l : activity_level) (x : Q) :
  in_band l x -> _classify_activity x = l.
Proof.
  assert (Hmh : threshold_medium < threshold_high) by reflexivity.
  assert (Hlm : threshold_low < threshold_medium) by reflexivity.
  unfold _classify_activity.
  destruct l; simpl; intros H.
  - apply Qle_bool_iff in H. rewrite H. reflexivity.
  - destruct H as [H1 H2].
    rewrite (Qle_bool_lt_false _ _ H2).
    apply Qle_bool_iff in H1. rewrite H1. reflexivity.
  - destruct H as [H1 H2].
    rewrite (Qle_bool_lt_false _ _ (Qlt_trans _ _ _ H2 Hmh)).
    rewrite (Qle_bool_lt_false _ _ H2).
    apply Qle_bool_iff in H1. rewrite H1. reflexivity.
  - pose proof (Qlt_trans _ _ _ H Hlm) as H'.
    rewrite (Qle_bool_lt_false _ _ (Qlt_trans _ _ _ H' Hmh)).
    rewrite (Qle_bool_lt_false _ _ H').
    rewrite (Qle_bool_lt_false _ _ H). reflexivity.
Qed.

Lemma Qlen_cons (x : Q) (l : list Q) : Qlen (x :: l) == 1 + Qlen l.
Proof.
  unfold Qlen. simpl List.length.
  rewrite Nat2Z.inj_succ, <- Z.add_1_l, inject_Z_plus. reflexivity.
Qed.

Lemma Qlen_pos (l : list Q) : l <> [] -> 0 < Qlen l.
Proof.
  destruct l as [|x r]; [congruence|]. intros _.
  unfold Qlen, Qlt. simpl. lia.
Qed.

Lemma Qsum_ge (c : Q) (l : list Q) :
  Forall (fun x => c <= x) l -> c * Qlen l <= Qsum l.
Proof.
  induction 1 as [|x r Hx _ IH].
  - unfold Qlen. simpl. rewrite Qmult_0_r. apply Qle_refl.
  - rewrite Qlen_cons. simpl.
    setoid_replace (c * (1 + Qlen r)) with (c + c * Qlen r) by ring.
    apply Qplus_le_compat; assumption.
Qed.

Lemma Qsum_le (c : Q) (l : list Q) :
  Forall (fun x => x <= c) l -> Qsum l <= c * Qlen l.
Proof.
  induction 1 as [|x r Hx _ IH].
  - unfold Qlen. simpl. rewrite Qmult_0_r. apply Qle_refl.
  - rewrite Qlen_cons. simpl.
    setoid_replace (c * (1 + Qlen r)) with (c + c * Qlen r) by ring.
    apply Qplus_le_compat; assumption.
Qed.

Lemma Qsum_lt (c : Q) (l : list Q) :
  l <> [] -> Forall (fun x => x < c) l -> Qsum l < c * Qlen l.
Proof.
  destruct l as [|x r]; [congruence|]. intros _ H.
  inversion H as [|? ? Hx Hr]; subst.
  rewrite Qlen_cons. simpl.
  setoid_replace (c * (1 + Qlen r)) with (c + c * Qlen r) by ring.
  apply Qplus_lt_le_compat; [assumption|].
  apply Qsum_le. eapply Forall_impl; [|exact Hr]. intros; apply Qlt_le_weak; assumption.
Qed.

Lemma mean_ge (c : Q) (l : list Q) :
  l <> [] -> Forall (fun x => c <= x) l -> c <= np_mean l.
Proof.
  intros Hne H. unfold np_mean. apply Qle_shift_div_l.
  - apply (Qlen_pos l Hne).
  - apply (Qsum_ge c l H).
Qed.

Lemma mean_le (c : Q) (l : list Q) :
  l <> [] -> Forall (fun x => x <= c) l -> np_mean l <= c.
Proof.
  intros Hne H. unfold np_mean. apply Qle_shift_div_r.
  - apply (Qlen_pos l Hne).
  - apply (Qsum_le c l H).
Qed.

Lemma mean_lt (c : Q) (l : list Q) :
  l <> [] -> Forall (fun x => x < c) l -> np_mean l < c.
Proof.
  intros Hne H. unfold np_mean. apply Qlt_shift_div_r.
  - apply (Qlen_pos l Hne).
  - apply (Qsum_lt c l Hne H).
Qed.

Lemma mean_in_band (lv : activity_level) (l : list Q) :
  l <> [] -> Forall (in_band lv) l -> in_band lv (np_mean l).
Proof.
  intros Hne H. destruct lv; simpl in *.
  - apply mean_ge; assumption.
  - split; [apply mean_ge | apply mean_lt]; try assumption;
      eapply Forall_impl; try exact H; simpl; intros x Hx; apply Hx.
  - split; [apply mean_ge | apply mean_lt]; try assumption;
      eapply Forall_impl; try exact H; simpl; intros x Hx; apply Hx.
  - apply mean_lt; assumption.
Qed.

Lemma activity_level_eqb_eq (a b : activity_level) :
  activity_level_eqb a b = true -> a = b.
Proof. destruct a, b; simpl; congruence. Qed.

Lemma mk_segment_ok (fps : Q) (s e : nat) (lvl : activity_level) (vals : list Q) :
  vals <> [] -> Forall (fun x => unit_interval x /\ _classify_activity x = lvl) vals ->
  segment_ok (mk_segment fps s e lvl vals).
Proof.
  intros Hne H. unfold segment_ok, mk_segment. simpl. split.
  - split; [apply mean_ge | apply mean_le]; try assumption;
      eapply Forall_impl; try exact H; simpl; intros x Hx; apply Hx.
  - symmetry. apply in_band_classify. apply mean_in_band; [assumption|].
    eapply Forall_impl; [|exact H]. simpl. intros x [_ Hx].
    rewrite <- Hx. apply classify_in_band.
Qed.

Lemma gen_loop_ok (fps : Q) (n : nat) (xs : list Q) :
  forall i cur_start lvl vals,
    vals <> [] ->
    Forall (fun x => unit_interval x /\ _classify_activity x = lvl) vals ->
    Forall unit_interval xs ->
    Forall segment_ok (gen_loop fps n i cur_start lvl vals xs).
Proof.
  induction xs as [|x xs IH]; intros i cs lvl vals Hne Hv Hxs; simpl.
  - destruct (Nat.ltb cs n); constructor; [apply mk_segment_ok; assumption|constructor].
  - inversion Hxs as [|? ? Hx Hr]; subst.
    destruct (negb _ || _) eqn:Ec.
    + constructor; [apply mk_segment_ok; assumption|].
      apply IH; [congruence| |assumption].
      constructor; [split; [assumption|reflexivity]|constructor].
    + apply orb_false_iff in Ec as [Ec _].
      apply negb_false_iff, activity_level_eqb_eq in Ec.
      apply IH; [destruct vals; simpl; congruence| |assumption].
      apply Forall_app; split; [assumption|].
      constructor; [split; assumption|constructor].
Qed.

Lemma ratio_nonneg (k : nat) (a : positive) : 0 <= ratio k a.
Proof.
  unfold ratio, Qdiv. apply Qmult_le_0_compat.
  - unfold Qle. simpl. lia.
  - apply Qinv_le_0_compat. unfold Qle. simpl. lia.
Qed.

Lemma motion_intensity_unit (m : frame_measure) (has_prev : bool) :
  0 <= flow_mean_magnitude m ->
  unit_interval (_calculate_motion_intensity m has_prev).
Proof.
  intros Hf. unfold _calculate_motion_intensity. split.
  - apply Q.min_glb; [|unfold Qle; simpl; lia].
    pose proof (ratio_nonneg (fg_nonzero m) (total_area m)) as H1.
    assert (H2 : 0 <= (if has_prev then flow_mean_magnitude m / 100 else 0)).
    { destruct has_prev; [|apply Qle_refl].
      unfold Qdiv. apply Qmult_le_0_compat; [assumption|].
      unfold Qle; simpl; lia. }
    assert (H3 : 0 <= (if has_prev then ratio (diff_nonzero m) (total_area m) else 0)).
    { destruct has_prev; [apply ratio_nonneg|apply Qle_refl]. }
    set (a := ratio (fg_nonzero m) (total_area m)) in *.
    set (b := if has_prev then flow_mean_magnitude m / 100 else 0) in *.
    set (c := if has_prev then ratio (diff_nonzero m) (total_area m) else 0) in *.
    setoid_replace 0 with (0 * (1 # 2) + 0 * (3 # 10) + 0 * (2 # 10)) by ring.
    apply Qplus_le_compat; [apply Qplus_le_compat|];
      apply Qmult_le_compat_r; try assumption; unfold Qle; simpl; lia.
  - apply Q.le_min_r.
Qed.

Lemma read_loop_unit (reads : list (option frame_measure)) :
  forall has_prev, Forall flow_nonneg reads -> Forall unit_interval (read_loop has_prev reads).
Proof.
  induction reads as [|[m|] r IH]; intros hp H; simpl.
  - constructor.
  - inversion H; subst. constructor.
    + apply motion_intensity_unit; assumption.
    + apply IH; assumption.
  - constructor.
Qed.

Lemma analyze_video_ok (fps : Q) (frame_count : nat)
    (reads : list (option frame_measure)) (r : MotionAnalysisResult) :
  analyze_video fps frame_count reads = Ok r ->
  ~ fps == 0
  /\ _generate_activity_segments (read_loop false reads) fps = Ok (activity_segments r)
  /\ motion_timeline r = read_loop false reads
  /\ total_duration r = inject_Z (Z.of_nat frame_count) / fps
  /\ total_frames r = frame_count
  /\ fps_of r = fps.
Proof.
  unfold analyze_video. intros H.
  destruct (Qeq_bool fps 0) eqn:E0; [discriminate|].
  destruct (_generate_activity_segments (read_loop false reads) fps) eqn:G;
    [|discriminate].
  destruct (_identify_sleep_wake_cycles a) as [[sl ac]|] eqn:S; [|discriminate].
  inversion H; subst; clear H. simpl.
  repeat split; try reflexivity.
  intro C. apply Qeq_bool_iff in C. congruence.
Qed.

End MotionDetectorFacts.

(* ------------------------------------------------------------------ *)
(** ** Claims on the motion analysis *)

Module MotionClaims.
Import MotionDetector MotionSpec MotionDetectorFacts.

Lemma read_loop_length (reads : list (option frame_measure)) :
  forall has_prev, List.length (read_loop has_prev reads) = decoded_count reads.
Proof.
  induction reads as [|[m|] r IH]; intros hp; simpl; try reflexivity.
  rewrite IH. reflexivity.
Qed.

Lemma generate_chain (timeline : list Q) (fps : Q) (segs : list ActivitySegment) :
  _generate_activity_segments timeline fps = Ok segs ->
  chain fps 0 segs (List.length timeline) /\ timeline <> [].
Proof.
  destruct timeline as [|x0 rest]; simpl; intros H; [discriminate|].
  inversion H; subst. split; [|congruence].
  apply gen_loop_chain; simpl; lia.
Qed.

Lemma chain_contiguous (fps : Q) : forall segs a b,
  chain fps a segs b -> contiguous segs.
Proof.
  induction segs as [|s r IH]; intros a b H; simpl in *; [exact I|].
  destruct H as (_ & _ & _ & _ & H5).
  destruct r as [|s' r']; [exact I|].
  split; [apply H5|]. exact (IH _ _ H5).
Qed.

Lemma chain_nonempty (fps : Q) : forall segs a b,
  chain fps a segs b -> Forall (fun s => (frame_start s < frame_end s)%nat) segs.
Proof.
  induction segs as [|s r IH]; intros a b H; simpl in *; constructor.
  - destruct H as (H1 & H2 & _). lia.
  - destruct H as (_ & _ & _ & _ & H5). exact (IH _ _ H5).
Qed.

Lemma sleep_wake_ok (segs : list ActivitySegment) :
  segs <> [] -> exists sl ac, _identify_sleep_wake_cycles segs = Ok (sl, ac).
Proof.
  intros Hne. unfold _identify_sleep_wake_cycles.
  destruct (fold_left sleep_wake_step segs (None, None, [], []))
    as [[[ci ca] sl] ac].
  destruct (rev segs) as [|s r] eqn:E.
  - exfalso. apply Hne. rewrite <- (rev_involutive segs), E. reflexivity.
  - destruct ci, ca; eauto.
Qed.

(** C3 (as stated, refuted): at 30 fps, a capture reporting 90 frames
    whose second read fails yields one one-frame segment: frame 5 lies
    in no segment and the segment durations sum to 1/30 s against a
    reported duration of 3 s. *)
Lemma segments_partition_counterexample :
  match analyze_video 30 90
          [Some {| fg_nonzero := 0; total_area := 100;
                   flow_mean_magnitude := 0; diff_nonzero := 0 |}; None]
  with
  | Ok r => ~ stated_partition r
  | Err _ => False
  end.
Proof.
  vm_compute. intros (_ & Hcov & _).
  specialize (Hcov 5%nat). vm_compute in Hcov.
  discriminate (Hcov ltac:(lia)).
Qed.

(** C3 (amended): for every successful analysis, the segments partition
    the frames actually decoded: they are contiguous, start at frame 0,
    end at [len(motion_timeline)] (the number of frames read before the
    first failed read), each has at least one frame, every index below
    that count lies in exactly one segment, and the segment durations sum
    to [len(motion_timeline) / fps]; the reported duration is
    [total_frames / fps], [total_frames] being the container's frame
    count. *)
Theorem segments_partition_decoded_frames (fps : Q) (frame_count : nat)
    (reads : list (option frame_measure)) (r : MotionAnalysisResult) :
  analyze_video fps frame_count reads = Ok r ->
  let n := List.length (motion_timeline r) in
  n = decoded_count reads
  /\ chain fps 0 (activity_segments r) n
  /\ contiguous (activity_segments r)
  /\ Forall (fun s => (frame_start s < frame_end s)%nat) (activity_segments r)
  /\ (forall k, (k < n)%nat -> covering_count k (activity_segments r) = 1%nat)
  /\ seg_durations_sum (activity_segments r) == inject_Z (Z.of_nat n) / fps
  /\ total_duration r == inject_Z (Z.of_nat (total_frames r)) / fps.
Proof.
  intros H n.
  destruct (analyze_video_ok _ _ _ _ H) as (Hfps & G & Ht & Hd & Hf & _).
  destruct (generate_chain _ _ _ G) as [Hc _].
  rewrite <- Ht in Hc. fold n in Hc.
  split; [unfold n; rewrite Ht; apply read_loop_length|].
  split; [exact Hc|].
  split; [exact (chain_contiguous _ _ _ _ Hc)|].
  split; [exact (chain_nonempty _ _ _ _ Hc)|].
  split; [intros k Hk; apply (chain_covering_count fps _ 0 n); [exact Hc|lia]|].
  split.
  - rewrite (chain_durations _ _ _ _ Hc). simpl. unfold Qdiv. ring.
  - rewrite Hd, Hf. reflexivity.
Qed.

Lemma segments_partition_decoded_frames_witness :
  exists r,
    analyze_video 1 3
      [Some {| fg_nonzero := 50; total_area := 100; flow_mean_magnitude := 0;
               diff_nonzero := 0 |};
       Some {| fg_nonzero := 0; total_area := 100; flow_mean_magnitude := 0;
               diff_nonzero := 0 |}; None] = Ok r
    /\ List.length (motion_timeline r) = 2%nat
    /\ seg_durations_sum (activity_segments r) == 2.
Proof.
  destruct (analyze_video 1 3 _) as [r|e] eqn:E; [|vm_compute in E; discriminate].
  exists r. split; [reflexivity|].
  destruct (segments_partition_decoded_frames _ _ _ r E)
    as (Hn & _ & _ & _ & _ & Hs & _).
  split; [rewrite Hn; reflexivity|].
  rewrite Hs, Hn. reflexivity.
Defined.

(** C4: with the default thresholds, every segment of a successful
    analysis has a mean motion intensity in [[0,1]], and its label is the
    label [_classify_activity] gives that mean.  The hypothesis is that
    the mean optical-flow magnitude of each decoded frame is non-negative
    (a mean of vector lengths). *)
Theorem segment_label_matches_intensity (fps : Q) (frame_count : nat)
    (reads : list (option frame_measure)) (r : MotionAnalysisResult) :
  Forall flow_nonneg reads ->
  analyze_video fps frame_count reads = Ok r ->
  forall s, In s (activity_segments r) ->
    0 <= motion_intensity s /\ motion_intensity s <= 1
    /\ activity_level_of s = _classify_activity (motion_intensity s).
Proof.
  intros Hflow H.
  destruct (analyze_video_ok _ _ _ _ H) as (_ & G & _).
  pose proof (read_loop_unit reads false Hflow) as Hu.
  destruct (read_loop false reads) as [|x0 rest]; simpl in G; [discriminate|].
  inversion G as [Hsegs]. clear G.
  inversion Hu as [|? ? Hx0 Hrest]; subst.
  assert (HF : Forall segment_ok (activity_segments r)).
  { rewrite <- Hsegs. apply gen_loop_ok; [congruence| |exact Hrest].
    constructor; [split; [exact Hx0|reflexivity]|constructor]. }
  intros s Hs. rewrite Forall_forall in HF.
  destruct (HF s ltac:(rewrite <- Hsegs; exact Hs)) as [[H0 H1] H2]. auto.
Qed.

Lemma segment_label_matches_intensity_witness :
  let reads :=
    [Some {| fg_nonzero := 20; total_area := 100; flow_mean_magnitude := 3;
             diff_nonzero := 0 |};
     Some {| fg_nonzero := 10; total_area := 100; flow_mean_magnitude := 5;
             diff_nonzero := 30 |};
     Some {| fg_nonzero := 0; total_area := 100; flow_mean_magnitude := 0;
             diff_nonzero := 1 |}] in
  Forall flow_nonneg reads
  /\ exists r, analyze_video 30 3 reads = Ok r
     /\ forall s, In s (activity_segments r) ->
          0 <= motion_intensity s /\ motion_intensity s <= 1
          /\ activity_level_of s = _classify_activity (motion_intensity s).
Proof.
  intros reads.
  assert (Hf : Forall flow_nonneg reads)
    by (repeat constructor; apply Qle_bool_iff; reflexivity).
  split; [exact Hf|].
  destruct (analyze_video 30 3 reads) as [r|e] eqn:E;
    [|vm_compute in E; discriminate].
  exists r. split; [reflexivity|].
  exact (segment_label_matches_intensity 30 3 reads r Hf E).
Defined.

End MotionClaims.

(* ------------------------------------------------------------------ *)
(** ** Claims on the adaptive compressor *)

Module CompressorClaims.
Import MotionDetector MotionSpec MotionDetectorFacts MotionClaims.
Import CompressionProfiles AdaptiveCompressor CompressorSpec.

Lemma worker_step_finished_ok (analysis : result MotionAnalysisResult)
    (j : CompressionJob) :
  finished_ok j -> finished_ok (worker_step analysis j).
Proof.
  unfold finished_ok, worker_step. intros Hj.
  destruct (pc j) eqn:Epc; simpl; try discriminate.
  - destruct analysis as [r|e]; simpl; [|intros _; right; split; reflexivity].
    destruct (Nat.eqb _ 0); simpl; discriminate.
  - destruct (Nat.ltb i (total_segments j)); simpl; discriminate.
  - destruct (output_exists j) eqn:Eo; simpl.
    + intros _. left. split; [reflexivity|exact Eo].
    + intros _. right. split; reflexivity.
  - intros _. exact (Hj eq_refl).
Qed.

Lemma cancel_finished_ok (j : CompressionJob) :
  finished_ok j -> finished_ok (snd (cancel_job j)).
Proof.
  unfold finished_ok, cancel_job. intros Hj.
  destruct (job_status_eqb (status j) Running) eqn:E; simpl; [|exact Hj].
  intros Hd. exfalso.
  destruct (Hj Hd) as [[Hs _]|[Hs _]]; rewrite Hs in E; discriminate.
Qed.

(** Whatever the interleaving of [cancel_job] calls with the worker, a
    job whose worker has returned is never [cancelled]: the worker never
    reads [job.status] and overwrites it. *)
Lemma worker_overrides_cancel (analysis : result MotionAnalysisResult)
    (sched : list sched_event) :
  let j := run analysis sched initial_job in
  pc j = WDone -> status j <> Cancelled.
Proof.
  intros j Hd. unfold j in *.
  assert (Hinv : forall sc j0, finished_ok j0 -> finished_ok (run analysis sc j0)).
  { induction sc as [|[|] sc IH]; intros j0 H0; simpl; [exact H0| |];
      apply IH; [apply worker_step_finished_ok|apply cancel_finished_ok]; exact H0. }
  assert (H0 : finished_ok initial_job) by (intros C; discriminate C).
  destruct (Hinv sched _ H0 Hd) as [[Hs _]|[Hs _]]; rewrite Hs; discriminate.
Qed.

(** C1 (code bug): [cancel_job] called on a running job after the motion
    analysis returns [True] and marks the job [cancelled], but the worker
    goes on encoding, concatenates the output and sets the status to
    [completed]: the job ends [completed] with its output file present. *)
Theorem cancel_after_analysis_is_overwritten :
  let j1 := run two_frame_analysis [WorkerStep; WorkerStep] initial_job in
  let '(accepted, j2) := cancel_job j1 in
  let j3 := run two_frame_analysis (repeat WorkerStep 5) j2 in
  status j1 = Running /\ accepted = true /\ status j2 = Cancelled
  /\ pc j3 = WDone /\ status j3 = Completed /\ output_exists j3 = true.
Proof. vm_compute. repeat split. Qed.

(** C2 (as stated, refuted): at 30 fps, a capture whose second read fails
    is analysed from its single decoded frame (1/30 s, less than 1 s)
    instead of failing, with or without the worker's progress callback. *)
Lemma short_truncated_analysis_counterexample :
  exists r,
    analyze_video 30 30
      [Some {| fg_nonzero := 20; total_area := 100; flow_mean_magnitude := 0;
               diff_nonzero := 0 |}; None;
       Some {| fg_nonzero := 20; total_area := 100; flow_mean_magnitude := 0;
               diff_nonzero := 0 |}] = Ok r
    /\ analyze_video_cb 30 30
      [Some {| fg_nonzero := 20; total_area := 100; flow_mean_magnitude := 0;
               diff_nonzero := 0 |}; None;
       Some {| fg_nonzero := 20; total_area := 100; flow_mean_magnitude := 0;
               diff_nonzero := 0 |}] = Ok r
    /\ List.length (motion_timeline r) = 1%nat
    /\ inject_Z (Z.of_nat (List.length (motion_timeline r))) / fps_of r < 1.
Proof.
  eexists. split; [vm_compute; reflexivity|].
  split; [vm_compute; reflexivity|]. split; reflexivity.
Qed.

Lemma decoded_count_prefix (ms : list frame_measure)
    (rest : list (option frame_measure)) :
  decoded_count (map Some ms ++ None :: rest)%list = List.length ms.
Proof. induction ms as [|m ms IH]; simpl; [reflexivity|rewrite IH; reflexivity]. Qed.

Lemma read_loop_cb_nonzero (total : nat) (reads : list (option frame_measure)) :
  total <> O ->
  forall fc hp, read_loop_cb total fc hp reads = Ok (read_loop hp reads).
Proof.
  intros Ht. induction reads as [|[m|] r IH]; intros fc hp; simpl; try reflexivity.
  replace (Nat.eqb total 0) with false by (symmetry; apply Nat.eqb_neq; exact Ht).
  rewrite andb_false_r, IH. reflexivity.
Qed.

Lemma read_loop_cb_zero (reads : list (option frame_measure)) :
  forall fc hp, (fc < 30)%nat ->
  read_loop_cb 0 fc hp reads
  = if Nat.leb 30 (fc + decoded_count reads) then Err ZeroDivisionError
    else Ok (read_loop hp reads).
Proof.
  induction reads as [|[m|] r IH]; intros fc hp Hfc;
    cbn [read_loop_cb read_loop decoded_count].
  - replace (Nat.leb 30 (fc + 0)) with false by (symmetry; apply Nat.leb_gt; lia).
    reflexivity.
  - destruct (Nat.eq_dec (S fc) 30) as [E|E].
    + rewrite E.
      replace (Nat.leb 30 (fc + S (decoded_count r))) with true
        by (symmetry; apply Nat.leb_le; lia). reflexivity.
    + replace (Nat.eqb (Nat.modulo (S fc) 30) 0) with false.
      2:{ symmetry. apply Nat.eqb_neq. rewrite Nat.mod_small by lia. lia. }
      cbn [andb]. rewrite IH by lia.
      replace (S fc + decoded_count r)%nat with (fc + S (decoded_count r))%nat by lia.
      destruct (Nat.leb 30 (fc + S (decoded_count r))); reflexivity.
  - replace (Nat.leb 30 (fc + 0)) with false by (symmetry; apply Nat.leb_gt; lia).
    reflexivity.
Qed.

(** The analysis with the worker's progress callback differs from the one
    without only by the callback's [ZeroDivisionError]. *)
Lemma analyze_video_cb_eq (fps : Q) (frame_count : nat)
    (reads : list (option frame_measure)) :
  analyze_video_cb fps frame_count reads
  = if Nat.eqb frame_count 0 && Nat.leb 30 (decoded_count reads)
    then Err ZeroDivisionError else analyze_video fps frame_count reads.
Proof.
  unfold analyze_video_cb, analyze_video.
  destruct (Qeq_bool fps 0).
  { destruct (Nat.eqb frame_count 0 && Nat.leb 30 (decoded_count reads)); reflexivity. }
  destruct frame_count as [|n].
  - rewrite (read_loop_cb_zero reads 0 false) by lia.
    change (0 + decoded_count reads)%nat with (decoded_count reads).
    change (Nat.eqb 0 0) with true. cbn [andb].
    destruct (Nat.leb 30 (decoded_count reads)); reflexivity.
  - rewrite (read_loop_cb_nonzero (S n) reads ltac:(discriminate) 0 false).
    reflexivity.
Qed.

(** C2 (amended): an input with no decodable frame makes [analyze_video]
    raise, with or without the worker's progress callback (a
    [ZeroDivisionError] when the capture reports 0 fps, an [IndexError]
    from [motion_timeline[0]] otherwise); the worker then marks the job
    [failed] and no output file exists.  When a read fails after [k >= 1]
    decoded frames: a capture reporting 0 fps raises [ZeroDivisionError];
    otherwise the analysis ends there and succeeds on those [k] frames,
    whatever [k] is, except that with the worker's progress callback a
    capture reporting a frame count of 0 raises [ZeroDivisionError] once
    [k >= 30]. *)
Theorem no_frames_error_and_truncation :
  (forall (fps : Q) (frame_count : nat) (reads : list (option frame_measure)),
     decoded_count reads = O ->
     analyze_video fps frame_count reads
       = Err (if Qeq_bool fps 0 then ZeroDivisionError else IndexError)
     /\ analyze_video_cb fps frame_count reads
       = Err (if Qeq_bool fps 0 then ZeroDivisionError else IndexError)
     /\ let j := run (analyze_video_cb fps frame_count reads)
                     [WorkerStep; WorkerStep] initial_job in
        pc j = WDone /\ status j = Failed /\ output_exists j = false)
  /\ (forall (fps : Q) (frame_count : nat) (ms : list frame_measure)
             (rest : list (option frame_measure)),
        ms <> [] ->
        (fps == 0 ->
           analyze_video fps frame_count (map Some ms ++ None :: rest)%list
             = Err ZeroDivisionError
           /\ analyze_video_cb fps frame_count (map Some ms ++ None :: rest)%list
             = Err ZeroDivisionError)
        /\ (~ fps == 0 ->
            exists r,
              analyze_video fps frame_count (map Some ms ++ None :: rest)%list = Ok r
              /\ List.length (motion_timeline r) = List.length ms
              /\ analyze_video_cb fps frame_count (map Some ms ++ None :: rest)%list
                 = if Nat.eqb frame_count 0 && Nat.leb 30 (List.length ms)
                   then Err ZeroDivisionError else Ok r)).
Proof.
  split.
  - intros fps fc reads H0.
    assert (Hr : read_loop false reads = []).
    { pose proof (read_loop_length reads false) as L. rewrite H0 in L.
      destruct (read_loop false reads); [reflexivity|discriminate]. }
    assert (Ha : analyze_video fps fc reads
                 = Err (if Qeq_bool fps 0 then ZeroDivisionError else IndexError)).
    { unfold analyze_video. destruct (Qeq_bool fps 0); [reflexivity|].
      rewrite Hr. reflexivity. }
    assert (Hb : analyze_video_cb fps fc reads
                 = Err (if Qeq_bool fps 0 then ZeroDivisionError else IndexError)).
    { rewrite analyze_video_cb_eq, H0, Ha.
      destruct (Nat.eqb fc 0); reflexivity. }
    split; [exact Ha|]. split; [exact Hb|]. rewrite Hb. repeat split.
  - intros fps fc ms rest Hne.
    set (reads := (map Some ms ++ None :: rest)%list).
    assert (Hdc : decoded_count reads = List.length ms)
      by apply decoded_count_prefix.
    split.
    + intros Hz.
      assert (Ha : analyze_video fps fc reads = Err ZeroDivisionError).
      { unfold analyze_video.
        replace (Qeq_bool fps 0) with true by (symmetry; apply Qeq_bool_iff; exact Hz).
        reflexivity. }
      split; [exact Ha|]. rewrite analyze_video_cb_eq, Ha.
      destruct (Nat.eqb fc 0 && Nat.leb 30 (decoded_count reads)); reflexivity.
    + intros Hfps.
      assert (Hlen : List.length (read_loop false reads) = List.length ms)
        by (rewrite read_loop_length; exact Hdc).
      destruct (read_loop false reads) as [|x0 xs] eqn:Er.
      { destruct ms; [congruence|discriminate]. }
      set (segs := gen_loop fps (List.length (x0 :: xs)) 1 0
                     (_classify_activity x0) [x0] xs).
      assert (G : _generate_activity_segments (x0 :: xs) fps = Ok segs) by reflexivity.
      destruct (generate_chain _ _ _ G) as [Hc _].
      assert (Hsne : segs <> []).
      { intros E. rewrite E in Hc. simpl in Hc. discriminate. }
      destruct (sleep_wake_ok segs Hsne) as (sl & ac & Hsw).
      assert (Ha : exists r, analyze_video fps fc reads = Ok r
                     /\ List.length (motion_timeline r) = List.length ms).
      { unfold analyze_video.
        replace (Qeq_bool fps 0) with false
          by (symmetry; apply not_true_iff_false; intro C;
              apply Qeq_bool_iff in C; contradiction).
        rewrite Er, G, Hsw.
        eexists. split; [reflexivity|]. simpl. rewrite <- Hlen. reflexivity. }
      destruct Ha as [r [Ha Hl]].
      exists r. split; [exact Ha|]. split; [exact Hl|].
      rewrite analyze_video_cb_eq, Hdc, Ha. reflexivity.
Qed.

Lemma no_frames_error_and_truncation_witness :
  analyze_video_cb 30 0 [None] = Err IndexError
  /\ exists r,
       analyze_video 30 30
         (map Some [{| fg_nonzero := 20; total_area := 100;
                       flow_mean_magnitude := 0; diff_nonzero := 0 |}]
          ++ None :: [])%list = Ok r
       /\ List.length (motion_timeline r) = 1%nat
       /\ analyze_video_cb 30 30
         (map Some [{| fg_nonzero := 20; total_area := 100;
                       flow_mean_magnitude := 0; diff_nonzero := 0 |}]
          ++ None :: [])%list = Ok r.
Proof.
  destruct no_frames_error_and_truncation as [Hz Ht]. split.
  - exact (proj1 (proj2 (Hz 30 0%nat [None] eq_refl))).
  - assert (Hne : [{| fg_nonzero := 20; total_area := 100;
                       flow_mean_magnitude := 0; diff_nonzero := 0 |}] <> [])
      by discriminate.
    apply (proj2 (Ht 30 30%nat _ [] Hne)).
    intro C. apply Qeq_bool_iff in C. discriminate C.
Defined.

(** C8: with the compressor's [ROICompressionSettings()] and ROI mode on,
    a segment whose mean motion intensity exceeds 0.02 is encoded with
    the profile's settings for its label, CRF lowered by 3 (not below 0)
    and bitrate factor times 1.2, FPS, preset and H.264 profile kept;
    otherwise (ROI off, or intensity at most 0.02) with the profile's
    settings unchanged. *)
Theorem roi_adjusted_segment_settings (job_profile : ActivityCompressionProfile)
    (roi_enabled : bool) (segment : ActivitySegment) :
  let base := get_settings_for_activity job_profile (activity_level_of segment) in
  let s := segment_settings default_roi_settings job_profile roi_enabled segment in
  if roi_enabled && Qgt_bool (motion_intensity segment) (2 # 100) then
    crf s = Z.max 0 (crf base - 3) /\ bitrate_factor s = bitrate_factor base * (12 # 10)
    /\ fps s = fps base /\ preset s = preset base /\ profile s = profile base
  else s = base.
Proof.
  intros base s. unfold s, segment_settings, adjust_settings_for_roi.
  fold base.
  destruct roi_enabled; simpl; [|reflexivity].
  destruct (Qgt_bool (motion_intensity segment) (2 # 100)); simpl;
    [repeat split|reflexivity].
Qed.

End CompressorClaims.

(* ------------------------------------------------------------------ *)
(** ** Claims on the compression profiles *)

Module ProfileClaims.
Import PyDictFacts MotionDetector CompressionProfiles ProfileSpec.

(** C5 (as stated, refuted): [create_custom_profile] stores a profile
    whose CRFs decrease across the levels; [validate_profile] would
    reject it, but it is never called. *)
Lemma custom_profile_unvalidated_counterexample :
  let m := create_custom_profile init_manager "inverted" inverted_profile in
  PyDict.get "inverted" (custom_profiles m) = Some inverted_profile
  /\ nondecreasing (profile_crfs inverted_profile) = false
  /\ validate_profile inverted_profile
     = Err (ValueError "CRF values should increase with decreasing activity").
Proof. vm_compute. repeat split. Qed.

(** C5 (amended): after any sequence of [create_custom_profile] calls,
    the built-in profiles are still the three defaults, whose CRFs are
    non-decreasing over (high, medium, low, inactive); a further call
    stores its profile under its name as given, without validation. *)
Theorem builtin_profiles_monotone_and_unchanged
    (adds : list (string * ActivityCompressionProfile)) :
  let m := add_all adds init_manager in
  profiles m = _create_default_profiles
  /\ Forall (fun e => nondecreasing (profile_crfs (snd e)) = true) (profiles m)
  /\ (forall nm p, PyDict.get nm (custom_profiles (create_custom_profile m nm p)) = Some p
                   /\ profiles (create_custom_profile m nm p) = profiles m).
Proof.
  intros m.
  assert (Hp : forall a m0, profiles (add_all a m0) = profiles m0).
  { induction a as [|[nm p] a IH]; intros m0; simpl; [reflexivity|].
    rewrite IH. reflexivity. }
  assert (Hm : profiles m = _create_default_profiles) by (apply Hp).
  split; [exact Hm|]. split.
  - rewrite Hm. repeat constructor.
  - intros nm p. split; [apply dict_get_set|reflexivity].
Qed.

(** The rounding to one decimal is off by at most 0.05. *)
Lemma round1_error (x : Q) : Qabs (round1 x - x) <= 1 # 20.
Proof.
  unfold round1.
  set (y := x * 10). set (f := Qfloor y). set (d := y - inject_Z f).
  assert (Hd0 : 0 <= d).
  { unfold d. pose proof (Qfloor_le y) as H. fold f in H. lra. }
  assert (Hd1 : d < 1).
  { unfold d. pose proof (Qlt_floor y) as H. fold f in H.
    rewrite inject_Z_plus in H. change (inject_Z 1) with 1 in H. lra. }
  assert (Hr : forall r : Z, -(1#2) <= inject_Z r - y <= 1#2 ->
                 Qabs (inject_Z r / 10 - x) <= 1 # 20).
  { intros r [H1 H2]. apply Qabs_Qle_condition. unfold y in *.
    setoid_replace (inject_Z r / 10 - x) with ((inject_Z r - x * 10) * (1 # 10))
      by (field; discriminate).
    split; lra. }
  apply Hr.
  assert (Hy : y == inject_Z f + d) by (unfold d; ring).
  destruct (Qeq_bool d (1 # 2)) eqn:E1.
  - apply Qeq_bool_iff in E1.
    destruct (Z.even f); [|rewrite inject_Z_plus; change (inject_Z 1) with 1];
      split; lra.
  - destruct (Qle_bool d (1 # 2)) eqn:E2.
    + apply Qle_bool_iff in E2. split; lra.
    + assert (E3 : 1 # 2 < d).
      { apply Qnot_le_lt. intro C. apply Qle_bool_iff in C. congruence. }
      rewrite inject_Z_plus. change (inject_Z 1) with 1. split; lra.
Qed.

(** C7 (as stated, refuted): for a 200.01 MB file the conservative
    estimate is 90.0 MB, not 200.01 * 0.45 = 90.0045 MB, and the
    small-file rationale is given although the size is not below 100 MB. *)
Lemma recommendation_counterexample :
  exists rec,
    PyDict.get "conservative"
      (get_profile_recommendations init_manager 600 (20001 # 100) (1 # 2)) = Some rec
    /\ ~ estimated_output_size_mb rec == (20001 # 100) * (45 # 100)
    /\ recommended_for rec = "Small file size allows for conservative compression".
Proof.
  eexists. split; [vm_compute; reflexivity|].
  split; [vm_compute; discriminate|reflexivity].
Qed.

Lemma recommendations_entries (video_duration file_size_mb activity_ratio : Q) :
  forall pt p,
    In (pt, p) _create_default_profiles ->
    PyDict.get (profile_value pt)
      (get_profile_recommendations init_manager video_duration file_size_mb activity_ratio)
    = Some {| rec_profile := p;
              estimated_output_size_mb :=
                round1 (file_size_mb * expected_compression_ratio p);
              estimated_processing_time_minutes :=
                round1 (_estimate_processing_time video_duration pt);
              compression_ratio := expected_compression_ratio p;
              recommended_for :=
                _get_recommendation_reason pt activity_ratio file_size_mb |}.
Proof.
  intros pt p Hin. simpl in Hin.
  destruct Hin as [E|[E|[E|[]]]]; inversion E; subst; clear E;
    unfold get_profile_recommendations; simpl;
    repeat first [ rewrite dict_get_set | rewrite dict_get_set_other by discriminate ];
    reflexivity.
Qed.

Lemma round1_tenth (x : Q) : exists z, round1 x == inject_Z z / 10.
Proof. unfold round1. eexists. apply Qeq_refl. Qed.

Lemma reason_gt_true (a b : Q) : b < a -> Qgt_bool a b = true.
Proof.
  intros H. unfold Qgt_bool. destruct (Qle_bool a b) eqn:E; [|reflexivity].
  apply Qle_bool_iff in E. exfalso. exact (Qlt_not_le _ _ H E).
Qed.

Lemma reason_gt_false (a b : Q) : a <= b -> Qgt_bool a b = false.
Proof. intros H. unfold Qgt_bool. apply Qle_bool_iff in H. rewrite H. reflexivity. Qed.

Lemma reason_le_true (a b : Q) : a <= b -> Qle_bool a b = true.
Proof. intros H. apply Qle_bool_iff. exact H. Qed.

Lemma reason_le_false (a b : Q) : b < a -> Qle_bool a b = false.
Proof.
  intros H. destruct (Qle_bool a b) eqn:E; [|reflexivity].
  apply Qle_bool_iff in E. exfalso. exact (Qlt_not_le _ _ H E).
Qed.

(** C7 (amended): [get_profile_recommendations] has exactly the keys
    conservative, balanced, aggressive; for each built-in profile it gives
    the output size [size_mb * nominal ratio] and the processing time
    [(duration / 60) / speed factor] (0.3, 0.5, 0.8) both rounded to one
    decimal (a multiple of 0.1 within 0.05 of the exact value), the
    nominal ratio, and a rationale: conservative cites high activity when
    activity_ratio > 0.7 and a small file when size_mb < 500; balanced is
    always a general-purpose choice and cites moderate activity when
    0.3 <= activity_ratio <= 0.7; aggressive cites low activity when
    activity_ratio < 0.3 and a large file when size_mb > 1000; the cited
    reasons are joined with a semicolon, and without any the rationale is
    [Standard recommendation]. *)
Theorem recommendations_rounded_estimates (video_duration file_size_mb activity_ratio : Q) :
  let recs := get_profile_recommendations init_manager video_duration file_size_mb
                activity_ratio in
  map fst recs = ["conservative"; "balanced"; "aggressive"]
  /\ (forall pt p, In (pt, p) _create_default_profiles ->
        exists rec, PyDict.get (profile_value pt) recs = Some rec
        /\ (exists z, estimated_output_size_mb rec == inject_Z z / 10)
        /\ Qabs (estimated_output_size_mb rec - file_size_mb * expected_compression_ratio p)
             <= 1 # 20
        /\ (exists z, estimated_processing_time_minutes rec == inject_Z z / 10)
        /\ Qabs (estimated_processing_time_minutes rec
                 - (video_duration / 60) / speed_factor pt) <= 1 # 20
        /\ compression_ratio rec = expected_compression_ratio p
        /\ match pt with
           | CONSERVATIVE =>
               (7 # 10 < activity_ratio -> file_size_mb < 500 ->
                recommended_for rec = "High activity content - quality preservation important; Small file size allows for conservative compression")
               /\ (7 # 10 < activity_ratio -> 500 <= file_size_mb ->
                   recommended_for rec = "High activity content - quality preservation important")
               /\ (activity_ratio <= 7 # 10 -> file_size_mb < 500 ->
                   recommended_for rec = "Small file size allows for conservative compression")
               /\ (activity_ratio <= 7 # 10 -> 500 <= file_size_mb ->
                   recommended_for rec = "Standard recommendation")
           | BALANCED =>
               (3 # 10 <= activity_ratio -> activity_ratio <= 7 # 10 ->
                recommended_for rec = "Good general-purpose choice; Moderate activity levels suit balanced approach")
               /\ (activity_ratio < 3 # 10 \/ 7 # 10 < activity_ratio ->
                   recommended_for rec = "Good general-purpose choice")
           | AGGRESSIVE =>
               (activity_ratio < 3 # 10 -> 1000 < file_size_mb ->
                recommended_for rec = "Low activity content allows aggressive compression; Large file size benefits from aggressive compression")
               /\ (activity_ratio < 3 # 10 -> file_size_mb <= 1000 ->
                   recommended_for rec = "Low activity content allows aggressive compression")
               /\ (3 # 10 <= activity_ratio -> 1000 < file_size_mb ->
                   recommended_for rec = "Large file size benefits from aggressive compression")
               /\ (3 # 10 <= activity_ratio -> file_size_mb <= 1000 ->
                   recommended_for rec = "Standard recommendation")
           | CUSTOM => False
           end)
  /\ speed_factor CONSERVATIVE = 3 # 10 /\ speed_factor BALANCED = 5 # 10
  /\ speed_factor AGGRESSIVE = 8 # 10.
Proof.
  intros recs. split; [reflexivity|]. split; [|repeat split].
  intros pt p Hin. eexists. split.
  - apply (recommendations_entries _ _ _ pt p Hin).
  - cbn [estimated_output_size_mb estimated_processing_time_minutes
         compression_ratio recommended_for].
    split; [apply round1_tenth|]. split; [apply round1_error|].
    split; [apply round1_tenth|]. split; [apply round1_error|].
    split; [reflexivity|].
    simpl in Hin. destruct Hin as [E|[E|[E|[]]]]; inversion E; subst; clear E;
      unfold _get_recommendation_reason.
    + repeat split; intros H1 H2;
        first [ rewrite (reason_gt_true _ _ H1) | rewrite (reason_gt_false _ _ H1) ];
        first [ rewrite (reason_gt_true _ _ H2) | rewrite (reason_gt_false _ _ H2) ];
        reflexivity.
    + split.
      * intros H1 H2. rewrite (reason_le_true _ _ H1), (reason_le_true _ _ H2).
        reflexivity.
      * intros [H|H].
        -- rewrite (reason_le_false _ _ H). reflexivity.
        -- rewrite (reason_le_false _ _ H), andb_false_r. reflexivity.
    + repeat split; intros H1 H2;
        first [ rewrite (reason_gt_true _ _ H1) | rewrite (reason_gt_false _ _ H1) ];
        first [ rewrite (reason_gt_true _ _ H2) | rewrite (reason_gt_false _ _ H2) ];
        reflexivity.
Qed.

(** Witness for C7: the conservative entry for a 10-minute, 200 MB video
    with activity ratio 0.5 cites only the small file size. *)
Lemma recommendations_rounded_estimates_witness :
  In (CONSERVATIVE, conservative_profile) _create_default_profiles
  /\ exists rec, PyDict.get "conservative"
        (get_profile_recommendations init_manager 600 200 (1 # 2)) = Some rec
     /\ Qabs (estimated_output_size_mb rec - 200 * (45 # 100)) <= 1 # 20
     /\ recommended_for rec = "Small file size allows for conservative compression".
Proof.
  assert (Hin : In (CONSERVATIVE, conservative_profile) _create_default_profiles)
    by (simpl; left; reflexivity).
  split; [exact Hin|].
  destruct (recommendations_rounded_estimates 600 200 (1 # 2)) as [_ [H _]].
  destruct (H CONSERVATIVE conservative_profile Hin)
    as [rec [Hget [_ [Hsize [_ [_ [_ Hreason]]]]]]].
  exists rec. split; [exact Hget|]. split; [exact Hsize|].
  apply (proj1 (proj2 (proj2 Hreason))); lra.
Defined.

End ProfileClaims.

(** ** Progress tracker *)

Module TrackerFacts.
Import PyDictFacts ProgressTracker.

(** [update_progress] puts exactly one [PROGRESS] event for the job at the
    end of the queue, with the clamped percentage, and leaves the histories
    and the subscribers alone. *)
Lemma update_progress_event t now jid pct st msg :
  let t' := update_progress t now jid pct st msg in
  exists e, event_queue t' = (event_queue t ++ [e])%list
    /\ job_id e = jid /\ event_type e = PROGRESS /\ timestamp e = now
    /\ percentage e = py_max 0 (py_min 100 pct)
    /\ job_progress t' = job_progress t /\ subscribers t' = subscribers t
    /\ global_subscribers t' = global_subscribers t
    /\ delivered t' = delivered t.
Proof.
  intros t'. unfold t', update_progress, put, with_queue. simpl.
  destruct (PyDict.get jid (active_jobs t)); simpl;
    eexists; repeat split; reflexivity.
Qed.

Lemma py_min_max_spec (pct : Q) :
  py_max 0 (py_min 100 pct) == Qmax 0 (Qmin 100 pct)
  /\ 0 <= py_max 0 (py_min 100 pct) <= 100.
Proof.
  unfold py_max, py_min.
  destruct (Qle_bool 100 pct) eqn:E1.
  - apply Qle_bool_iff in E1.
    rewrite (Q.min_l 100 pct E1).
    destruct (Qle_bool 100 0) eqn:E2; [discriminate|].
    rewrite Q.max_r by (unfold Qle; simpl; lia).
    split; [reflexivity|]. split; unfold Qle; simpl; lia.
  - assert (H1 : pct <= 100).
    { apply Qlt_le_weak, Qnot_le_lt. intro H. apply Qle_bool_iff in H. congruence. }
    rewrite (Q.min_r 100 pct H1).
    destruct (Qle_bool pct 0) eqn:E2.
    + apply Qle_bool_iff in E2. rewrite (Q.max_l 0 pct E2).
      split; [reflexivity|]. split; [apply Qle_refl|unfold Qle; simpl; lia].
    + assert (H2 : 0 <= pct).
      { apply Qlt_le_weak, Qnot_le_lt. intro H. apply Qle_bool_iff in H. congruence. }
      rewrite (Q.max_r 0 pct H2). split; [reflexivity|]. split; assumption.
Qed.

Lemma deque_append_last {A} (d : list A) (x : A) :
  exists pre, deque_append max_snapshots d x = (pre ++ [x])%list.
Proof.
  unfold deque_append.
  destruct (Nat.ltb max_snapshots (List.length (d ++ [x]))) eqn:E.
  - destruct d as [|y d]; [discriminate|]. exists d. reflexivity.
  - exists d. reflexivity.
Qed.

Lemma deque_append_last2 {A} (pre : list A) (a x : A) :
  exists pre', deque_append max_snapshots (pre ++ [a]) x = (pre' ++ [a; x])%list.
Proof.
  unfold deque_append. rewrite <- app_assoc. simpl.
  destruct (Nat.ltb max_snapshots (List.length (pre ++ [a; x]))) eqn:E.
  - destruct pre as [|y pre]; [discriminate|]. exists pre. reflexivity.
  - exists pre. reflexivity.
Qed.

(** Processing an event keeps the subscriber lists and the rest of the
    queue, and appends the event's callback invocations to the log. *)
Lemma process_event_fields now t e :
  let t' := _process_event now t e in
  subscribers t' = subscribers t /\ global_subscribers t' = global_subscribers t
  /\ event_queue t' = event_queue t
  /\ delivered t' = (delivered t ++ map (fun cb => (cb, e)) (notify_targets t e))%list.
Proof. simpl. repeat split; reflexivity. Qed.

Lemma process_event_history now t e :
  exists h, PyDict.get (job_id e) (job_progress (_process_event now t e)) = Some h
  /\ events h = events (add_event match PyDict.get (job_id e) (job_progress t) with
                                  | Some h0 => h0 | None => empty_history end e).
Proof.
  simpl. rewrite dict_get_set. eexists. split; [reflexivity|].
  destruct (event_type e); reflexivity.
Qed.

(** The event worker hands the queued events to the callbacks strictly in
    queue order. *)
Lemma worker_run_fifo now (q : list ProgressEvent) : forall t,
  event_queue t = q ->
  event_queue (worker_run now (List.length q) t) = []
  /\ subscribers (worker_run now (List.length q) t) = subscribers t
  /\ global_subscribers (worker_run now (List.length q) t) = global_subscribers t
  /\ delivered (worker_run now (List.length q) t)
     = (delivered t ++ TrackerSpec.fifo_deliveries t q)%list.
Proof.
  induction q as [|e q IH]; intros t Hq.
  - simpl. rewrite app_nil_r. repeat split; assumption || reflexivity.
  - simpl.
    set (t1 := _process_event now (with_queue t q) e).
    assert (Hw : worker_iteration now t = t1)
      by (unfold worker_iteration; rewrite Hq; reflexivity).
    rewrite Hw.
    destruct (IH t1 eq_refl) as [R1 [R2 [R3 R4]]].
    repeat split.
    + exact R1.
    + rewrite R2. reflexivity.
    + rewrite R3. reflexivity.
    + rewrite R4. unfold t1, TrackerSpec.fifo_deliveries. simpl.
      rewrite <- app_assoc. reflexivity.
Qed.

(** The event worker run twice on a two-event queue. *)
Lemma worker_run_two now t e1 e2 :
  event_queue t = [e1; e2] ->
  worker_run now 2 t
  = _process_event now (with_queue (_process_event now (with_queue t [e2]) e1) []) e2.
Proof. intros H. unfold worker_run, worker_iteration. rewrite H. reflexivity. Qed.

(** [get_average_speed] on a history of at least two snapshots. *)
Lemma average_speed_shape h first mid last :
  snapshots h = (first :: mid ++ [last])%list ->
  get_average_speed h
  = if Qle_bool (snap_timestamp last - snap_timestamp first) 0 then None
    else Some ((snap_percentage last - snap_percentage first)
               / (snap_timestamp last - snap_timestamp first)).
Proof.
  intros H. unfold get_average_speed. rewrite H.
  assert (Hl : List.last (first :: mid ++ [last]) first = last)
    by (rewrite app_comm_cons; apply last_last).
  rewrite Hl.
  destruct (mid ++ [last])%list eqn:E; [destruct mid; discriminate|].
  reflexivity.
Qed.

Lemma div_zero_iff (d td : Q) :
  0 < td -> (d / td == 0 <-> d == 0).
Proof.
  intros Ht.
  assert (Hnz : ~ td == 0)
    by (intro Hz; rewrite Hz in Ht; apply (Qlt_irrefl 0); exact Ht).
  split; intro H.
  - setoid_replace d with ((d / td) * td) by (field; exact Hnz).
    rewrite H. ring.
  - rewrite H. unfold Qdiv. ring.
Qed.

Lemma Qle_bool_false (x y : Q) : Qle_bool x y = false -> y < x.
Proof.
  intros E. apply Qnot_le_lt. intro H. apply Qle_bool_iff in H. congruence.
Qed.

(** Running the worker [m + n] times is running it [m] times, then [n]. *)
Lemma worker_run_add now (m n : nat) : forall t,
  worker_run now (m + n) t = worker_run now n (worker_run now m t).
Proof. induction m as [|m IH]; intros t; simpl; [reflexivity|apply IH]. Qed.

(** The worker run over a prefix [q] of the queue: it leaves the rest of
    the queue and the subscribers, delivers the events of [q] in order,
    and leaves the histories of the jobs without an event in [q] alone. *)
Lemma worker_run_prefix now (q : list ProgressEvent) : forall t rest,
  event_queue t = (q ++ rest)%list ->
  let t' := worker_run now (List.length q) t in
  event_queue t' = rest
  /\ subscribers t' = subscribers t
  /\ global_subscribers t' = global_subscribers t
  /\ delivered t' = (delivered t ++ TrackerSpec.fifo_deliveries t q)%list
  /\ (forall jid, Forall (fun e => job_id e <> jid) q ->
      PyDict.get jid (job_progress t') = PyDict.get jid (job_progress t)).
Proof.
  induction q as [|e q IH]; intros t rest Hq t'; unfold t'.
  - simpl. rewrite app_nil_r. repeat split; try assumption; reflexivity.
  - cbn [List.length worker_run].
    set (t1 := _process_event now (with_queue t (q ++ rest)%list) e).
    assert (Hw : worker_iteration now t = t1)
      by (unfold worker_iteration; rewrite Hq; reflexivity).
    rewrite Hw.
    destruct (IH t1 rest eq_refl) as [R1 [R2 [R3 [R4 R5]]]].
    repeat split.
    + exact R1.
    + rewrite R2. reflexivity.
    + rewrite R3. reflexivity.
    + rewrite R4. unfold t1, TrackerSpec.fifo_deliveries. simpl.
      rewrite <- app_assoc. reflexivity.
    + intros jid Hf. apply Forall_cons_iff in Hf. destruct Hf as [Hne Hr].
      rewrite (R5 jid Hr). unfold t1. cbn [_process_event job_progress].
      apply dict_get_set_other. intros C. apply Hne. symmetry. exact C.
Qed.

End TrackerFacts.

Module TrackerClaims.
Import PyDictFacts ProgressTracker TrackerSpec TrackerFacts.

(** C10: every [update_progress] call emits one [PROGRESS] event for the
    job whose percentage is [max(0, min(100, percentage))], so it lies in
    [[0, 100]] whatever the input. *)
Theorem update_progress_clamps (t : ProgressTracker) (now : Q) (jid : string)
    (pct : Q) (st msg : option string) :
  exists e, event_queue (update_progress t now jid pct st msg)
            = (event_queue t ++ [e])%list
    /\ job_id e = jid /\ event_type e = PROGRESS
    /\ percentage e == Qmax 0 (Qmin 100 pct)
    /\ 0 <= percentage e <= 100.
Proof.
  destruct (update_progress_event t now jid pct st msg)
    as [e [Hq [Hj [Ht [_ [Hp _]]]]]].
  exists e. rewrite Hp. destruct (py_min_max_spec pct) as [H1 H2].
  repeat split; try assumption; apply H2.
Qed.

(** C6 (counterexample): three progress updates at 0%, 50% and 0%
    (seconds 0, 1, 2) give a history whose snapshots differ in percentage
    while the average speed is zero. *)
Lemma average_speed_counterexample :
  exists h s1 s2 s,
    PyDict.get "job" (job_progress speed_scenario) = Some h
    /\ In s1 (snapshots h) /\ In s2 (snapshots h)
    /\ ~ snap_percentage s1 == snap_percentage s2
    /\ get_average_speed h = Some s /\ s == 0.
Proof.
  vm_compute. do 4 eexists.
  split; [reflexivity|].
  split; [left; reflexivity|].
  split; [right; left; reflexivity|].
  split; [intro H; discriminate H|].
  split; reflexivity.
Qed.

(** C6 (amended): with fewer than two snapshots the average speed is
    [None]; otherwise, with [first] and [last] the oldest and newest
    snapshots, it is [(last.percent - first.percent) / (last.ts - first.ts)]
    when [last.ts > first.ts] (zero exactly when the two end percentages
    are equal, whatever the snapshots in between) and [None] when
    [last.ts <= first.ts]; the ETA is [now + (100 - current) / speed]
    exactly when the speed is defined and positive and [current < 100],
    and [None] otherwise. *)
Theorem average_speed_eta_spec (h : ProgressHistory) (now cur : Q) :
  ((List.length (snapshots h) < 2)%nat -> get_average_speed h = None)
  /\ (forall first mid last, snapshots h = (first :: mid ++ [last])%list ->
        (snap_timestamp first < snap_timestamp last ->
           exists s, get_average_speed h = Some s
             /\ s == (snap_percentage last - snap_percentage first)
                     / (snap_timestamp last - snap_timestamp first)
             /\ (s == 0 <-> snap_percentage last == snap_percentage first))
        /\ (snap_timestamp last <= snap_timestamp first ->
            get_average_speed h = None))
  /\ (forall s, get_average_speed h = Some s -> 0 < s -> cur < 100 ->
        estimate_completion h now cur = Some (now + (100 - cur) / s))
  /\ (forall x, estimate_completion h now cur = Some x ->
        exists s, get_average_speed h = Some s /\ 0 < s /\ cur < 100
          /\ x = now + (100 - cur) / s).
Proof.
  split; [|split; [|split]].
  - intros Hlen. unfold get_average_speed.
    destruct (snapshots h) as [|a [|b l]]; [reflexivity|reflexivity|].
    simpl in Hlen. lia.
  - intros first mid last Hs. rewrite (average_speed_shape h first mid last Hs).
    split.
    + intros Hlt.
      destruct (Qle_bool (snap_timestamp last - snap_timestamp first) 0) eqn:E.
      * apply Qle_bool_iff in E. lra.
      * eexists. split; [reflexivity|]. split; [reflexivity|].
        rewrite div_zero_iff by lra. split; intro; lra.
    + intros Hle.
      destruct (Qle_bool (snap_timestamp last - snap_timestamp first) 0) eqn:E;
        [reflexivity|].
      apply Qle_bool_false in E. lra.
  - intros s Hs Hpos Hcur. unfold estimate_completion. rewrite Hs.
    destruct (Qeq_bool s 0) eqn:E1; [apply Qeq_bool_iff in E1; lra|].
    destruct (Qle_bool s 0) eqn:E2; [apply Qle_bool_iff in E2; lra|].
    destruct (Qle_bool 100 cur) eqn:E3; [apply Qle_bool_iff in E3; lra|].
    reflexivity.
  - intros x. unfold estimate_completion.
    destruct (get_average_speed h) as [s|]; [|discriminate].
    destruct (Qeq_bool s 0), (Qle_bool s 0) eqn:E2, (Qle_bool 100 cur) eqn:E3;
      simpl; try discriminate.
    intros Hx. injection Hx as <-. exists s.
    split; [reflexivity|]. split; [apply Qle_bool_false; exact E2|].
    split; [apply Qle_bool_false; exact E3|reflexivity].
Qed.

(** Witness for C6: snapshots at 10% (second 0) and 60% (second 5) give a
    speed of 10 per second and an ETA from 60%. *)
Lemma average_speed_eta_spec_witness :
  exists s, get_average_speed two_snapshot_history = Some s /\ s == 10
    /\ estimate_completion two_snapshot_history 5 60 = Some (5 + (100 - 60) / s).
Proof.
  destruct (average_speed_eta_spec two_snapshot_history 5 60)
    as [_ [Hshape [Heta _]]].
  destruct (proj1 (Hshape (snap_at 10 0) [] (snap_at 60 5) eq_refl)
              ltac:(vm_compute; reflexivity)) as [s [Hs [Heq _]]].
  exists s. split; [exact Hs|]. split; [rewrite Heq; vm_compute; reflexivity|].
  apply Heta; [exact Hs| rewrite Heq; vm_compute; reflexivity | vm_compute; reflexivity].
Defined.

(** C9 (counterexample): [complete_job] then a late [update_progress] for
    the same job; after the worker drains the queue the job's history ends
    with the [PROGRESS] event recorded after the [COMPLETED] one, and the
    subscriber receives both, in that order. *)
Lemma terminal_event_not_last_counterexample :
  exists h, PyDict.get "job" (job_progress late_progress_scenario) = Some h
    /\ map event_type (events h) = [COMPLETED; PROGRESS]
    /\ map (fun d => (fst d, event_type (snd d))) (delivered late_progress_scenario)
       = [(7%nat, COMPLETED); (7%nat, PROGRESS)].
Proof.
  vm_compute. eexists. split; [reflexivity|]. split; reflexivity.
Qed.

(** C9 (amended): the event worker hands queued events to the callbacks
    in queue (submission) order, each event to the job's subscribers and
    then to the global ones; but a terminal event is not guaranteed to be
    the last one of its job: whenever a [COMPLETED], [ERROR] or
    [CANCELLED] event of a job is followed later in the queue by another
    event of the same job, the worker delivers that later event after the
    terminal one and records it in the job's history as its newest event;
    with no event of the job between the two, the history ends with the
    terminal event followed by the later one. *)
Theorem fifo_delivery_and_late_events (t : ProgressTracker) (now : Q) :
  delivered (worker_run now (List.length (event_queue t)) t)
  = (delivered t ++ fifo_deliveries t (event_queue t))%list
  /\ (forall (q1 : list ProgressEvent) (e1 : ProgressEvent)
             (q2 : list ProgressEvent) (e2 : ProgressEvent) (q3 : list ProgressEvent),
        event_queue t = (q1 ++ e1 :: q2 ++ e2 :: q3)%list ->
        is_terminal (event_type e1) = true ->
        job_id e2 = job_id e1 ->
        let t' := worker_run now (List.length q1 + 1 + List.length q2 + 1) t in
        delivered t' = (delivered t ++ fifo_deliveries t (q1 ++ e1 :: q2 ++ [e2]))%list
        /\ exists h,
             PyDict.get (job_id e1) (job_progress t') = Some h
             /\ (exists pre, events h = (pre ++ [e2])%list)
             /\ (Forall (fun e => job_id e <> job_id e1) q2 ->
                 exists pre, events h = (pre ++ [e1; e2])%list)).
Proof.
  split.
  - destruct (worker_run_fifo now (event_queue t) t eq_refl) as [_ [_ [_ H]]].
    exact H.
  - intros q1 e1 q2 e2 q3 Hq _ Hj t'. split.
    + assert (Hq' : event_queue t = ((q1 ++ e1 :: q2 ++ [e2]) ++ q3)%list).
      { rewrite Hq. rewrite <- app_assoc. simpl. rewrite <- app_assoc. reflexivity. }
      destruct (worker_run_prefix now _ t q3 Hq') as [_ [_ [_ [D _]]]].
      unfold t'.
      replace (List.length q1 + 1 + List.length q2 + 1)%nat
        with (List.length (q1 ++ e1 :: q2 ++ [e2]))
        by (rewrite !length_app; simpl; rewrite length_app; simpl; lia).
      exact D.
    + unfold t'. rewrite !worker_run_add.
      destruct (worker_run_prefix now q1 t (e1 :: q2 ++ e2 :: q3) Hq)
        as [Q1 _].
      set (T1 := worker_run now (List.length q1) t) in *.
      set (T2 := _process_event now (with_queue T1 (q2 ++ e2 :: q3)%list) e1).
      assert (W2 : worker_run now 1 T1 = T2)
        by (simpl; unfold worker_iteration; rewrite Q1; reflexivity).
      rewrite W2.
      destruct (process_event_history now (with_queue T1 (q2 ++ e2 :: q3)%list) e1)
        as [h1 [G1 E1]].
      fold T2 in G1.
      cbn [add_event events] in E1.
      destruct (deque_append_last (events match PyDict.get (job_id e1)
        (job_progress (with_queue T1 (q2 ++ e2 :: q3)%list)) with
        | Some h0 => h0 | None => empty_history end) e1) as [pre1 P1].
      rewrite P1 in E1.
      destruct (worker_run_prefix now q2 T2 (e2 :: q3) eq_refl)
        as [Q3 [_ [_ [_ F3]]]].
      set (T3 := worker_run now (List.length q2) T2) in *.
      assert (W4 : worker_run now 1 T3 = _process_event now (with_queue T3 q3) e2)
        by (simpl; unfold worker_iteration; rewrite Q3; reflexivity).
      rewrite W4.
      destruct (process_event_history now (with_queue T3 q3) e2) as [h4 [G4 E4]].
      rewrite Hj in G4, E4. exists h4. split; [exact G4|].
      cbn [add_event events job_progress with_queue] in E4.
      split.
      * destruct (deque_append_last (events match PyDict.get (job_id e1)
          (job_progress T3) with
          | Some h0 => h0 | None => empty_history end) e2) as [pre4 P4].
        exists pre4. rewrite E4. exact P4.
      * intros Hf. rewrite (F3 (job_id e1) Hf), G1 in E4.
        rewrite E1 in E4.
        destruct (deque_append_last2 pre1 e1 e2) as [pre' P'].
        exists pre'. rewrite E4. exact P'.
Qed.

(** Witness for C9: from the empty tracker, [complete_job] and then a late
    [update_progress] of the same job. *)
Lemma fifo_delivery_and_late_events_witness :
  let t := update_progress (complete_job empty_tracker 1 "job" "done") 2 "job" 50
             None None in
  exists e1 e2,
    event_queue t = ([] ++ e1 :: [] ++ e2 :: [])%list
    /\ is_terminal (event_type e1) = true /\ job_id e2 = job_id e1
    /\ exists h,
         PyDict.get (job_id e1) (job_progress (worker_run 3 (0 + 1 + 0 + 1) t)) = Some h
         /\ exists pre, events h = (pre ++ [e1; e2])%list.
Proof.
  intros t.
  match eval vm_compute in (event_queue t) with
  | [?a; ?b] => exists a, b
  end.
  assert (Hq : event_queue t = ([] ++ _ :: [] ++ _ :: [])%list)
    by (vm_compute; reflexivity).
  split; [exact Hq|]. split; [reflexivity|]. split; [reflexivity|].
  destruct (proj2 (fifo_delivery_and_late_events t 3) [] _ [] _ [] Hq
                  eq_refl eq_refl) as [_ [h [G [_ H]]]].
  exists h. split; [exact G|]. apply H. constructor.
Defined.

End TrackerClaims.

(* ------------------------------------------------------------------ *)
(** ** Dict lemmas for the extra properties *)

Module PyDictMore.
Import PyDictFacts ExtraSpec.

Lemma get_none_notin {V} (k : string) (d : PyDict.dict V) :
  ~ In k (keys d) -> PyDict.get k d = None.
Proof.
  induction d as [|[k' v'] r IH]; simpl; intros H; [reflexivity|].
  destruct (String.eqb k k') eqn:E.
  - apply String.eqb_eq in E. subst. exfalso. apply H. left. reflexivity.
  - apply IH. intro C. apply H. right. exact C.
Qed.

Lemma get_some_in {V} (k : string) (v : V) (d : PyDict.dict V) :
  PyDict.get k d = Some v -> In (k, v) d.
Proof.
  induction d as [|[k' v'] r IH]; simpl; intros H; [discriminate|].
  destruct (String.eqb k k') eqn:E.
  - apply String.eqb_eq in E. subst. inversion H; subst. left. reflexivity.
  - right. apply IH. exact H.
Qed.

Lemma in_get_nodup {V} (k : string) (v : V) (d : PyDict.dict V) :
  NoDup (keys d) -> In (k, v) d -> PyDict.get k d = Some v.
Proof.
  induction d as [|[k' v'] r IH]; simpl; intros Hn H; [contradiction|].
  inversion Hn as [|? ? Hnot Hr]; subst.
  destruct H as [H|H].
  - inversion H; subst. rewrite String.eqb_refl. reflexivity.
  - destruct (String.eqb k k') eqn:E.
    + apply String.eqb_eq in E. subst. exfalso. apply Hnot.
      apply (in_map fst) in H. exact H.
    + apply IH; assumption.
Qed.

Lemma keys_set {V} (k : string) (v : V) (d : PyDict.dict V) (k2 : string) :
  In k2 (keys (PyDict.set k v d)) <-> k2 = k \/ In k2 (keys d).
Proof.
  induction d as [|[k' v'] r IH]; simpl.
  - split; intros [H|[]]; left; congruence.
  - destruct (String.eqb k k') eqn:E; simpl.
    + apply String.eqb_eq in E. subst. split.
      * intros [H|H]; [left; congruence|right; right; exact H].
      * intros [H|[H|H]]; [left; congruence|left; exact H|right; exact H].
    + rewrite IH. tauto.
Qed.

Lemma nodup_set {V} (k : string) (v : V) (d : PyDict.dict V) :
  NoDup (keys d) -> NoDup (keys (PyDict.set k v d)).
Proof.
  induction d as [|[k' v'] r IH]; simpl; intros H.
  - constructor; [intros []|constructor].
  - inversion H as [|? ? Hnot Hr]; subst.
    destruct (String.eqb k k') eqn:E; simpl.
    + constructor; assumption.
    + constructor; [|apply IH; exact Hr].
      intro C. apply (proj1 (keys_set k v r k')) in C.
      destruct C as [C|C]; [subst; rewrite String.eqb_refl in E; discriminate|].
      contradiction.
Qed.

Lemma keys_del {V} (k : string) (d : PyDict.dict V) (k2 : string) :
  In k2 (keys (PyDict.del k d)) -> In k2 (keys d).
Proof.
  induction d as [|[k' v'] r IH]; simpl; [tauto|].
  destruct (String.eqb k k'); simpl; tauto.
Qed.

Lemma nodup_del {V} (k : string) (d : PyDict.dict V) :
  NoDup (keys d) -> NoDup (keys (PyDict.del k d)).
Proof.
  induction d as [|[k' v'] r IH]; simpl; intros H; [constructor|].
  inversion H as [|? ? Hnot Hr]; subst.
  destruct (String.eqb k k'); simpl; [exact Hr|].
  constructor; [|apply IH; exact Hr].
  intro C. apply Hnot. apply (keys_del k). exact C.
Qed.

Lemma get_del_same {V} (k : string) (d : PyDict.dict V) :
  NoDup (keys d) -> PyDict.get k (PyDict.del k d) = None.
Proof.
  induction d as [|[k' v'] r IH]; simpl; intros H; [reflexivity|].
  inversion H as [|? ? Hnot Hr]; subst.
  destruct (String.eqb k k') eqn:E; simpl.
  - apply String.eqb_eq in E. subst. apply get_none_notin. exact Hnot.
  - rewrite E. apply IH. exact Hr.
Qed.

Lemma get_del_other {V} (k k2 : string) (d : PyDict.dict V) :
  k2 <> k -> PyDict.get k2 (PyDict.del k d) = PyDict.get k2 d.
Proof.
  intros Hne. induction d as [|[k' v'] r IH]; simpl; [reflexivity|].
  destruct (String.eqb k k') eqn:E; simpl.
  - apply String.eqb_eq in E. subst.
    destruct (String.eqb k2 k') eqn:E2; [apply String.eqb_eq in E2; congruence|].
    reflexivity.
  - rewrite IH. reflexivity.
Qed.

End PyDictMore.

(* ------------------------------------------------------------------ *)
(** ** Profile lookup, listing and settings *)

Module ProfileOpsClaims.
Import PyDictFacts PyDictMore MotionDetector CompressionProfiles ProfileSpec
  ProfileManagerOps AdaptiveCompressor ExtraSpec.

Lemma add_all_fields (adds : list (string * ActivityCompressionProfile)) :
  forall m, profiles (add_all adds m) = profiles m
            /\ custom_profiles (add_all adds m) = set_all adds (custom_profiles m).
Proof.
  unfold add_all, set_all.
  induction adds as [|[nm p] r IH]; intros m; simpl; [split; reflexivity|].
  destruct (IH (create_custom_profile m nm p)) as [H1 H2].
  split; [exact H1|exact H2].
Qed.

Lemma set_all_nodup (adds : list (string * ActivityCompressionProfile)) :
  forall d, NoDup (keys d) -> NoDup (keys (set_all adds d)).
Proof.
  unfold set_all.
  induction adds as [|[nm p] r IH]; intros d H; simpl; [exact H|].
  apply IH. apply nodup_set. exact H.
Qed.

Lemma set_all_notin (adds : list (string * ActivityCompressionProfile)) (nm : string) :
  ~ In nm (map fst adds) ->
  forall d, PyDict.get nm (set_all adds d) = PyDict.get nm d.
Proof.
  unfold set_all.
  induction adds as [|[k p] r IH]; intros H d; simpl; [reflexivity|].
  simpl in H. rewrite IH by tauto. apply dict_get_set_other. intro C.
  apply H. left. congruence.
Qed.

Lemma custom_prefix_inj (a b : string) : "custom_" ++ a = "custom_" ++ b -> a = b.
Proof. simpl. intros H. inversion H. reflexivity. Qed.

Lemma fold_custom_get (nm : string) :
  forall d acc, NoDup (keys d) ->
  PyDict.get ("custom_" ++ nm) (fold_left set_custom d acc)
  = match PyDict.get nm d with
    | Some p => Some p
    | None => PyDict.get ("custom_" ++ nm) acc
    end.
Proof.
  induction d as [|[k p] r IH]; intros acc Hn; simpl; [reflexivity|].
  inversion Hn as [|? ? Hnot Hr]; subst.
  rewrite IH by exact Hr.
  destruct (String.eqb nm k) eqn:E.
  - apply String.eqb_eq in E. subst.
    rewrite (get_none_notin k r Hnot). apply dict_get_set.
  - destruct (PyDict.get nm r); [reflexivity|].
    apply dict_get_set_other. intro C. apply custom_prefix_inj in C.
    subst. rewrite String.eqb_refl in E. discriminate.
Qed.

Lemma fold_custom_other (k : string) :
  (forall nm, k <> "custom_" ++ nm) ->
  forall d acc, PyDict.get k (fold_left set_custom d acc) = PyDict.get k acc.
Proof.
  intros Hk. induction d as [|[nm p] r IH]; intros acc; simpl; [reflexivity|].
  rewrite IH. apply dict_get_set_other. apply Hk.
Qed.

Lemma list_all_profiles_eq (m : CompressionProfileManager) :
  list_all_profiles m
  = fold_left set_custom (custom_profiles m)
      (fold_left (fun acc '(pt, p) => PyDict.set (profile_value pt) p acc)
         (profiles m) []).
Proof. reflexivity. Qed.

Lemma validate_settings_ok (s : CompressionSettings) :
  validate_settings s = Ok true <->
  ((0 <= crf s <= 51)%Z /\ (1 <= fps s <= 60)%Z
   /\ str_in (preset s) valid_presets = true
   /\ str_in (profile s) valid_profiles = true).
Proof.
  unfold validate_settings.
  destruct ((0 <=? crf s) && (crf s <=? 51))%Z eqn:E1; cbn [negb andb];
    [|split; [discriminate|]; intros (H & _); apply andb_false_iff in E1;
      destruct E1 as [E|E]; apply Z.leb_gt in E; lia].
  apply andb_true_iff in E1. destruct E1 as [E1 E1'].
  apply Z.leb_le in E1. apply Z.leb_le in E1'.
  destruct ((1 <=? fps s) && (fps s <=? 60))%Z eqn:E2; cbn [negb andb];
    [|split; [discriminate|]; intros (_ & H & _); apply andb_false_iff in E2;
      destruct E2 as [E|E]; apply Z.leb_gt in E; lia].
  apply andb_true_iff in E2. destruct E2 as [E2 E2'].
  apply Z.leb_le in E2. apply Z.leb_le in E2'.
  destruct (str_in (preset s) valid_presets) eqn:E3; cbn [negb andb];
    [|split; [discriminate|]; intros (_ & _ & H & _); discriminate].
  destruct (str_in (profile s) valid_profiles) eqn:E4; cbn [negb andb];
    [|split; [discriminate|]; intros (_ & _ & _ & H); discriminate].
  split; [intros _; split; [lia|split; [lia|split; reflexivity]]|reflexivity].
Qed.

Lemma validate_profile_ok (p : ActivityCompressionProfile) :
  validate_profile p = Ok true ->
  forall lvl, validate_settings (get_settings_for_activity p lvl) = Ok true.
Proof.
  unfold validate_profile. intros H lvl.
  destruct (validate_settings (high_activity p)) as [[]|] eqn:E1;
    try discriminate;
  destruct (validate_settings (medium_activity p)) as [[]|] eqn:E2;
    try discriminate;
  destruct (validate_settings (low_activity p)) as [[]|] eqn:E3;
    try discriminate;
  destruct (validate_settings (inactive p)) as [[]|] eqn:E4;
    try discriminate;
  destruct (nondecreasing (profile_crfs p)); try discriminate;
  try (destruct lvl; simpl; assumption);
  (* [validate_settings] never returns [Ok false] *)
  exfalso; unfold validate_settings in *;
  repeat match goal with
         | H : (if ?c then _ else _) = Ok false |- _ => destruct c; try discriminate
         end.
Qed.

Lemma speed_factor_pos (pt : CompressionProfile) : 0 < speed_factor pt.
Proof. destruct pt; reflexivity. Qed.

(** [get_profile] on a manager reached by [create_custom_profile] calls:
    each built-in profile type returns its default profile whatever
    custom name is passed, and [CUSTOM] without a (non-empty) name raises
    the unsupported-type [ValueError], since [CUSTOM] is not a key of
    [self.profiles]. *)
Theorem get_profile_builtin (adds : list (string * ActivityCompressionProfile)) :
  let m := add_all adds init_manager in
  (forall pt p cn, In (pt, p) _create_default_profiles -> get_profile m pt cn = Ok p)
  /\ get_profile m CUSTOM None
     = Err (ValueError "Profile type 'CompressionProfile.CUSTOM' not supported")
  /\ get_profile m CUSTOM (Some "")
     = Err (ValueError "Profile type 'CompressionProfile.CUSTOM' not supported").
Proof.
  intros m. destruct (add_all_fields adds init_manager) as [Hp _].
  fold m in Hp. simpl in Hp.
  unfold get_profile. rewrite Hp. split; [|split; reflexivity].
  intros pt p cn Hin.
  simpl in Hin.
  destruct Hin as [H|[H|[H|[]]]]; inversion H; subst;
    destruct cn; reflexivity.
Qed.

Lemma get_profile_builtin_witness :
  get_profile (add_all [("mine", balanced_profile)] init_manager) AGGRESSIVE
    (Some "mine") = Ok aggressive_profile.
Proof.
  apply (proj1 (get_profile_builtin [("mine", balanced_profile)])).
  simpl. tauto.
Defined.

(** [create_custom_profile] then [get_profile(CUSTOM, name)] returns the
    stored profile for a non-empty name; a non-empty name never stored
    raises the not-found [ValueError]. *)
Theorem get_profile_custom_roundtrip
    (adds : list (string * ActivityCompressionProfile)) (nm : string) :
  nm <> "" ->
  let m := add_all adds init_manager in
  (forall p, get_profile (create_custom_profile m nm p) CUSTOM (Some nm) = Ok p)
  /\ (~ In nm (map fst adds) ->
      get_profile m CUSTOM (Some nm)
      = Err (ValueError ("Custom profile '" ++ nm ++ "' not found"))).
Proof.
  intros Hnm m.
  assert (Hne : String.eqb nm "" = false) by (apply String.eqb_neq; exact Hnm).
  unfold get_profile. simpl. rewrite Hne. simpl. split.
  - intros p. rewrite dict_get_set. reflexivity.
  - intros Hnot. destruct (add_all_fields adds init_manager) as [_ Hc].
    fold m in Hc. rewrite Hc. simpl.
    rewrite (set_all_notin adds nm Hnot). reflexivity.
Qed.

Lemma get_profile_custom_roundtrip_witness :
  "night" <> ""
  /\ get_profile (create_custom_profile (add_all [] init_manager) "night"
                    aggressive_profile) CUSTOM (Some "night") = Ok aggressive_profile.
Proof.
  split; [discriminate|].
  apply (proj1 (get_profile_custom_roundtrip [] "night" ltac:(discriminate))).
Defined.

(** [list_all_profiles] on a manager reached by [create_custom_profile]
    calls: each built-in profile is listed under its value, and every
    custom profile under ["custom_" + name] (a name absent from the
    custom profiles has no such key). *)
Theorem list_all_profiles_lookup (adds : list (string * ActivityCompressionProfile)) :
  let m := add_all adds init_manager in
  (forall pt p, In (pt, p) _create_default_profiles ->
     PyDict.get (profile_value pt) (list_all_profiles m) = Some p)
  /\ (forall nm, PyDict.get ("custom_" ++ nm) (list_all_profiles m)
                 = PyDict.get nm (custom_profiles m)).
Proof.
  intros m. destruct (add_all_fields adds init_manager) as [Hp Hc].
  fold m in Hp, Hc. simpl in Hp, Hc.
  assert (Hn : NoDup (keys (custom_profiles m))).
  { rewrite Hc. apply set_all_nodup. constructor. }
  rewrite list_all_profiles_eq, Hp. split.
  - intros pt p Hin. simpl in Hin.
    destruct Hin as [H|[H|[H|[]]]]; inversion H; subst;
      (rewrite fold_custom_other; [reflexivity|intros nm C; simpl in C; discriminate C]).
  - intros nm. rewrite fold_custom_get by exact Hn.
    destruct (PyDict.get nm (custom_profiles m)); [reflexivity|].
    reflexivity.
Qed.

Lemma list_all_profiles_lookup_witness :
  PyDict.get "balanced" (list_all_profiles (add_all [] init_manager))
  = Some balanced_profile.
Proof.
  apply (proj1 (list_all_profiles_lookup []) BALANCED). simpl. tauto.
Defined.

(** The settings [_compress_adaptive_segments] uses for any segment pass
    [validate_settings] when the job's profile passes [validate_profile]
    and the ROI quality boost is not negative: the ROI adjustment keeps
    the CRF within 0-51 and leaves FPS, preset and profile unchanged. *)
Theorem segment_settings_valid (roi : ROICompressionSettings)
    (job_profile : ActivityCompressionProfile) (roi_enabled : bool)
    (segment : ActivitySegment) :
  (0 <= roi_quality_boost roi)%Z ->
  validate_profile job_profile = Ok true ->
  validate_settings (segment_settings roi job_profile roi_enabled segment) = Ok true.
Proof.
  intros Hb Hp.
  pose proof (validate_profile_ok job_profile Hp (activity_level_of segment)) as Hs.
  unfold segment_settings.
  destruct roi_enabled; [|exact Hs].
  unfold adjust_settings_for_roi.
  destruct (negb (enable_roi_compression roi)
            || negb (Qgt_bool (motion_intensity segment) (2 # 100))); [exact Hs|].
  apply validate_settings_ok in Hs. apply validate_settings_ok. simpl.
  destruct Hs as (H1 & H2 & H3 & H4). repeat split; try assumption; lia.
Qed.

Lemma segment_settings_valid_witness :
  (0 <= roi_quality_boost default_roi_settings)%Z
  /\ validate_profile aggressive_profile = Ok true
  /\ validate_settings
       (segment_settings default_roi_settings aggressive_profile true
          {| start_time := 0; end_time := 10; activity_level_of := Inactive;
             motion_intensity := 1 # 2; frame_start := 0; frame_end := 300 |})
     = Ok true.
Proof.
  split; [vm_compute; discriminate|]. split; [vm_compute; reflexivity|].
  apply segment_settings_valid; [vm_compute; discriminate|vm_compute; reflexivity].
Defined.

(** For a positive video duration the processing-time estimate orders
    the profiles: aggressive is fastest, then balanced, then
    conservative; [CUSTOM] gets the default factor 0.5, the balanced
    estimate. *)
Theorem processing_time_order (duration : Q) :
  0 < duration ->
  _estimate_processing_time duration AGGRESSIVE
    < _estimate_processing_time duration BALANCED
  /\ _estimate_processing_time duration BALANCED
    < _estimate_processing_time duration CONSERVATIVE
  /\ _estimate_processing_time duration CUSTOM
    == _estimate_processing_time duration BALANCED.
Proof.
  intros Hd. unfold _estimate_processing_time, speed_factor.
  setoid_replace (duration / 60 / (8 # 10)) with (duration * (1 # 48)) by field.
  setoid_replace (duration / 60 / (5 # 10)) with (duration * (1 # 30)) by field.
  setoid_replace (duration / 60 / (3 # 10)) with (duration * (1 # 18)) by field.
  repeat split; try lra; reflexivity.
Qed.

Lemma processing_time_order_witness :
  0 < 3600 /\ _estimate_processing_time 3600 AGGRESSIVE
              < _estimate_processing_time 3600 BALANCED.
Proof.
  split; [reflexivity|]. apply (proj1 (processing_time_order 3600 ltac:(reflexivity))).
Defined.

End ProfileOpsClaims.

(* ------------------------------------------------------------------ *)
(** ** The profile recommendation of video_analyzer.py *)

Module AnalyzerRecClaims.
Import MotionDetector CompressionProfiles ProgressTracker VideoAnalyzer.

Lemma Qgt_bool_iff (a b : Q) : Qgt_bool a b = true <-> b < a.
Proof.
  unfold Qgt_bool. rewrite negb_true_iff. split.
  - intros H. apply Qnot_le_lt. intro C. apply Qle_bool_iff in C. congruence.
  - intros H. destruct (Qle_bool a b) eqn:E; [|reflexivity].
    apply Qle_bool_iff in E. exfalso. exact (Qlt_not_le _ _ H E).
Qed.

(** [_calculate_recommendation_confidence] is always between 0.5 and 1:
    the base 0.5 plus non-negative bonuses, capped by [min(1.0, ...)]. *)
Theorem recommendation_confidence_range (activity_ratio file_size_mb duration_hours : Q) :
  1 # 2 <= _calculate_recommendation_confidence activity_ratio file_size_mb duration_hours
  <= 1.
Proof.
  unfold _calculate_recommendation_confidence, py_min.
  set (c1 := if Qgt_bool activity_ratio (8 # 10) || Qgt_bool (2 # 10) activity_ratio
             then (1 # 2) + (3 # 10)
             else if Qgt_bool activity_ratio (6 # 10) || Qgt_bool (4 # 10) activity_ratio
             then (1 # 2) + (1 # 10) else 1 # 2).
  assert (H1 : 1 # 2 <= c1).
  { unfold c1. destruct (_ || _); [lra|]. destruct (_ || _); lra. }
  set (c2 := if Qgt_bool duration_hours 12 then c1 + (2 # 10)
             else if Qgt_bool duration_hours 6 then c1 + (1 # 10) else c1).
  assert (H2 : 1 # 2 <= c2).
  { unfold c2. destruct (Qgt_bool duration_hours 12); [lra|].
    destruct (Qgt_bool duration_hours 6); lra. }
  destruct (Qle_bool 1 c2) eqn:E.
  - split; [lra|apply Qle_refl].
  - split; [exact H2|]. apply Qlt_le_weak. apply Qnot_le_lt.
    intro C. apply Qle_bool_iff in C. congruence.
Qed.

(** The profile recommendation of [_generate_compression_recommendations]
    is one of the three built-in profile names; a file over 1000 MB is
    never recommended the conservative profile, and a file under 100 MB
    never the aggressive one. *)
Theorem profile_recommendation_adjusted (activity_ratio file_size_mb duration : Q) :
  let '(recommended, _, _) := profile_recommendation activity_ratio file_size_mb duration in
  (recommended = "conservative" \/ recommended = "balanced"
   \/ recommended = "aggressive")
  /\ (1000 < file_size_mb -> recommended <> "conservative")
  /\ (file_size_mb < 100 -> recommended <> "aggressive").
Proof.
  unfold profile_recommendation.
  assert (Hf : forall a b : Q, Qgt_bool a b = false -> a <= b).
  { intros a b H. unfold Qgt_bool in H. apply negb_false_iff in H.
    apply Qle_bool_iff. exact H. }
  destruct (Qgt_bool activity_ratio (7 # 10)) eqn:A1;
  [|destruct (Qgt_bool (3 # 10) activity_ratio) eqn:A2];
  destruct (Qgt_bool file_size_mb 1000) eqn:F1;
  try destruct (Qgt_bool 100 file_size_mb) eqn:F2; simpl.
  all: split; [first [left; reflexivity | right; left; reflexivity
                     | right; right; reflexivity]|].
  all: split; intros H C; try discriminate C.
  all: repeat match goal with
         | E : Qgt_bool _ _ = false |- _ => apply Hf in E
         | E : Qgt_bool _ _ = true |- _ => apply Qgt_bool_iff in E
         end; lra.
Qed.

Lemma profile_recommendation_adjusted_witness :
  let '(recommended, _, _) := profile_recommendation (9 # 10) 2000 7200 in
  recommended <> "conservative".
Proof.
  pose proof (profile_recommendation_adjusted (9 # 10) 2000 7200) as H.
  destruct (profile_recommendation (9 # 10) 2000 7200) as [[r ?] ?].
  destruct H as (_ & H & _). apply H. reflexivity.
Defined.

End AnalyzerRecClaims.

(* ------------------------------------------------------------------ *)
(** ** Time facts of the segment chain *)

Module MotionMore.
Import MotionDetector MotionSpec MotionDetectorFacts MotionClaims ExtraSpec.

Lemma Qsum_app (l1 l2 : list Q) : Qsum (l1 ++ l2)%list == Qsum l1 + Qsum l2.
Proof.
  induction l1 as [|x r IH]; simpl; [ring|]. rewrite IH. ring.
Qed.

Lemma Qsum_rev (l : list Q) : Qsum (rev l) == Qsum l.
Proof.
  induction l as [|x r IH]; simpl; [reflexivity|].
  rewrite Qsum_app, IH. simpl. ring.
Qed.

Lemma fps_nonzero (fps : Q) : 0 < fps -> ~ fps == 0.
Proof. intros Hf C. rewrite C in Hf. exact (Qlt_irrefl 0 Hf). Qed.

Lemma frames_div_lt (fps : Q) (a b : nat) :
  0 < fps -> (a < b)%nat ->
  inject_Z (Z.of_nat a) / fps < inject_Z (Z.of_nat b) / fps.
Proof.
  intros Hf H. apply Qlt_shift_div_l; [exact Hf|].
  setoid_replace (inject_Z (Z.of_nat a) / fps * fps) with (inject_Z (Z.of_nat a))
    by (field; apply fps_nonzero; exact Hf).
  rewrite <- Zlt_Qlt. lia.
Qed.

Lemma frames_div_le (fps : Q) (a b : nat) :
  0 < fps -> (a <= b)%nat ->
  inject_Z (Z.of_nat a) / fps <= inject_Z (Z.of_nat b) / fps.
Proof.
  intros Hf H. apply Qle_shift_div_l; [exact Hf|].
  setoid_replace (inject_Z (Z.of_nat a) / fps * fps) with (inject_Z (Z.of_nat a))
    by (field; apply fps_nonzero; exact Hf).
  rewrite <- Zle_Qle. lia.
Qed.

Lemma frames_div_nonneg (fps : Q) (a : nat) :
  0 < fps -> 0 <= inject_Z (Z.of_nat a) / fps.
Proof.
  intros Hf. apply Qle_shift_div_l; [exact Hf|].
  rewrite Qmult_0_l. unfold Qle. simpl. lia.
Qed.

Lemma chain_last (fps : Q) : forall segs a b,
  chain fps a segs b ->
  forall s rest, rev segs = s :: rest -> end_time s = inject_Z (Z.of_nat b) / fps.
Proof.
  induction segs as [|x r IH]; intros a b H s rest Hr; [discriminate|].
  simpl in H. destruct H as (_ & _ & _ & He & Hc).
  destruct r as [|y r'].
  - simpl in Hr. inversion Hr; subst. simpl in Hc. subst. exact He.
  - change (rev (x :: y :: r')) with (rev (y :: r') ++ [x])%list in Hr.
    destruct (rev (y :: r')) as [|z zs] eqn:Ez.
    + apply (f_equal (@List.length _)) in Ez. rewrite length_rev in Ez.
      discriminate.
    + simpl in Hr. inversion Hr; subst.
      exact (IH (frame_end x) b Hc s zs eq_refl).
Qed.

Lemma chain_nonempty_segs (fps : Q) (segs : list ActivitySegment) (n : nat) :
  chain fps 0 segs n -> (0 < n)%nat -> segs <> [].
Proof. destruct segs; simpl; [lia|discriminate]. Qed.

(** The sleep and active periods and the ratio [analyze_video] returns. *)
Lemma analyze_video_periods (fps : Q) (frame_count : nat)
    (reads : list (option frame_measure)) (r : MotionAnalysisResult) :
  analyze_video fps frame_count reads = Ok r ->
  _identify_sleep_wake_cycles (activity_segments r) = Ok (sleep_periods r, active_periods r)
  /\ overall_activity_ratio r
     = if Qlt_le_dec 0 (total_duration r)
       then Qsum (map period_len (active_periods r)) / total_duration r else 0.
Proof.
  unfold analyze_video. intros H.
  destruct (Qeq_bool fps 0); [discriminate|].
  destruct (_generate_activity_segments (read_loop false reads) fps) eqn:G;
    [|discriminate].
  destruct (_identify_sleep_wake_cycles a) as [[sl ac]|] eqn:S; [|discriminate].
  inversion H; subst; clear H. simpl. split; [exact S|reflexivity].
Qed.

(** The facts of an analysis result used below, for a positive frame rate. *)
Lemma analysis_chain (fps : Q) (frame_count : nat)
    (reads : list (option frame_measure)) (r : MotionAnalysisResult) :
  analyze_video fps frame_count reads = Ok r ->
  chain fps 0 (activity_segments r) (List.length (motion_timeline r))
  /\ (0 < List.length (motion_timeline r))%nat.
Proof.
  intros H. destruct (analyze_video_ok _ _ _ _ H) as (_ & Hg & Ht & _).
  rewrite Ht. destruct (generate_chain _ _ _ Hg) as [Hc Hne].
  split; [exact Hc|]. destruct (read_loop false reads); [congruence|simpl; lia].
Qed.

Lemma chain_times (fps : Q) : 0 < fps -> forall segs a b,
  chain fps a segs b -> Forall (fun s => start_time s < end_time s) segs.
Proof.
  intros Hf. induction segs as [|s r IH]; intros a b H; simpl in H; constructor.
  - destruct H as (H1 & H2 & H3 & H4 & _). rewrite H3, H4.
    apply frames_div_lt; assumption.
  - destruct H as (_ & _ & _ & _ & H5). exact (IH _ _ H5).
Qed.

End MotionMore.

(* ------------------------------------------------------------------ *)
(** ** Sleep and active periods, segment lengths *)

Module SleepWakeClaims.
Import MotionDetector MotionSpec MotionDetectorFacts MotionClaims ExtraSpec MotionMore.

Lemma sleep_fold (segs : list ActivitySegment) :
  forall (ci ca : option Q) (sl ac : list period),
  Forall (fun p => 30 <= snd p - fst p) sl ->
  let '(_, _, sl', _) := fold_left sleep_wake_step segs (ci, ca, sl, ac) in
  Forall (fun p => 30 <= snd p - fst p) sl'.
Proof.
  induction segs as [|s r IH]; intros ci ca sl ac H; [exact H|]. cbn [fold_left].
  destruct (sleep_wake_step (ci, ca, sl, ac) s) as [[[ci1 ca1] sl1] ac1] eqn:Hs.
  apply IH. unfold sleep_wake_step in Hs.
  destruct (activity_level_of s); destruct ci as [x|]; destruct ca;
    try destruct (Qle_bool min_inactive_duration (start_time s - x)) eqn:E;
    inversion Hs; subst;
    first [exact H | constructor; [apply Qle_bool_iff in E; exact E | exact H]].
Qed.

(** Every sleep period [_identify_sleep_wake_cycles] reports lasts at
    least [min_inactive_duration] = 30 seconds; shorter inactive
    stretches are dropped. *)
Theorem sleep_periods_min_duration (segments : list ActivitySegment)
    (sleep active : list period) :
  _identify_sleep_wake_cycles segments = Ok (sleep, active) ->
  Forall (fun p => 30 <= snd p - fst p) sleep.
Proof.
  unfold _identify_sleep_wake_cycles. intros H.
  pose proof (sleep_fold segments None None [] [] (Forall_nil _)) as Hf.
  revert Hf H.
  destruct (fold_left sleep_wake_step segments (None, None, [], []))
    as [[[ci ca] sl] ac].
  intros Hf H.
  destruct ci as [x|]; [|destruct ca as [a|]].
  all: try (inversion H; subst; apply Forall_rev; exact Hf).
  all: destruct (rev segments) as [|last rest]; simpl in H; [inversion H|].
  all: inversion H; subst; apply Forall_rev.
  all: try exact Hf.
  destruct (Qle_bool min_inactive_duration (end_time last - x)) eqn:E;
    [|exact Hf].
  constructor; [|exact Hf]. apply Qle_bool_iff in E. exact E.
Qed.

Lemma sleep_periods_min_duration_witness :
  _identify_sleep_wake_cycles
    [{| start_time := 0; end_time := 40; activity_level_of := Inactive;
        motion_intensity := 0; frame_start := 0; frame_end := 40 |};
     {| start_time := 40; end_time := 50; activity_level_of := High;
        motion_intensity := 1 # 10; frame_start := 40; frame_end := 50 |}]
  = Ok ([(0, 40)], [(40, 50)])
  /\ Forall (fun p => 30 <= snd p - fst p) [(0, 40)].
Proof.
  split; [vm_compute; reflexivity|].
  apply (sleep_periods_min_duration
    [{| start_time := 0; end_time := 40; activity_level_of := Inactive;
        motion_intensity := 0; frame_start := 0; frame_end := 40 |};
     {| start_time := 40; end_time := 50; activity_level_of := High;
        motion_intensity := 1 # 10; frame_start := 40; frame_end := 50 |}]
    _ [(40, 50)]).
  vm_compute. reflexivity.
Defined.

Lemma Qsum_len_nonneg (l : list period) :
  Forall (fun p => fst p <= snd p) l -> 0 <= Qsum (map period_len l).
Proof.
  induction 1 as [|p r Hp _ IH]; simpl; [apply Qle_refl|].
  unfold period_len at 1. lra.
Qed.

Lemma sleep_wake_step_active (ci ca : option Q) (sl ac : list period)
    (s : ActivitySegment) :
  let '(_, ca1, _, ac1) := sleep_wake_step (ci, ca, sl, ac) s in
  (ca1 = None
   /\ ac1 = match ca with Some a => (a, start_time s) :: ac | None => ac end)
  \/ (ca1 = Some (match ca with Some a => a | None => start_time s end) /\ ac1 = ac).
Proof.
  unfold sleep_wake_step.
  destruct (activity_level_of s); destruct ci as [x|]; destruct ca;
    try destruct (Qle_bool min_inactive_duration (start_time s - x));
    first [left; split; reflexivity | right; split; reflexivity].
Qed.

Lemma active_fold (fps : Q) (Hf : 0 < fps) : forall segs a b (ci ca : option Q) (sl ac : list period),
  chain fps a segs b ->
  Forall (fun p => fst p <= snd p) ac ->
  Qsum (map period_len ac) + open_len ca (inject_Z (Z.of_nat a) / fps)
    <= inject_Z (Z.of_nat a) / fps ->
  (forall x, ca = Some x -> 0 <= x <= inject_Z (Z.of_nat a) / fps) ->
  let '(_, ca', _, ac') := fold_left sleep_wake_step segs (ci, ca, sl, ac) in
  Forall (fun p => fst p <= snd p) ac'
  /\ Qsum (map period_len ac') + open_len ca' (inject_Z (Z.of_nat b) / fps)
     <= inject_Z (Z.of_nat b) / fps
  /\ (forall x, ca' = Some x -> 0 <= x <= inject_Z (Z.of_nat b) / fps).
Proof.
  induction segs as [|s r IH]; intros a b ci ca sl ac Hc Hac Hsum Hca.
  - simpl in Hc. subst. cbn [fold_left]. auto.
  - simpl in Hc. destruct Hc as (H1 & H2 & H3 & H4 & H5). cbn [fold_left].
    set (T := inject_Z (Z.of_nat a) / fps) in *.
    set (T' := inject_Z (Z.of_nat (frame_end s)) / fps).
    assert (HT : T < T') by (unfold T, T'; apply frames_div_lt; [exact Hf|lia]).
    assert (HT0 : 0 <= T) by (apply frames_div_nonneg; exact Hf).
    pose proof (sleep_wake_step_active ci ca sl ac s) as Hstep.
    revert Hstep.
    destruct (sleep_wake_step (ci, ca, sl, ac) s) as [[[ci1 ca1] sl1] ac1].
    intros Hstep.
    apply (IH (frame_end s)); [exact H5| | |]; fold T'; rewrite H3 in Hstep.
    all: destruct Hstep as [[Hca1 Hac1]|[Hca1 Hac1]]; subst ca1 ac1.
    all: destruct ca as [y|].
    all: try (assert (Hy : 0 <= y <= T) by (apply Hca; reflexivity)).
    all: cbn [open_len map Qsum] in Hsum |- *.
    all: try exact Hac.
    all: try (constructor; [simpl; lra|exact Hac]).
    all: try (unfold period_len at 1; simpl; lra).
    all: try lra.
    all: intros x Hx; inversion Hx; subst; lra.
Qed.

(** The active periods of an analysis with a positive frame rate run
    forwards and add up to at most the length of the decoded timeline in
    seconds, so the activity ratio is not negative, and it is at most 1
    when [CAP_PROP_FRAME_COUNT] is not below the number of decoded
    frames. *)
Theorem activity_ratio_bounds (fps : Q) (frame_count : nat)
    (reads : list (option frame_measure)) (r : MotionAnalysisResult) :
  0 < fps ->
  analyze_video fps frame_count reads = Ok r ->
  Forall (fun p => fst p <= snd p) (active_periods r)
  /\ 0 <= Qsum (map period_len (active_periods r))
  /\ Qsum (map period_len (active_periods r)) <= Qlen (motion_timeline r) / fps
  /\ 0 <= overall_activity_ratio r
  /\ ((List.length (motion_timeline r) <= frame_count)%nat ->
      overall_activity_ratio r <= 1).
Proof.
  intros Hf H.
  destruct (analysis_chain _ _ _ _ H) as [Hc Hn].
  destruct (analyze_video_ok _ _ _ _ H) as (_ & _ & _ & Hd & _).
  destruct (analyze_video_periods _ _ _ _ H) as [Hsw Hratio].
  set (n := List.length (motion_timeline r)) in *.
  set (segs := activity_segments r) in *.
  assert (Hper : Forall (fun p => fst p <= snd p) (active_periods r)
                 /\ Qsum (map period_len (active_periods r))
                    <= inject_Z (Z.of_nat n) / fps).
  { pose proof (active_fold fps Hf segs 0 n None None [] [] Hc (Forall_nil _))
      as Hfold.
    simpl in Hfold.
    assert (H0 : 0 + 0 <= 0 / fps) by (unfold Qdiv; rewrite Qmult_0_l; lra).
    specialize (Hfold H0 (fun x Hx => ltac:(discriminate))).
    unfold _identify_sleep_wake_cycles in Hsw.
    destruct (fold_left sleep_wake_step segs (None, None, [], []))
      as [[[ci ca] sl] ac].
    destruct Hfold as (Hac & Hsum & Hca).
    assert (Hlast : forall last rest, rev segs = last :: rest ->
                      end_time last = inject_Z (Z.of_nat n) / fps)
      by (intros; eapply chain_last; eassumption).
    destruct ci as [x|]; destruct ca as [a|].
    all: try (destruct (rev segs) as [|last rest] eqn:Er; [discriminate|]).
    all: inversion Hsw as [[Hs Ha]].
    all: try rewrite (Hlast last rest eq_refl).
    all: cbn [open_len] in Hsum.
    all: split.
    all: try (apply Forall_rev; exact Hac).
    all: try (apply Forall_app; split; [apply Forall_rev; exact Hac|];
              constructor; [simpl; destruct (Hca a eq_refl); lra|constructor]).
    all: rewrite ?map_app, ?Qsum_app, map_rev, Qsum_rev.
    all: cbn [map Qsum]; try unfold period_len at 2; simpl.
    all: set (TT := inject_Z (Z.of_nat n) / fps) in *; unfold period in *; lra. }
  destruct Hper as [Hfw Hle].
  pose proof (Qsum_len_nonneg _ Hfw) as H0.
  split; [exact Hfw|]. split; [exact H0|]. split; [exact Hle|].
  rewrite Hratio, Hd.
  destruct (Qlt_le_dec 0 (inject_Z (Z.of_nat frame_count) / fps)) as [Hpos|Hnp].
  - split.
    + apply Qle_shift_div_l; [exact Hpos|]. rewrite Qmult_0_l. exact H0.
    + intros Hle2. apply Qle_shift_div_r; [exact Hpos|]. rewrite Qmult_1_l.
      apply (Qle_trans _ _ _ Hle). apply frames_div_le; assumption.
  - split; [apply Qle_refl|]. intros _. discriminate.
Qed.

Lemma activity_ratio_bounds_witness :
  exists r,
    analyze_video 1 2
      [Some {| fg_nonzero := 50; total_area := 100; flow_mean_magnitude := 0;
               diff_nonzero := 0 |};
       Some {| fg_nonzero := 50; total_area := 100; flow_mean_magnitude := 0;
               diff_nonzero := 0 |}] = Ok r
    /\ overall_activity_ratio r <= 1.
Proof.
  eexists. split; [vm_compute; reflexivity|].
  match goal with
  | |- overall_activity_ratio ?r <= 1 =>
      assert (Hr : analyze_video 1 2
        [Some {| fg_nonzero := 50; total_area := 100; flow_mean_magnitude := 0;
                 diff_nonzero := 0 |};
         Some {| fg_nonzero := 50; total_area := 100; flow_mean_magnitude := 0;
                 diff_nonzero := 0 |}] = Ok r) by (vm_compute; reflexivity);
      destruct (activity_ratio_bounds 1 2 _ r ltac:(reflexivity) Hr)
        as (_ & _ & _ & _ & H);
      apply H; vm_compute; lia
  end.
Defined.

Lemma gen_loop_cap (fps : Q) (Hf : 0 < fps) (n : nat) (xs : list Q) :
  forall i cur_start lvl vals,
    (cur_start < i)%nat -> (i + List.length xs)%nat = n ->
    inject_Z (Z.of_nat i - 1 - Z.of_nat cur_start) < fps * 10 ->
    let out := gen_loop fps n i cur_start lvl vals xs in
    Forall (fun s => seg_frames s < fps * 10 + 1) out
    /\ split_reasons fps out
    /\ (forall s rest, out = s :: rest -> activity_level_of s = lvl).
Proof.
  induction xs as [|x rest IH]; intros i cur_start lvl vals Hlt Hn Hcap out.
  - unfold out. simpl in Hn |- *. rewrite Nat.add_0_r in Hn. subst i.
    destruct (Nat.ltb cur_start n); simpl.
    + split; [constructor; [|constructor]|split; [exact I|]].
      * unfold seg_frames. simpl.
        setoid_replace (inject_Z (Z.of_nat n - Z.of_nat cur_start))
          with (inject_Z (Z.of_nat n - 1 - Z.of_nat cur_start) + 1)
          by (unfold Qeq, Qplus, inject_Z; simpl; lia).
        lra.
      * intros s rs Hs. inversion Hs. reflexivity.
    + split; [constructor|split; [exact I|intros s rs Hs; discriminate]].
  - unfold out. simpl in Hn |- *.
    destruct (negb (activity_level_eqb (_classify_activity x) lvl)
              || Qle_bool (fps * 10) (inject_Z (Z.of_nat i - Z.of_nat cur_start)))
      eqn:Hsplit.
    + destruct (IH (S i) i (_classify_activity x) [x]) as (R1 & R2 & R3);
        [lia|lia| |].
      { replace (Z.of_nat (S i) - 1 - Z.of_nat i)%Z with 0%Z by lia.
        change (inject_Z 0) with 0. lra. }
      set (out' := gen_loop fps n (S i) i (_classify_activity x) [x] rest) in *.
      split; [|split].
      * constructor; [|exact R1]. unfold seg_frames. simpl.
        setoid_replace (inject_Z (Z.of_nat i - Z.of_nat cur_start))
          with (inject_Z (Z.of_nat i - 1 - Z.of_nat cur_start) + 1)
          by (unfold Qeq, Qplus, inject_Z; simpl; lia).
        lra.
      * destruct out' as [|s2 r2] eqn:Eo; [exact I|].
        split; [|exact R2].
        specialize (R3 s2 r2 eq_refl). rewrite R3.
        apply orb_true_iff in Hsplit. destruct Hsplit as [Hl|Hq].
        -- left. simpl. intro C. rewrite C in Hl.
           destruct (_classify_activity x); discriminate.
        -- right. unfold seg_frames. simpl. apply Qle_bool_iff. exact Hq.
      * intros s rs Hs. inversion Hs. reflexivity.
    + apply orb_false_iff in Hsplit. destruct Hsplit as [_ Hq].
      apply TrackerFacts.Qle_bool_false in Hq.
      apply IH; [lia|lia|].
      replace (Z.of_nat (S i) - 1 - Z.of_nat cur_start)%Z
        with (Z.of_nat i - Z.of_nat cur_start)%Z by lia.
      exact Hq.
Qed.

(** With a positive frame rate, every segment spans fewer than
    [10 * fps + 1] frames (the ten-second cap), and two consecutive
    segments have different labels unless the first one reached the
    cap. *)
Theorem segment_length_cap (fps : Q) (frame_count : nat)
    (reads : list (option frame_measure)) (r : MotionAnalysisResult) :
  0 < fps ->
  analyze_video fps frame_count reads = Ok r ->
  Forall (fun s => seg_frames s < fps * 10 + 1) (activity_segments r)
  /\ split_reasons fps (activity_segments r).
Proof.
  intros Hf H. destruct (analyze_video_ok _ _ _ _ H) as (_ & Hg & _).
  destruct (read_loop false reads) as [|x0 rest]; [discriminate|].
  simpl in Hg. inversion Hg as [Hs]. clear Hg.
  destruct (gen_loop_cap fps Hf (List.length (x0 :: rest)) rest 1 0
              (_classify_activity x0) [x0]) as (R1 & R2 & _);
    [lia|reflexivity| |].
  - change (inject_Z (Z.of_nat 1 - 1 - Z.of_nat 0)) with 0. lra.
  - try rewrite <- Hs. split; assumption.
Qed.

Lemma segment_length_cap_witness :
  let reads := repeat (Some {| fg_nonzero := 50; total_area := 100;
                               flow_mean_magnitude := 0; diff_nonzero := 0 |}) 5 in
  exists r, analyze_video (1 # 5) 5 reads = Ok r
    /\ List.length (activity_segments r) = 3%nat
    /\ Forall (fun s => seg_frames s < (1 # 5) * 10 + 1) (activity_segments r).
Proof.
  intros reads. eexists. split; [vm_compute; reflexivity|].
  split; [vm_compute; reflexivity|].
  match goal with
  | |- Forall _ (activity_segments ?r) =>
      assert (Hr : analyze_video (1 # 5) 5 reads = Ok r) by (vm_compute; reflexivity);
      exact (proj1 (segment_length_cap (1 # 5) 5 reads r ltac:(reflexivity) Hr))
  end.
Defined.

End SleepWakeClaims.

Module AnalyzerDistClaims.
Import PyDictFacts PyDictMore MotionDetector CompressionProfiles MotionMore
  VideoAnalyzer ExtraSpec.

Lemma in_keys_get {V} (k : string) (d : PyDict.dict V) :
  In k (keys d) -> exists v, PyDict.get k d = Some v.
Proof.
  induction d as [|[k' v'] r IH]; simpl; [tauto|]. intros H.
  destruct (String.eqb k k') eqn:E; [eexists; reflexivity|].
  destruct H as [H|H]; [subst; rewrite String.eqb_refl in E; discriminate|].
  exact (IH H).
Qed.

Lemma keys_set_existing {V} (k : string) (v w : V) (d : PyDict.dict V) :
  PyDict.get k d = Some v -> keys (PyDict.set k w d) = keys d.
Proof.
  induction d as [|[k' v'] r IH]; simpl; [discriminate|].
  destruct (String.eqb k k'); simpl; [reflexivity|].
  intros H. rewrite (IH H). reflexivity.
Qed.

Lemma sum_set_existing (k : string) (v w : Q) (d : PyDict.dict Q) :
  PyDict.get k d = Some v ->
  Qsum (map snd (PyDict.set k w d)) == Qsum (map snd d) + (w - v).
Proof.
  induction d as [|[k' v'] r IH]; simpl; [discriminate|].
  destruct (String.eqb k k'); simpl.
  - intros H. inversion H; subst. ring.
  - intros H. rewrite (IH H). ring.
Qed.

Lemma set_forall_snd (P : Q -> Prop) (k : string) (w : Q) (d : PyDict.dict Q) :
  Forall (fun kv => P (snd kv)) d -> P w ->
  Forall (fun kv => P (snd kv)) (PyDict.set k w d).
Proof.
  induction d as [|[k' v'] r IH]; simpl; intros Hd Hw.
  - constructor; [exact Hw|constructor].
  - inversion Hd as [|? ? Hh Hr]; subst.
    destruct (String.eqb k k'); constructor; auto.
Qed.

Lemma dict_add_props (k : string) (x : Q) (d : PyDict.dict Q) :
  In k (keys d) -> Forall (fun kv => 0 <= snd kv) d -> 0 <= x ->
  keys (dict_add k x d) = keys d
  /\ Forall (fun kv => 0 <= snd kv) (dict_add k x d)
  /\ Qsum (map snd (dict_add k x d)) == Qsum (map snd d) + x.
Proof.
  intros Hk Hd Hx. destruct (in_keys_get k d Hk) as [v Hv].
  unfold dict_add. rewrite Hv.
  assert (H0 : 0 <= v).
  { apply get_some_in in Hv. rewrite Forall_forall in Hd.
    exact (Hd (k, v) Hv). }
  split; [exact (keys_set_existing k v (v + x) d Hv)|split].
  - apply (set_forall_snd (fun q => 0 <= q)); [exact Hd|lra].
  - rewrite (sum_set_existing k v (v + x) d Hv). ring.
Qed.

Lemma level_name_label (l : activity_level) : In (level_name l) labels.
Proof. destruct l; simpl; tauto. Qed.

Lemma dist_fold : forall (segs : list ActivitySegment) (d : PyDict.dict Q) (t : Q),
  Forall (fun s => start_time s <= end_time s) segs ->
  keys d = labels -> Forall (fun kv => 0 <= snd kv) d ->
  let '(d', t') := fold_left distribution_step segs (d, t) in
  keys d' = labels /\ Forall (fun kv => 0 <= snd kv) d'
  /\ Qsum (map snd d') - t' == Qsum (map snd d) - t
  /\ t <= t'
  /\ (Exists (fun s => start_time s < end_time s) segs -> t < t').
Proof.
  induction segs as [|s r IH]; intros d t Hs Hk Hd.
  - cbn [fold_left]. split; [exact Hk|split; [exact Hd|split; [ring|split]]].
    + apply Qle_refl.
    + intros C. inversion C.
  - inversion Hs as [|? ? Hs1 Hr]; subst.
    cbn [fold_left].
    set (dur := end_time s - start_time s).
    assert (E : distribution_step (d, t) s
                = (dict_add (level_name (activity_level_of s)) dur d, t + dur))
      by reflexivity.
    rewrite E.
    assert (Hin : In (level_name (activity_level_of s)) (keys d))
      by (rewrite Hk; apply level_name_label).
    destruct (dict_add_props (level_name (activity_level_of s)) dur d Hin Hd)
      as (K1 & F1 & S1); [unfold dur; lra|].
    pose proof (IH (dict_add (level_name (activity_level_of s)) dur d) (t + dur)
                  Hr (eq_trans K1 Hk) F1) as IH'.
    revert IH'.
    destruct (fold_left distribution_step r
               (dict_add (level_name (activity_level_of s)) dur d, t + dur))
      as [d' t'].
    intros (K2 & F2 & S2 & T2 & X2).
    split; [exact K2|split; [exact F2|split; [|split]]].
    + rewrite S2, S1. ring.
    + unfold dur in T2. lra.
    + intros Hex. inversion Hex as [? ? Hh|? ? Ht]; subst.
      * unfold dur in T2. lra.
      * specialize (X2 Ht). unfold dur in X2. lra.
Qed.

Lemma keys_scale (t : Q) (d : PyDict.dict Q) :
  keys (map (fun '(level, v) => (level, v / t * 100)) d) = keys d.
Proof.
  induction d as [|[k v] r IH]; simpl; [reflexivity|]. rewrite <- IH. reflexivity.
Qed.

Lemma sum_scale (t : Q) (d : PyDict.dict Q) :
  ~ t == 0 ->
  Qsum (map snd (map (fun '(level, v) => (level, v / t * 100)) d))
  == Qsum (map snd d) / t * 100.
Proof.
  intros Ht. induction d as [|[k v] r IH]; simpl.
  - field. exact Ht.
  - rewrite IH. field. exact Ht.
Qed.

Lemma le_sum (d : PyDict.dict Q) :
  Forall (fun kv => 0 <= snd kv) d ->
  Forall (fun kv => 0 <= snd kv /\ snd kv <= Qsum (map snd d)) d.
Proof.
  induction 1 as [|[k v] r Hv Hr IH]; simpl in *; constructor.
  - assert (0 <= Qsum (map snd r)).
    { clear IH. induction Hr as [|[k2 v2] r2 H2 _ IH2]; simpl in *; lra. }
    simpl. split; lra.
  - assert (0 <= Qsum (map snd r)).
    { clear IH. induction Hr as [|[k2 v2] r2 H2 _ IH2]; simpl in *; lra. }
    rewrite Forall_forall in IH |- *. intros kv Hkv.
    destruct (IH kv Hkv). simpl. split; lra.
Qed.

Lemma percent_bounds (v t : Q) : 0 <= v -> v <= t -> 0 < t -> 0 <= v / t * 100 <= 100.
Proof.
  intros H0 H1 Ht.
  assert (A : 0 <= v / t) by (apply Qle_shift_div_l; [exact Ht|lra]).
  assert (B : v / t <= 1) by (apply Qle_shift_div_r; [exact Ht|lra]).
  lra.
Qed.

Lemma scale_bounds (t : Q) (d : PyDict.dict Q) :
  0 < t ->
  Forall (fun kv => 0 <= snd kv /\ snd kv <= t) d ->
  Forall (fun kv => 0 <= snd kv <= 100) (map (fun '(level, v) => (level, v / t * 100)) d).
Proof.
  intros Ht. induction 1 as [|[k v] r Hv Hr IH]; simpl; constructor.
  - simpl in Hv. apply percent_bounds; tauto.
  - exact IH.
Qed.

Lemma distribution_percentages (segs : list ActivitySegment) :
  Forall (fun s => start_time s <= end_time s) segs ->
  Exists (fun s => start_time s < end_time s) segs ->
  let d := _calculate_activity_distribution segs in
  keys d = labels
  /\ Qsum (map snd d) == 100
  /\ Forall (fun kv => 0 <= snd kv <= 100) d.
Proof.
  intros Hs Hex. unfold _calculate_activity_distribution.
  pose proof (dist_fold segs initial_distribution 0 Hs eq_refl) as Hf.
  assert (H0 : Forall (fun kv => 0 <= snd kv) initial_distribution)
    by (repeat constructor; simpl; lra).
  specialize (Hf H0). revert Hf.
  destruct (fold_left distribution_step segs (initial_distribution, 0)) as [d t].
  intros (K & F & S & T & X). specialize (X Hex).
  assert (St : Qsum (map snd d) == t) by (simpl in S; lra).
  destruct (Qlt_le_dec 0 t) as [Ht|Ht]; [|lra].
  split; [rewrite keys_scale; exact K|split].
  - rewrite sum_scale by (intros C; rewrite C in Ht; exact (Qlt_irrefl 0 Ht)).
    rewrite St. field. intros C; rewrite C in Ht; exact (Qlt_irrefl 0 Ht).
  - apply scale_bounds; [exact Ht|].
    pose proof (le_sum d F) as L. rewrite Forall_forall in L |- *.
    intros kv Hkv. destruct (L kv Hkv). split; [assumption|rewrite <- St; assumption].
Qed.

(** For a positive frame rate, the activity distribution of an analysis
    has exactly the keys [high], [medium], [low] and [inactive], in this
    order, its values are percentages between 0 and 100, and they add up
    to 100. *)
Theorem activity_distribution_percentages (fps : Q) (frame_count : nat)
    (reads : list (option frame_measure)) (r : MotionAnalysisResult) :
  0 < fps ->
  analyze_video fps frame_count reads = Ok r ->
  let d := _calculate_activity_distribution (activity_segments r) in
  keys d = labels
  /\ Qsum (map snd d) == 100
  /\ Forall (fun kv => 0 <= snd kv <= 100) d.
Proof.
  intros Hf H.
  destruct (analysis_chain _ _ _ _ H) as [Hc Hn].
  pose proof (chain_times fps Hf _ _ _ Hc) as Ht.
  pose proof (chain_nonempty_segs _ _ _ Hc Hn) as Hne.
  apply distribution_percentages.
  - apply (Forall_impl _ (fun s (Hs : start_time s < end_time s) => Qlt_le_weak _ _ Hs)).
    exact Ht.
  - destruct (activity_segments r) as [|s rs]; [contradiction|].
    inversion Ht; subst. constructor. assumption.
Qed.

Lemma activity_distribution_percentages_witness :
  exists r,
    analyze_video 1 2
      [Some {| fg_nonzero := 50; total_area := 100; flow_mean_magnitude := 0;
               diff_nonzero := 0 |};
       Some {| fg_nonzero := 0; total_area := 100; flow_mean_magnitude := 0;
               diff_nonzero := 0 |}] = Ok r
    /\ Qsum (map snd (_calculate_activity_distribution (activity_segments r))) == 100.
Proof.
  eexists. split; [vm_compute; reflexivity|].
  match goal with
  | |- Qsum (map snd (_calculate_activity_distribution (activity_segments ?r))) == 100 =>
      assert (Hr : analyze_video 1 2
        [Some {| fg_nonzero := 50; total_area := 100; flow_mean_magnitude := 0;
                 diff_nonzero := 0 |};
         Some {| fg_nonzero := 0; total_area := 100; flow_mean_magnitude := 0;
                 diff_nonzero := 0 |}] = Ok r) by (vm_compute; reflexivity);
      exact (proj1 (proj2 (activity_distribution_percentages 1 2 _ r
                             ltac:(reflexivity) Hr)))
  end.
Defined.

End AnalyzerDistClaims.

Module AnalyzerBoutClaims.
Import MotionDetector MotionSpec CompressionProfiles MotionMore VideoAnalyzer ExtraSpec.

Lemma bout_fold (fps : Q) (Hf : 0 < fps) :
  forall segs a b (cur : option (Q * bool)) (ab ib : list Q),
  chain fps a segs b ->
  Forall (fun x => 0 < x) ab -> Forall (fun x => 0 < x) ib ->
  Qsum ab + Qsum ib + open_len (option_map fst cur) (inject_Z (Z.of_nat a) / fps)
    == inject_Z (Z.of_nat a) / fps ->
  (forall x ty, cur = Some (x, ty) -> x < inject_Z (Z.of_nat a) / fps) ->
  let '(cur', ab', ib') := fold_left bout_step segs (cur, ab, ib) in
  Forall (fun x => 0 < x) ab' /\ Forall (fun x => 0 < x) ib'
  /\ Qsum ab' + Qsum ib' + open_len (option_map fst cur') (inject_Z (Z.of_nat b) / fps)
     == inject_Z (Z.of_nat b) / fps
  /\ (forall x ty, cur' = Some (x, ty) -> x < inject_Z (Z.of_nat b) / fps)
  /\ (cur' = None -> cur = None /\ segs = []).
Proof.
  induction segs as [|s r IH]; intros a b cur ab ib Hc Hab Hib Hsum Hcur.
  - simpl in Hc. subst. cbn [fold_left].
    split; [exact Hab|split; [exact Hib|split; [exact Hsum|split; [exact Hcur|]]]].
    intros E. split; [exact E|reflexivity].
  - simpl in Hc. destruct Hc as (H1 & H2 & H3 & H4 & H5). cbn [fold_left].
    set (A := inject_Z (Z.of_nat a) / fps) in *.
    set (B := inject_Z (Z.of_nat (frame_end s)) / fps).
    assert (HT : A < B) by (unfold A, B; apply frames_div_lt; [exact Hf|lia]).
    assert (Hst : exists c1 ab1 ib1,
      bout_step (cur, ab, ib) s = (c1, ab1, ib1)
      /\ Forall (fun x => 0 < x) ab1 /\ Forall (fun x => 0 < x) ib1
      /\ Qsum ab1 + Qsum ib1 + open_len (option_map fst c1) B == B
      /\ (forall x ty, c1 = Some (x, ty) -> x < B)
      /\ c1 <> None).
    { unfold bout_step. rewrite H3. fold A.
      destruct cur as [[x ty]|].
      - assert (Hx : x < A) by (apply (Hcur x ty); reflexivity).
        cbn [option_map fst open_len] in Hsum.
        destruct (Bool.eqb (is_active_level (activity_level_of s)) ty).
        + exists (Some (x, ty)), ab, ib.
          split; [reflexivity|split; [exact Hab|split; [exact Hib|split]]].
          * cbn [option_map fst open_len]. lra.
          * split; [intros x' ty' E; inversion E; subst; lra|discriminate].
        + destruct ty.
          * exists (Some (A, is_active_level (activity_level_of s))), ((A - x) :: ab), ib.
            split; [reflexivity|split; [constructor; [lra|exact Hab]|split; [exact Hib|split]]].
            -- cbn [option_map fst open_len Qsum]. lra.
            -- split; [intros x' ty' E; inversion E; subst; lra|discriminate].
          * exists (Some (A, is_active_level (activity_level_of s))), ab, ((A - x) :: ib).
            split; [reflexivity|split; [exact Hab|split; [constructor; [lra|exact Hib]|split]]].
            -- cbn [option_map fst open_len Qsum]. lra.
            -- split; [intros x' ty' E; inversion E; subst; lra|discriminate].
      - cbn [option_map open_len] in Hsum.
        exists (Some (A, is_active_level (activity_level_of s))), ab, ib.
        split; [reflexivity|split; [exact Hab|split; [exact Hib|split]]].
        + cbn [option_map fst open_len]. lra.
        + split; [intros x' ty' E; inversion E; subst; lra|discriminate]. }
    destruct Hst as (c1 & ab1 & ib1 & E & F1 & F2 & S1 & C1 & N1).
    rewrite E.
    pose proof (IH (frame_end s) b c1 ab1 ib1 H5 F1 F2 S1 C1) as IH'.
    revert IH'.
    destruct (fold_left bout_step r (c1, ab1, ib1)) as [[c' ab'] ib'].
    intros (G1 & G2 & G3 & G4 & G5).
    split; [exact G1|split; [exact G2|split; [exact G3|split; [exact G4|]]]].
    intros En. destruct (G5 En) as [C _]. contradiction.
Qed.

(** For a positive frame rate, the bouts of [_analyze_activity_bouts] on
    the segments of an analysis all have a positive duration, and the
    active and inactive bouts together cover the decoded timeline:
    their durations add up to its length in seconds. *)
Theorem activity_bouts_cover (fps : Q) (frame_count : nat)
    (reads : list (option frame_measure)) (r : MotionAnalysisResult) :
  0 < fps ->
  analyze_video fps frame_count reads = Ok r ->
  let '(ab, ib) := activity_bouts (activity_segments r) in
  Forall (fun x => 0 < x) ab /\ Forall (fun x => 0 < x) ib
  /\ Qsum ab + Qsum ib == Qlen (motion_timeline r) / fps.
Proof.
  intros Hf H.
  destruct (analysis_chain _ _ _ _ H) as [Hc Hn].
  pose proof (chain_nonempty_segs _ _ _ Hc Hn) as Hne.
  unfold activity_bouts, Qlen.
  set (n := List.length (motion_timeline r)) in *.
  set (segs := activity_segments r) in *.
  assert (Hlast : forall last rest, rev segs = last :: rest ->
                    end_time last = inject_Z (Z.of_nat n) / fps)
    by (intros; eapply chain_last; eassumption).
  pose proof (bout_fold fps Hf segs 0 n None [] [] Hc (Forall_nil _) (Forall_nil _))
    as Hb.
  cbn [option_map open_len Qsum] in Hb.
  assert (H0 : 0 + 0 + 0 == inject_Z (Z.of_nat 0) / fps)
    by (unfold Qdiv; simpl; rewrite Qmult_0_l; reflexivity).
  specialize (Hb H0 (fun x ty E => ltac:(discriminate E))).
  revert Hb.
  destruct (fold_left bout_step segs (None, [], [])) as [[c ab] ib].
  intros (F1 & F2 & S & C & N).
  destruct c as [[x ty]|]; [|destruct (N eq_refl); contradiction].
  assert (Hx : x < inject_Z (Z.of_nat n) / fps) by (apply (C x ty); reflexivity).
  cbn [option_map fst open_len] in S.
  destruct (rev segs) as [|last rest] eqn:Er.
  - destruct segs; [contradiction|]. simpl in Er.
    destruct (rev segs ++ [a])%list eqn:E2; [|discriminate].
    apply app_eq_nil in E2. destruct E2 as [_ E3]. discriminate E3.
  - rewrite (Hlast last rest eq_refl).
    set (T := inject_Z (Z.of_nat n) / fps) in *.
    destruct ty.
    + split; [apply Forall_rev; constructor; [lra|exact F1]|].
      split; [apply Forall_rev; exact F2|].
      rewrite !Qsum_rev. cbn [Qsum]. lra.
    + split; [apply Forall_rev; exact F1|].
      split; [apply Forall_rev; constructor; [lra|exact F2]|].
      rewrite !Qsum_rev. cbn [Qsum]. lra.
Qed.

Lemma activity_bouts_cover_witness :
  exists r,
    analyze_video 1 2
      [Some {| fg_nonzero := 50; total_area := 100; flow_mean_magnitude := 0;
               diff_nonzero := 0 |};
       Some {| fg_nonzero := 0; total_area := 100; flow_mean_magnitude := 0;
               diff_nonzero := 0 |}] = Ok r
    /\ activity_bouts (activity_segments r) = ([1], [1])
    /\ (let '(ab, ib) := activity_bouts (activity_segments r) in
        Forall (fun x => 0 < x) ab /\ Forall (fun x => 0 < x) ib
        /\ Qsum ab + Qsum ib == Qlen (motion_timeline r) / 1).
Proof.
  eexists. split; [vm_compute; reflexivity|]. split; [vm_compute; reflexivity|].
  match goal with
  | |- let '(_, _) := activity_bouts (activity_segments ?r) in _ =>
      assert (Hr : analyze_video 1 2
        [Some {| fg_nonzero := 50; total_area := 100; flow_mean_magnitude := 0;
                 diff_nonzero := 0 |};
         Some {| fg_nonzero := 0; total_area := 100; flow_mean_magnitude := 0;
                 diff_nonzero := 0 |}] = Ok r) by (vm_compute; reflexivity);
      exact (activity_bouts_cover 1 2 _ r ltac:(reflexivity) Hr)
  end.
Defined.

Lemma bouts_alternate_step (st : option (Q * bool) * list Q * list Q)
    (s : ActivitySegment) :
  bouts_alternate st -> bouts_alternate (bout_step st s).
Proof.
  destruct st as [[cur ab] ib]. unfold bout_step.
  destruct cur as [[x ty]|].
  - destruct (is_active_level (activity_level_of s)); destruct ty; simpl; intros H;
      simpl; lia.
  - simpl. intros [-> ->]. destruct (is_active_level (activity_level_of s)); simpl; lia.
Qed.

Lemma bouts_alternate_fold (segs : list ActivitySegment) :
  forall st, bouts_alternate st -> bouts_alternate (fold_left bout_step segs st).
Proof.
  induction segs as [|s r IH]; intros st H; cbn [fold_left]; [exact H|].
  apply IH. apply bouts_alternate_step. exact H.
Qed.

(** Active and inactive bouts alternate, so [_analyze_activity_bouts]
    never finds more active bouts than inactive bouts plus one, nor the
    other way round, for any list of segments. *)
Theorem activity_bouts_balanced (segs : list ActivitySegment) :
  let '(ab, ib) := activity_bouts segs in
  (List.length ab <= List.length ib + 1 /\ List.length ib <= List.length ab + 1)%nat.
Proof.
  unfold activity_bouts.
  pose proof (bouts_alternate_fold segs (None, [], []) (conj eq_refl eq_refl)) as H.
  revert H.
  destruct (fold_left bout_step segs (None, [], [])) as [[cur ab] ib].
  destruct cur as [[x ty]|]; simpl.
  - destruct (rev segs) as [|last rest].
    + destruct ty; rewrite !length_rev; lia.
    + destruct ty; simpl; rewrite ?length_app, !length_rev; simpl; lia.
  - intros [-> ->]. simpl. lia.
Qed.

End AnalyzerBoutClaims.

Module CompressorOpsClaims.
Import MotionDetector CompressionProfiles AdaptiveCompressor CompressorOps MotionMore.

Lemma py_min_bounds (a b : Q) :
  ProgressTracker.py_min a b <= a /\ ProgressTracker.py_min a b <= b
  /\ (ProgressTracker.py_min a b == a \/ ProgressTracker.py_min a b == b).
Proof.
  unfold ProgressTracker.py_min. destruct (Qle_bool a b) eqn:E.
  - apply Qle_bool_iff in E. split; [apply Qle_refl|split; [exact E|left; reflexivity]].
  - apply TrackerFacts.Qle_bool_false in E.
    split; [lra|split; [apply Qle_refl|right; reflexivity]].
Qed.

Lemma py_min_mono (a b1 b2 : Q) :
  b1 <= b2 -> ProgressTracker.py_min a b1 <= ProgressTracker.py_min a b2.
Proof.
  intros H. unfold ProgressTracker.py_min.
  destruct (Qle_bool a b1) eqn:E1; destruct (Qle_bool a b2) eqn:E2;
    try apply Qle_bool_iff in E1; try apply Qle_bool_iff in E2;
    try apply TrackerFacts.Qle_bool_false in E1;
    try apply TrackerFacts.Qle_bool_false in E2; lra.
Qed.

Lemma interp_bounds (p a b : Q) :
  0 <= p <= 100 -> a <= b -> a <= a + p * (b - a) / 100 <= b.
Proof.
  intros [H0 H1] H.
  assert (A : 0 <= p * (b - a)) by (apply Qmult_le_0_compat; lra).
  assert (B : p * (b - a) <= 100 * (b - a)) by (apply Qmult_le_compat_r; lra).
  set (X := p * (b - a)) in *.
  setoid_replace (X / 100) with (X * (1 # 100)) by field. split; lra.
Qed.

Lemma interp_mono (p q a b : Q) :
  p <= q -> a <= b -> a + p * (b - a) / 100 <= a + q * (b - a) / 100.
Proof.
  intros H Hab.
  assert (A : p * (b - a) <= q * (b - a)) by (apply Qmult_le_compat_r; lra).
  set (X := p * (b - a)) in *. set (Y := q * (b - a)) in *.
  setoid_replace (X / 100) with (X * (1 # 100)) by field.
  setoid_replace (Y / 100) with (Y * (1 # 100)) by field. lra.
Qed.

Lemma ffmpeg_progress_bounds (duration : Q) (times : list Q) :
  Forall (fun t => 0 <= t) times ->
  Forall (fun p => 0 <= p <= 100) (ffmpeg_progress_values duration times).
Proof.
  intros H. unfold ffmpeg_progress_values.
  destruct (Qeq_bool duration 0); [constructor|].
  induction H as [|t r Ht _ IH]; cbn [flat_map app]; [constructor|].
  destruct (negb (Qeq_bool t 0) && Qgt_bool duration 0) eqn:E; cbn [flat_map app]; [|exact IH].
  constructor; [|exact IH].
  apply andb_true_iff in E. destruct E as [_ Ed].
  unfold Qgt_bool in Ed. apply negb_true_iff, TrackerFacts.Qle_bool_false in Ed.
  assert (A : 0 <= t / duration) by (apply Qle_shift_div_l; [exact Ed|lra]).
  set (x := t / duration) in *.
  destruct (py_min_bounds 100 (x * 100)) as (B & C & [D|D]); lra.
Qed.

Lemma ffmpeg_progress_sorted (duration : Q) (times : list Q) :
  StronglySorted Qle times ->
  StronglySorted Qle (ffmpeg_progress_values duration times).
Proof.
  intros Hs. unfold ffmpeg_progress_values.
  destruct (Qeq_bool duration 0); [constructor|].
  destruct (Qgt_bool duration 0) eqn:Ed.
  2: { clear Hs. induction times as [|t r IH]; cbn [flat_map app]; [constructor|].
       rewrite andb_false_r. exact IH. }
  unfold Qgt_bool in Ed. apply negb_true_iff, TrackerFacts.Qle_bool_false in Ed.
  induction Hs as [|t r Hr IH Hall]; cbn [flat_map app]; [constructor|].
  rewrite andb_true_r. destruct (negb (Qeq_bool t 0)); cbn [app]; [|exact IH].
  constructor; [exact IH|].
  clear IH Hr. induction Hall as [|u r' Hu _ IH2]; cbn [flat_map app]; [constructor|].
  rewrite andb_true_r. destruct (negb (Qeq_bool u 0)); cbn [app]; [|exact IH2].
  constructor; [|exact IH2].
  apply py_min_mono.
  assert (A : t / duration <= u / duration).
  { unfold Qdiv. apply Qmult_le_compat_r; [exact Hu|].
    apply Qinv_le_0_compat. lra. }
  set (x := t / duration) in *. set (y := u / duration) in *. lra.
Qed.

Lemma SS_map_mono (P : Q -> Prop) (f : Q -> Q) (l : list Q) :
  (forall x y, P x -> P y -> x <= y -> f x <= f y) ->
  Forall P l -> StronglySorted Qle l -> StronglySorted Qle (map f l).
Proof.
  intros Hf Hp Hs. induction Hs as [|a l Hs IH Ha]; simpl; constructor.
  - apply IH. inversion Hp; assumption.
  - inversion Hp as [|? ? Hpa Hpl]; subst. clear IH Hs Hp.
    revert Hpl. induction Ha as [|b l' Hb _ IH']; intros Hpl; simpl; constructor.
    + apply Hf; [exact Hpa|inversion Hpl; assumption|exact Hb].
    + apply IH'. inversion Hpl; assumption.
Qed.

Lemma SS_app (l1 l2 : list Q) (m : Q) :
  StronglySorted Qle l1 -> StronglySorted Qle l2 ->
  Forall (fun x => x <= m) l1 -> Forall (fun y => m <= y) l2 ->
  StronglySorted Qle (l1 ++ l2).
Proof.
  induction 1 as [|a l Hs IH Ha]; intros H2 F1 F2; simpl; [exact H2|].
  inversion F1 as [|? ? Ham Hl]; subst.
  constructor; [apply IH; assumption|].
  apply Forall_app. split; [exact Ha|].
  eapply Forall_impl; [|exact F2]. intros y Hy. cbv beta in *. lra.
Qed.

Lemma progress_start_mono (n i j : nat) :
  (0 < n)%nat -> (i <= j)%nat ->
  20 + Q_of_nat i / Q_of_nat n * 70 <= 20 + Q_of_nat j / Q_of_nat n * 70.
Proof.
  intros Hn Hij.
  assert (A : Q_of_nat i / Q_of_nat n <= Q_of_nat j / Q_of_nat n).
  { unfold Q_of_nat. apply frames_div_le; [unfold Qlt; simpl; lia|exact Hij]. }
  set (x := Q_of_nat i / Q_of_nat n) in *. set (y := Q_of_nat j / Q_of_nat n) in *.
  lra.
Qed.

Lemma segment_updates_props (n i : nat) (segment : ActivitySegment) (times : list Q) :
  (i < n)%nat -> Forall (fun t => 0 <= t) times -> StronglySorted Qle times ->
  StronglySorted Qle (segment_progress_updates n i segment times)
  /\ Forall (fun x => 20 + Q_of_nat i / Q_of_nat n * 70 <= x
                      <= 20 + Q_of_nat (S i) / Q_of_nat n * 70)
       (segment_progress_updates n i segment times).
Proof.
  intros Hi Hn Hs. unfold segment_progress_updates. cbv zeta.
  set (s0 := 20 + Q_of_nat i / Q_of_nat n * 70).
  set (e0 := 20 + Q_of_nat (S i) / Q_of_nat n * 70).
  assert (Hse : s0 <= e0) by (apply progress_start_mono; lia).
  set (ff := ffmpeg_progress_values (end_time segment - start_time segment) times).
  pose proof (ffmpeg_progress_bounds (end_time segment - start_time segment) times Hn)
    as Fb. fold ff in Fb.
  pose proof (ffmpeg_progress_sorted (end_time segment - start_time segment) times Hs)
    as Fs. fold ff in Fs.
  split.
  - constructor.
    + apply (SS_map_mono (fun p => 0 <= p <= 100)); [|exact Fb|exact Fs].
      intros x y _ _ Hxy. apply interp_mono; assumption.
    + apply Forall_map. eapply Forall_impl; [|exact Fb].
      intros p Hp. exact (proj1 (interp_bounds p s0 e0 Hp Hse)).
  - constructor; [split; [apply Qle_refl|exact Hse]|].
    apply Forall_map. eapply Forall_impl; [|exact Fb].
    intros p Hp. exact (interp_bounds p s0 e0 Hp Hse).
Qed.

Lemma updates_from_props (n : nat) : forall runs i,
  (i + List.length runs)%nat = n ->
  Forall (fun run => Forall (fun t => 0 <= t) (snd run)
                     /\ StronglySorted Qle (snd run)) runs ->
  StronglySorted Qle (adaptive_updates_from n i runs)
  /\ Forall (fun x => 20 + Q_of_nat i / Q_of_nat n * 70 <= x
                      <= 20 + Q_of_nat n / Q_of_nat n * 70)
       (adaptive_updates_from n i runs).
Proof.
  induction runs as [|[segment times] r IH]; intros i Hi Hr;
    cbn [adaptive_updates_from]; [split; constructor|].
  apply Forall_cons_iff in Hr. destruct Hr as [[Hn Hs] Hr']. simpl in Hn, Hs, Hi.
  destruct (segment_updates_props n i segment times)
    as [S1 F1]; [lia|exact Hn|exact Hs|].
  destruct (IH (S i)) as [S2 F2]; [lia|exact Hr'|].
  assert (M1 : 20 + Q_of_nat i / Q_of_nat n * 70 <= 20 + Q_of_nat (S i) / Q_of_nat n * 70)
    by (apply progress_start_mono; lia).
  assert (M2 : 20 + Q_of_nat (S i) / Q_of_nat n * 70 <= 20 + Q_of_nat n / Q_of_nat n * 70)
    by (apply progress_start_mono; lia).
  set (a0 := 20 + Q_of_nat i / Q_of_nat n * 70) in *.
  set (a1 := 20 + Q_of_nat (S i) / Q_of_nat n * 70) in *.
  set (a2 := 20 + Q_of_nat n / Q_of_nat n * 70) in *.
  split.
  - apply (SS_app _ _ a1); [exact S1|exact S2| |].
    + eapply Forall_impl; [|exact F1]. intros x Hx. cbv beta in *. lra.
    + eapply Forall_impl; [|exact F2]. intros x Hx. cbv beta in *. lra.
  - apply Forall_app. split.
    + eapply Forall_impl; [|exact F1]. intros x Hx. cbv beta in *. lra.
    + eapply Forall_impl; [|exact F2]. intros x Hx. cbv beta in *. lra.
Qed.

(** When every segment's FFmpeg time reports are not negative and never
    go backwards, the progress values [_compress_adaptive_segments] reports
    never go backwards either, and they all lie between 20 and 90 (the
    last one is the 90 of the concatenation step). *)
Theorem adaptive_progress_monotone (runs : list (ActivitySegment * list Q)) :
  Forall (fun run => Forall (fun t => 0 <= t) (snd run) /\ Sorted Qle (snd run)) runs ->
  Sorted Qle (adaptive_progress_updates runs)
  /\ Forall (fun x => 20 <= x <= 90) (adaptive_progress_updates runs).
Proof.
  intros H. unfold adaptive_progress_updates.
  assert (H' : Forall (fun run => Forall (fun t => 0 <= t) (snd run)
                                  /\ StronglySorted Qle (snd run)) runs).
  { eapply Forall_impl; [|exact H]. intros run [A B].
    split; [exact A|apply Sorted_StronglySorted; [exact Qle_trans|exact B]]. }
  destruct runs as [|run r].
  - simpl. split; [repeat constructor|constructor; [split; lra|constructor]].
  - destruct (updates_from_props (List.length (run :: r)) (run :: r) 0 eq_refl H')
      as [S F].
    set (n := List.length (run :: r)) in *.
    assert (Z0 : Q_of_nat 0 / Q_of_nat n == 0)
      by (unfold Qdiv; rewrite Qmult_0_l; reflexivity).
    assert (Zn : Q_of_nat n / Q_of_nat n == 1).
    { unfold n, Q_of_nat. field. unfold Qeq. simpl. lia. }
    set (f0 := Q_of_nat 0 / Q_of_nat n) in *.
    set (fn := Q_of_nat n / Q_of_nat n) in *.
    split.
    + apply StronglySorted_Sorted. apply (SS_app _ _ 90); [exact S| | |].
      * repeat constructor.
      * eapply Forall_impl; [|exact F]. intros x Hx. cbv beta in *. lra.
      * constructor; [apply Qle_refl|constructor].
    + apply Forall_app. split.
      * eapply Forall_impl; [|exact F]. intros x Hx. cbv beta in *. lra.
      * constructor; [split; lra|constructor].
Qed.

Lemma adaptive_progress_monotone_witness :
  let runs :=
    [({| start_time := 0; end_time := 10; activity_level_of := High;
         motion_intensity := 1 # 10; frame_start := 0; frame_end := 10 |}, [5; 10]);
     ({| start_time := 10; end_time := 20; activity_level_of := Inactive;
         motion_intensity := 0; frame_start := 10; frame_end := 20 |}, [2])] in
  Forall (fun run => Forall (fun t => 0 <= t) (snd run) /\ Sorted Qle (snd run)) runs
  /\ map Qred (adaptive_progress_updates runs) = [20; 75 # 2; 55; 55; 62; 90]
  /\ Sorted Qle (adaptive_progress_updates runs).
Proof.
  intros runs.
  assert (H : Forall (fun run => Forall (fun t => 0 <= t) (snd run)
                                 /\ Sorted Qle (snd run)) runs).
  { unfold runs. repeat constructor; simpl; unfold Qle; simpl; lia. }
  split; [exact H|split; [vm_compute; reflexivity|]].
  exact (proj1 (adaptive_progress_monotone runs H)).
Defined.

(** With a compression ratio and an activity ratio that are not negative,
    and an activity ratio of at most 1, the ratio [estimate_output_size]
    uses lies between the profile's expected ratio and 1.3 times it. *)
Theorem estimate_ratio_bounds (size_mb : Q) (profile : ActivityCompressionProfile)
    (r : MotionAnalysisResult) :
  0 <= expected_compression_ratio profile ->
  0 <= overall_activity_ratio r <= 1 ->
  expected_compression_ratio profile
    <= est_compression_ratio (estimate_output_size size_mb profile (Some r))
    <= expected_compression_ratio profile * (13 # 10).
Proof.
  intros Hb [H0 H1]. cbn [estimate_output_size est_compression_ratio].
  set (b := expected_compression_ratio profile) in *.
  set (a := overall_activity_ratio r) in *.
  assert (A : 0 <= b * a) by (apply Qmult_le_0_compat; assumption).
  assert (B : b * a <= b * 1) by (rewrite (Qmult_comm b a), (Qmult_comm b 1);
                                  apply Qmult_le_compat_r; assumption).
  setoid_replace (b * (1 + a * (3 # 10))) with (b + b * a * (3 # 10)) by ring.
  set (x := b * a) in *. split; lra.
Qed.

Lemma estimate_ratio_bounds_witness :
  let r := {| total_duration := 10; total_frames := 10; fps_of := 1;
              activity_segments := []; motion_timeline := [];
              sleep_periods := []; active_periods := [];
              overall_activity_ratio := 1 # 2 |} in
  0 <= expected_compression_ratio balanced_profile
  /\ 0 <= overall_activity_ratio r <= 1
  /\ expected_compression_ratio balanced_profile
       <= est_compression_ratio (estimate_output_size 100 balanced_profile (Some r))
       <= expected_compression_ratio balanced_profile * (13 # 10).
Proof.
  intros r.
  assert (Hb : 0 <= expected_compression_ratio balanced_profile)
    by (vm_compute; discriminate).
  assert (Ha : 0 <= overall_activity_ratio r <= 1)
    by (split; vm_compute; discriminate).
  split; [exact Hb|split; [exact Ha|]].
  exact (estimate_ratio_bounds 100 balanced_profile r Hb Ha).
Defined.

(** The rounded estimated size and the rounded space saved that
    [estimate_output_size] returns add up to the input size, up to the
    rounding to one decimal: within 0.1 MB. *)
Theorem estimate_size_saved_sum (size_mb : Q) (profile : ActivityCompressionProfile)
    (motion_analysis : option MotionAnalysisResult) :
  let e := estimate_output_size size_mb profile motion_analysis in
  Qabs (estimated_size_mb e + space_saved_mb e - size_mb) <= 1 # 10.
Proof.
  cbn zeta. cbn [estimate_output_size estimated_size_mb space_saved_mb].
  set (ratio := match motion_analysis with
                | Some r => expected_compression_ratio profile
                            * (1 + overall_activity_ratio r * (3 # 10))
                | None => expected_compression_ratio profile
                end).
  set (x := size_mb * ratio).
  pose proof (ProfileClaims.round1_error x) as E1.
  pose proof (ProfileClaims.round1_error (size_mb - x)) as E2.
  apply Qabs_Qle_condition in E1. apply Qabs_Qle_condition in E2.
  apply Qabs_Qle_condition.
  set (y := round1 x) in *. set (z := round1 (size_mb - x)) in *.
  split; lra.
Qed.

End CompressorOpsClaims.

Module TrackerOpsClaims.
Import PyDictFacts PyDictMore ProgressTracker TrackerOps ExtraSpec.

Lemma list_remove_app_notin (cb : nat) (l : list nat) :
  ~ In cb l -> list_remove cb (l ++ [cb])%list = l.
Proof.
  induction l as [|y r IH]; simpl; intros H.
  - rewrite Nat.eqb_refl. reflexivity.
  - destruct (Nat.eqb cb y) eqn:E.
    + apply Nat.eqb_eq in E. subst. exfalso. apply H. left. reflexivity.
    + rewrite IH; [reflexivity|]. intros C. apply H. right. exact C.
Qed.

Lemma existsb_app_last (cb : nat) (l : list nat) :
  existsb (Nat.eqb cb) (l ++ [cb])%list = true.
Proof.
  rewrite existsb_app. simpl. rewrite Nat.eqb_refl, orb_true_r. reflexivity.
Qed.

(** Subscribing a callback to a job and unsubscribing it again, or doing
    the same with a global subscription, gives back the callbacks
    [_notify_subscribers] calls for every event, in the same order, when
    the callback was not subscribed there before. *)
Theorem subscribe_unsubscribe_roundtrip (t : ProgressTracker) (jid : string) (cb : nat) :
  ~ In cb (match PyDict.get jid (subscribers t) with Some l => l | None => [] end) ->
  ~ In cb (global_subscribers t) ->
  forall e,
    notify_targets (unsubscribe_from_job (subscribe_to_job t jid cb) jid cb) e
      = notify_targets t e
    /\ notify_targets (unsubscribe_from_all (subscribe_to_all t cb) cb) e
      = notify_targets t e.
Proof.
  intros Hj Hg e. split.
  - set (l := match PyDict.get jid (subscribers t) with Some l => l | None => [] end) in *.
    unfold unsubscribe_from_job, subscribe_to_job, with_subscribers.
    fold l. cbn [subscribers global_subscribers].
    rewrite dict_get_set, existsb_app_last, (list_remove_app_notin cb l Hj).
    unfold notify_targets. cbn [subscribers global_subscribers].
    destruct (String.eqb (job_id e) jid) eqn:E.
    + apply String.eqb_eq in E. rewrite E, dict_get_set.
      unfold l. destruct (PyDict.get jid (subscribers t)); reflexivity.
    + apply String.eqb_neq in E. rewrite !dict_get_set_other by exact E.
      reflexivity.
  - unfold unsubscribe_from_all, subscribe_to_all, with_subscribers.
    cbn [subscribers global_subscribers].
    rewrite existsb_app_last, (list_remove_app_notin cb _ Hg).
    unfold notify_targets. cbn [subscribers global_subscribers]. reflexivity.
Qed.

Lemma subscribe_unsubscribe_roundtrip_witness :
  let t := {| job_progress := []; subscribers := [("job", [2%nat])];
              global_subscribers := [3%nat]; active_jobs := [];
              event_queue := []; delivered := [] |} in
  let e := {| job_id := "job"; event_type := PROGRESS; timestamp := 0;
              percentage := 50; stage := "compressing"; message := "Progress" |} in
  ~ In 1%nat (match PyDict.get "job" (subscribers t) with Some l => l | None => [] end)
  /\ ~ In 1%nat (global_subscribers t)
  /\ notify_targets (unsubscribe_from_job (subscribe_to_job t "job" 1) "job" 1) e
       = [2%nat; 3%nat].
Proof.
  intros t e.
  assert (H1 : ~ In 1%nat (match PyDict.get "job" (subscribers t) with
                       | Some l => l | None => [] end))
    by (simpl; intros [H|[]]; discriminate H).
  assert (H2 : ~ In 1%nat (global_subscribers t))
    by (simpl; intros [H|[]]; discriminate H).
  split; [exact H1|split; [exact H2|]].
  rewrite (proj1 (subscribe_unsubscribe_roundtrip t "job" 1 H1 H2 e)).
  reflexivity.
Defined.

Lemma remove_jobs_fields (L : list string) : forall t0,
  job_progress (fold_left remove_job L t0)
    = fold_left (fun d k => PyDict.del k d) L (job_progress t0)
  /\ active_jobs (fold_left remove_job L t0) = active_jobs t0.
Proof.
  induction L as [|k L IH]; intros t0; simpl; [split; reflexivity|].
  destruct (IH (remove_job t0 k)) as [A B]. rewrite A, B.
  split; reflexivity.
Qed.

Lemma get_fold_del {V} (L : list string) : forall (d : PyDict.dict V) (jid : string),
  NoDup (keys d) ->
  PyDict.get jid (fold_left (fun d k => PyDict.del k d) L d)
    = if existsb (String.eqb jid) L then None else PyDict.get jid d.
Proof.
  induction L as [|k L IH]; intros d jid Hn; simpl; [reflexivity|].
  rewrite IH by (apply nodup_del; exact Hn).
  destruct (String.eqb jid k) eqn:E; simpl.
  - apply String.eqb_eq in E. subst.
    destruct (existsb (String.eqb k) L); [reflexivity|].
    apply get_del_same. exact Hn.
  - destruct (existsb (String.eqb jid) L); [reflexivity|].
    apply get_del_other. apply String.eqb_neq in E. exact E.
Qed.

Lemma notin_filter {V} (f : string * V -> bool) (jid : string) (d : PyDict.dict V) :
  ~ In jid (keys d) -> existsb (String.eqb jid) (map fst (filter f d)) = false.
Proof.
  induction d as [|[k v] r IH]; simpl; intros H; [reflexivity|].
  destruct (f (k, v)); simpl.
  - destruct (String.eqb jid k) eqn:E.
    + apply String.eqb_eq in E. subst. exfalso. apply H. left. reflexivity.
    + apply IH. intros C. apply H. right. exact C.
  - apply IH. intros C. apply H. right. exact C.
Qed.

Lemma in_selected {V} (f : string * V -> bool) (jid : string) (h : V)
    (d : PyDict.dict V) :
  NoDup (keys d) -> PyDict.get jid d = Some h ->
  existsb (String.eqb jid) (map fst (filter f d)) = f (jid, h).
Proof.
  induction d as [|[k v] r IH]; simpl; intros Hn Hg; [discriminate|].
  inversion Hn as [|? ? Hk Hr]; subst.
  destruct (String.eqb jid k) eqn:E.
  - apply String.eqb_eq in E. subst. inversion Hg; subst.
    destruct (f (k, h)); simpl.
    + rewrite String.eqb_refl. reflexivity.
    + apply notin_filter. exact Hk.
  - destruct (f (k, v)); simpl.
    + rewrite E. simpl. apply IH; assumption.
    + apply IH; assumption.
Qed.

(** When the job ids of [job_progress] are distinct, [cleanup_old_jobs]
    drops exactly the histories that ended before the cut-off
    [now - max_age_hours] and whose job is no longer active, keeps every
    other history as it was, and leaves the active jobs alone. *)
Theorem cleanup_old_jobs_spec (t : ProgressTracker) (now : Q) (max_age_hours : Z) :
  NoDup (keys (job_progress t)) ->
  forall jid,
    PyDict.get jid (job_progress (cleanup_old_jobs t now max_age_hours))
      = match PyDict.get jid (job_progress t) with
        | Some h =>
            if cleanup_selected t (now - inject_Z max_age_hours * 3600) (jid, h)
            then None else Some h
        | None => None
        end
    /\ active_jobs (cleanup_old_jobs t now max_age_hours) = active_jobs t.
Proof.
  intros Hn jid. unfold cleanup_old_jobs. cbv zeta.
  set (sel := cleanup_selected t (now - inject_Z max_age_hours * 3600)).
  destruct (remove_jobs_fields (map fst (filter sel (job_progress t))) t) as [A B].
  rewrite A, B. split; [|reflexivity].
  rewrite get_fold_del by exact Hn.
  destruct (PyDict.get jid (job_progress t)) as [h|] eqn:G.
  - rewrite (in_selected sel jid h _ Hn G).
    destruct (sel (jid, h)); reflexivity.
  - destruct (existsb (String.eqb jid) (map fst (filter sel (job_progress t))));
      reflexivity.
Qed.

Lemma cleanup_old_jobs_spec_witness :
  let h_old := {| snapshots := []; events := []; start_time := Some 0;
                  end_time := Some 10 |} in
  let h_new := {| snapshots := []; events := []; start_time := Some 0;
                  end_time := Some 90000 |} in
  let t := {| job_progress := [("old", h_old); ("new", h_new)]; subscribers := [];
              global_subscribers := []; active_jobs := [];
              event_queue := []; delivered := [] |} in
  NoDup (keys (job_progress t))
  /\ PyDict.get "old" (job_progress (cleanup_old_jobs t 100000 24)) = None
  /\ PyDict.get "new" (job_progress (cleanup_old_jobs t 100000 24)) = Some h_new.
Proof.
  intros h_old h_new t.
  assert (Hn : NoDup (keys (job_progress t))).
  { simpl. constructor; [intros [H|[]]; discriminate H|].
    constructor; [intros []|constructor]. }
  split; [exact Hn|split].
  - rewrite (proj1 (cleanup_old_jobs_spec t 100000 24 Hn "old")). vm_compute. reflexivity.
  - rewrite (proj1 (cleanup_old_jobs_spec t 100000 24 Hn "new")). vm_compute. reflexivity.
Defined.

(** [_process_event] keeps the job ids of [active_jobs] distinct; after a
    [COMPLETED], [CANCELLED] or [ERROR] event the job is no longer active,
    after a [STARTED] event it is active with the event's time, stage and
    percentage, and the entries of the other jobs are left as they were. *)
Theorem process_event_active_jobs (now : Q) (t : ProgressTracker) (e : ProgressEvent) :
  NoDup (keys (active_jobs t)) ->
  let t' := _process_event now t e in
  NoDup (keys (active_jobs t'))
  /\ (is_terminal (event_type e) = true ->
      PyDict.get (job_id e) (active_jobs t') = None)
  /\ (event_type e = STARTED ->
      PyDict.get (job_id e) (active_jobs t')
        = Some {| info_start_time := timestamp e; current_stage := stage e;
                  current_percentage := percentage e |})
  /\ (forall jid, jid <> job_id e ->
      PyDict.get jid (active_jobs t') = PyDict.get jid (active_jobs t)
      /\ PyDict.get jid (job_progress t') = PyDict.get jid (job_progress t)).
Proof.
  intros Hn t'. unfold t', _process_event. cbv zeta.
  cbn [active_jobs job_progress].
  destruct (event_type e) eqn:Et; cbn [is_terminal].
  all: split; [first [apply nodup_set; exact Hn | apply nodup_del; exact Hn | exact Hn]|].
  all: split; [intros Ht; first [discriminate Ht | apply get_del_same; exact Hn]|].
  all: split; [intros Hs; first [discriminate Hs | apply dict_get_set]|].
  all: intros jid Hne; split; [|apply dict_get_set_other; exact Hne].
  all: first [reflexivity | apply dict_get_set_other; exact Hne
             | apply get_del_other; exact Hne].
Qed.

Lemma process_event_active_jobs_witness :
  let e := {| job_id := "job"; event_type := COMPLETED; timestamp := 5;
              percentage := 100; stage := "completed"; message := "done" |} in
  let t := {| job_progress := []; subscribers := []; global_subscribers := [];
              active_jobs := [("job", {| info_start_time := 0; current_stage := "s";
                                         current_percentage := 40 |})];
              event_queue := []; delivered := [] |} in
  NoDup (keys (active_jobs t))
  /\ PyDict.get "job" (active_jobs (_process_event 5 t e)) = None.
Proof.
  intros e t.
  assert (Hn : NoDup (keys (active_jobs t))) by (repeat constructor; intros []).
  split; [exact Hn|].
  exact (proj1 (proj2 (process_event_active_jobs 5 t e Hn)) eq_refl).
Defined.

Lemma set_forall_val {V} (P : V -> Prop) (k : string) (w : V) (d : PyDict.dict V) :
  Forall (fun kv => P (snd kv)) d -> P w ->
  Forall (fun kv => P (snd kv)) (PyDict.set k w d).
Proof.
  induction d as [|[k' v'] r IH]; simpl; intros Hd Hw.
  - constructor; [exact Hw|constructor].
  - inversion Hd as [|? ? Hh Hr]; subst.
    destruct (String.eqb k k'); constructor; auto.
Qed.

Lemma no_progress_step (now : Q) (jid : string) (t : ProgressTracker) (e : ProgressEvent) :
  (forall h, PyDict.get jid (job_progress t) = Some h -> start_time h = None) ->
  job_id e <> jid \/ event_type e <> PROGRESS ->
  forall h, PyDict.get jid (job_progress (_process_event now t e)) = Some h ->
            start_time h = None.
Proof.
  intros Hs He h. unfold _process_event. cbv zeta. cbn [job_progress].
  destruct (String.eqb jid (job_id e)) eqn:E.
  - apply String.eqb_eq in E. subst jid. rewrite dict_get_set.
    intros Hh. inversion Hh as [Hh']. clear Hh.
    destruct He as [C|Hp]; [contradiction C; reflexivity|].
    destruct (event_type e); [| contradiction Hp; reflexivity | | | |];
      cbn [add_event start_time];
      (destruct (PyDict.get (job_id e) (job_progress t)) as [h0|] eqn:G;
       [apply (Hs h0); first [reflexivity | exact G]|reflexivity]).
  - apply String.eqb_neq in E. rewrite dict_get_set_other by exact E. apply Hs.
Qed.

(** A history gets its [start_time] only from a [PROGRESS] snapshot, so
    a job none of whose processed events is a [PROGRESS] event has no
    duration: [get_duration] is [None] for its history, even after a
    [STARTED] and a [COMPLETED] event. *)
Theorem duration_without_progress (now now' : Q) (jid : string) (es : list ProgressEvent) :
  forall t,
  (forall h, PyDict.get jid (job_progress t) = Some h -> start_time h = None) ->
  Forall (fun e => job_id e <> jid \/ event_type e <> PROGRESS) es ->
  forall h, PyDict.get jid (job_progress (fold_left (_process_event now) es t)) = Some h ->
            get_duration h now' = None.
Proof.
  induction es as [|e es IH]; intros t Hs Hes h Hh; simpl in Hh.
  - unfold get_duration. rewrite (Hs h Hh). reflexivity.
  - inversion Hes as [|? ? He Hr]; subst.
    exact (IH (_process_event now t e) (no_progress_step now jid t e Hs He) Hr h Hh).
Qed.

Lemma duration_without_progress_witness :
  let e1 := {| job_id := "job"; event_type := STARTED; timestamp := 0;
               percentage := 0; stage := "initializing"; message := "Job started" |} in
  let e2 := {| job_id := "job"; event_type := COMPLETED; timestamp := 60;
               percentage := 100; stage := "completed"; message := "done" |} in
  exists h,
    PyDict.get "job" (job_progress (fold_left (_process_event 60) [e1; e2] empty_tracker))
      = Some h
    /\ end_time h = Some 60
    /\ get_duration h 100 = None.
Proof.
  intros e1 e2. eexists. split; [vm_compute; reflexivity|]. split; [reflexivity|].
  match goal with
  | |- get_duration ?h 100 = None =>
      assert (Hh : PyDict.get "job"
                     (job_progress (fold_left (_process_event 60) [e1; e2] empty_tracker))
                   = Some h) by (vm_compute; reflexivity);
      exact (duration_without_progress 60 100 "job" [e1; e2] empty_tracker
               (fun h' (H : PyDict.get "job" [] = Some h') => ltac:(discriminate H))
               ltac:(constructor; [right; discriminate|constructor; [right; discriminate|constructor]])
               h Hh)
  end.
Defined.

Lemma contribution_bounds (p w : Q) :
  0 <= p <= 100 -> 0 <= w -> 0 <= p / 100 * w <= w.
Proof.
  intros [H0 H1] Hw.
  assert (A : 0 <= p * w) by (apply Qmult_le_0_compat; assumption).
  assert (B : p * w <= 100 * w) by (apply Qmult_le_compat_r; assumption).
  setoid_replace (p / 100 * w) with (p * w * (1 # 100)) by field.
  set (x := p * w) in *. split; lra.
Qed.

Lemma weights_fold_bounds (sp : PyDict.dict Q) :
  Forall (fun kv => 0 <= snd kv <= 100) sp ->
  forall (ws : PyDict.dict Q) (acc : Q),
  Forall (fun kv => 0 <= snd kv) ws -> 0 <= acc ->
  let res := fold_left
               (fun total_progress '(stage, weight) =>
                  match PyDict.get stage sp with
                  | Some p => total_progress + p / 100 * weight
                  | None => total_progress
                  end) ws acc in
  0 <= res /\ res <= acc + MotionDetector.Qsum (map snd ws).
Proof.
  intros Hsp. induction ws as [|[k w] r IH]; intros acc Hw Ha; simpl.
  - split; [exact Ha|lra].
  - inversion Hw as [|? ? Hw1 Hr]; subst. simpl in Hw1.
    destruct (PyDict.get k sp) as [p|] eqn:G.
    + assert (Hp : 0 <= p <= 100).
      { apply get_some_in in G. rewrite Forall_forall in Hsp. exact (Hsp _ G). }
      destruct (contribution_bounds p w Hp Hw1) as [C1 C2].
      destruct (IH (acc + p / 100 * w) Hr) as [R1 R2]; [lra|].
      set (c := p / 100 * w) in *. split; lra.
    + destruct (IH acc Hr Ha) as [R1 R2].
      assert (0 <= MotionDetector.Qsum (map snd r)).
      { clear -Hr. induction Hr as [|[k2 v2] r2 H2 _ IH2]; simpl in *; lra. }
      split; lra.
Qed.

Lemma scale_nonneg (t : Q) (d : PyDict.dict Q) :
  0 < t -> Forall (fun kv => 0 <= snd kv) d ->
  Forall (fun kv => 0 <= snd kv)
    (map (fun '(stage, weight) => (stage, weight / t * 100)) d).
Proof.
  intros Ht. induction 1 as [|[k v] r Hv _ IH]; simpl; constructor; [|exact IH].
  simpl in *. assert (0 <= v / t) by (apply Qle_shift_div_l; [exact Ht|lra]).
  set (x := v / t) in *. lra.
Qed.

Lemma reporter_inv (r : ProgressReporter) :
  reporter_reachable r ->
  Forall (fun kv => 0 <= snd kv <= 100) (stage_progress r)
  /\ Forall (fun kv => 0 <= snd kv) (stage_weights r)
  /\ MotionDetector.Qsum (map snd (stage_weights r)) <= 100.
Proof.
  induction 1 as [t jid|r ws r' _ IH Hw Hs|r now nm _ IH|r now sp msg _ IH].
  - simpl. split; [constructor|split; [constructor|lra]].
  - destruct IH as (P & _ & _). unfold set_stage_weights in Hs. cbv zeta in Hs.
    destruct ws as [|w0 ws'].
    + inversion Hs; subst. simpl. split; [exact P|split; [constructor|lra]].
    + set (tot := MotionDetector.Qsum (map snd (w0 :: ws'))) in *.
      destruct (Qeq_bool tot 0) eqn:Z; [discriminate Hs|].
      inversion Hs; subst. cbn [stage_progress stage_weights].
      assert (T0 : 0 <= tot).
      { unfold tot. clear -Hw. induction Hw as [|[k2 v2] r2 H2 _ IH2]; simpl in *; lra. }
      assert (T1 : ~ tot == 0).
      { intros C. apply Qeq_bool_iff in C. rewrite C in Z. discriminate Z. }
      assert (T : 0 < tot).
      { destruct (Qlt_le_dec 0 tot) as [L|L]; [exact L|].
        exfalso. apply T1. apply Qle_antisym; assumption. }
      split; [exact P|split].
      * exact (scale_nonneg tot (w0 :: ws') T Hw).
      * change (MotionDetector.Qsum (map snd (map (fun '(stage, weight) =>
                  (stage, weight / tot * 100)) (w0 :: ws'))) <= 100).
        rewrite (AnalyzerDistClaims.sum_scale tot (w0 :: ws') T1).
        fold tot. setoid_replace (tot / tot * 100) with 100 by (field; exact T1).
        apply Qle_refl.
  - destruct IH as (P & W & S). simpl.
    split; [|split; assumption].
    apply (set_forall_val (fun q => 0 <= q <= 100)); [exact P|lra].
  - destruct IH as (P & W & S). simpl.
    split; [|split; assumption].
    apply (set_forall_val (fun q => 0 <= q <= 100)); [exact P|].
    exact (proj2 (TrackerFacts.py_min_max_spec sp)).
Qed.

(** Whatever a job function does through the [ProgressReporter] API, as
    long as the stage weights it sets are not negative, the overall
    progress [_calculate_overall_progress] computes stays between 0 and
    100. *)
Theorem reporter_progress_bounds (r : ProgressReporter) :
  reporter_reachable r -> 0 <= _calculate_overall_progress r <= 100.
Proof.
  intros H. destruct (reporter_inv r H) as (P & W & S).
  unfold _calculate_overall_progress.
  destruct (stage_weights r) as [|w ws] eqn:E.
  - destruct (PyDict.get (rep_current_stage r) (stage_progress r)) as [p|] eqn:G.
    + apply get_some_in in G. rewrite Forall_forall in P. exact (P _ G).
    + lra.
  - destruct (weights_fold_bounds (stage_progress r) P (w :: ws) 0 W (Qle_refl 0))
      as [R1 R2].
    split; [exact R1|]. eapply Qle_trans; [exact R2|].
    rewrite Qplus_0_l. exact S.
Qed.

Lemma reporter_progress_bounds_witness :
  exists r,
    set_stage_weights
      (start_stage (new_reporter empty_tracker "job") 0 "analysis")
      [("analysis", 1); ("compression", 3)] = Ok r
    /\ 0 <= _calculate_overall_progress (update_stage_progress r 1 50 None) <= 100.
Proof.
  eexists. split; [vm_compute; reflexivity|].
  match goal with
  | |- 0 <= _calculate_overall_progress (update_stage_progress ?r 1 50 None) <= 100 =>
      assert (Hr : set_stage_weights
                     (start_stage (new_reporter empty_tracker "job") 0 "analysis")
                     [("analysis", 1); ("compression", 3)] = Ok r)
        by (vm_compute; reflexivity);
      apply reporter_progress_bounds; apply rr_update;
      apply (rr_weights _ [("analysis", 1); ("compression", 3)] _
               (rr_start _ 0 "analysis" (rr_new empty_tracker "job")));
      [|exact Hr]; repeat constructor; simpl; lra
  end.
Defined.

End TrackerOpsClaims.
